(** * BEiT vision transformer (flowvision/models/beit.py): a shallow embedding

    The development follows the source file top-down: the relative position
    index generator, the [Attention] module, the transformer [Block], the
    shared [RelativePositionBias], the [Beit] container with its weight
    initialisation policy, and the [beit_base_patch16_224] factory.

    Conventions.
    - Integer tensors are nested lists of [Z]; floating-point tensors are
      nested lists of [Q].  Rational arithmetic is exact: rounding of the
      runtime's floats is not modelled.
    - Operations of the tensor runtime that raise on ill-shaped operands
      (broadcast mismatch, out-of-range index) are total here: zips truncate
      and lookups use defaults.  The constructors below only build
      well-shaped operands.
    - Black-box layers of the runtime (softmax, layer normalisation, GELU,
      random masks, random initialisers) are variables of the sections. *)

From Stdlib Require Import ZArith QArith Lqa List String.
From stdpp Require Import base list strings gmap pretty.

(** ** Nested lists as tensors *)

(** Transposition of a matrix whose rows have length [n]. *)
Fixpoint transpose {A} (n : nat) (l : list (list A)) : list (list A) :=
  match l with
  | [] => replicate n []
  | r :: rs => zip_with cons r (transpose n rs)
  end.

(** [t.view(r, c, -1)] on a list of [r * c] items: [r] groups of [c]. *)
Definition view2 {A} (r c : nat) (l : list A) : list (list A) :=
  (fun i => take c (drop (i * c) l)) <$> seq 0 r.

Lemma lookup_concat_uniform {A} (n : nat) (l : list (list A)) (i j : nat) :
  Forall (fun r => length r = n) l -> (j < n)%nat ->
  concat l !! (i * n + j)%nat = l !! i ≫= (.!! j).
Proof.
  intros Hl Hj. revert i. induction Hl as [|r l Hr _ IH]; intros i.
  - by rewrite !lookup_nil.
  - cbn [concat]. destruct i as [|i].
    + rewrite lookup_app_l by lia. done.
    + rewrite lookup_app_r by (simpl; lia).
      replace (S i * n + j - length r)%nat with (i * n + j)%nat
        by (simpl; lia).
      apply IH.
Qed.

Lemma view2_entry {A} (r c : nat) (l : list A) (i j : nat) :
  (i < r)%nat -> (j < c)%nat ->
  view2 r c l !! i ≫= (.!! j) = l !! (i * c + j)%nat.
Proof.
  intros Hi Hj. unfold view2.
  rewrite list_lookup_fmap, lookup_seq_lt by done. simpl.
  by rewrite lookup_take_lt, lookup_drop by done.
Qed.

Lemma fmap_seq_const {A} (f : nat -> A) (n : nat) (v : A) :
  (forall i, (i < n)%nat -> f i = v) -> f <$> seq 0 n = replicate n v.
Proof.
  intros Hf. apply list_eq. intros i.
  rewrite list_lookup_fmap.
  destruct (decide (i < n)%nat) as [Hi|Hi].
  - rewrite lookup_seq_lt by done. simpl. rewrite Hf by done.
    symmetry. by apply lookup_replicate_2.
  - rewrite lookup_seq_ge by lia. simpl. symmetry.
    apply lookup_replicate_None. lia.
Qed.

Lemma fmap_const_replicate {A B} (f : A -> B) (l : list A) (v : B) :
  Forall (fun x => f x = v) l -> f <$> l = replicate (length l) v.
Proof.
  induction 1 as [|x l Hx _ IH]; [done|].
  rewrite fmap_cons. simpl. by rewrite Hx, IH.
Qed.

Lemma concat_length_uniform {A} (n : nat) (l : list (list A)) :
  Forall (fun r => length r = n) l ->
  length (concat l) = (length l * n)%nat.
Proof.
  induction 1 as [|r l Hr _ IH]; [done|].
  cbn [concat]. rewrite length_app, IH, Hr. simpl. lia.
Qed.

Lemma view2_replicate {A} (n : nat) (v : A) :
  view2 n n (replicate (n * n) v) = replicate n (replicate n v).
Proof.
  unfold view2. apply fmap_seq_const. intros i Hi.
  rewrite drop_replicate, take_replicate. f_equal. nia.
Qed.

Lemma transpose_length {A} (n : nat) (l : list (list A)) :
  Forall (fun r => length r = n) l -> length (transpose n l) = n.
Proof.
  induction 1 as [|r l Hr _ IH]; simpl.
  - apply length_replicate.
  - rewrite length_zip_with. lia.
Qed.

(** ** Relative position index (beit.py, lines 25-48) *)

Module RelPos.
Local Open Scope Z_scope.

(** [flow.arange(n)] *)
Definition arange (n : nat) : list Z := Z.of_nat <$> seq 0 n.

(** [flow.meshgrid([a, b])] (matrix indexing): two grids of shape
    [|a| x |b|], the first constant along rows, the second along columns. *)
Definition meshgrid (a b : list Z) : list (list (list Z)) :=
  [ (fun r => (fun _ => r) <$> b) <$> a ; (fun _ => b) <$> a ].

(** [flow.flatten(t, 1)] on a rank-3 tensor. *)
Definition flatten1 (t : list (list (list Z))) : list (list Z) :=
  (fun m => concat m) <$> t.

(** [cf[:, :, None] - cf[:, None, :]] *)
Definition outer_sub (cf : list (list Z)) : list (list (list Z)) :=
  (fun v : list Z => (fun a => (fun b => a - b) <$> v) <$> v) <$> cf.

(** [t.permute(1, 2, 0)] on a tensor of shape [(c, n, n)]. *)
Definition permute_1_2_0 (n : nat) (t : list (list (list Z)))
  : list (list (list Z)) :=
  transpose n <$> transpose n t.

(** [t[:, :, c] += k] and [t[:, :, c] *= k] *)
Definition iadd_chan (c : nat) (k : Z) (t : list (list (list Z))) :=
  fmap (M := list) (fmap (M := list) (alter (fun v => v + k) c)) t.
Definition imul_chan (c : nat) (k : Z) (t : list (list (list Z))) :=
  fmap (M := list) (fmap (M := list) (alter (fun v => v * k) c)) t.

(** [t.sum(-1)] *)
Definition sum_last (t : list (list (list Z))) : list (list Z) :=
  fmap (M := list) (fmap (M := list) (foldr Z.add 0)) t.

(** [flow.zeros((n,) * 2)] *)
Definition zeros2 (n : nat) : list (list Z) := replicate n (replicate n 0).

(** [t[1:, 1:] = m] *)
Definition assign_1_1 (m t : list (list Z)) : list (list Z) :=
  take 1 t ++ zip_with (fun row mrow => take 1 row ++ mrow) (drop 1 t) m.

(** [t[0, 0:] = c] *)
Definition assign_row0 (c : Z) (t : list (list Z)) : list (list Z) :=
  alter (fmap (fun _ => c)) 0%nat t.

(** [t[0:, 0] = c] *)
Definition assign_col0 (c : Z) (t : list (list Z)) : list (list Z) :=
  (fun row => <[0%nat := c]> row) <$> t.

(** [t[0, 0] = c] *)
Definition assign_0_0 (c : Z) (t : list (list Z)) : list (list Z) :=
  alter (fun row => <[0%nat := c]> row) 0%nat t.

Definition num_relative_distance (window_size : nat * nat) : Z :=
  (2 * Z.of_nat window_size.1 - 1) * (2 * Z.of_nat window_size.2 - 1) + 3.

Definition gen_relative_position_index (window_size : nat * nat)
  : list (list Z) :=
  let nrd := num_relative_distance window_size in
  let window_area := (window_size.1 * window_size.2)%nat in
  let coords := meshgrid (arange window_size.1) (arange window_size.2) in
  let coords_flatten := flatten1 coords in
  let relative_coords := outer_sub coords_flatten in
  let relative_coords := permute_1_2_0 window_area relative_coords in
  let relative_coords :=
    iadd_chan 0 (Z.of_nat window_size.1 - 1) relative_coords in
  let relative_coords :=
    iadd_chan 1 (Z.of_nat window_size.2 - 1) relative_coords in
  let relative_coords :=
    imul_chan 0 (2 * Z.of_nat window_size.2 - 1) relative_coords in
  let relative_position_index := zeros2 (window_area + 1) in
  let relative_position_index :=
    assign_1_1 (sum_last relative_coords) relative_position_index in
  let relative_position_index :=
    assign_row0 (nrd - 3) relative_position_index in
  let relative_position_index :=
    assign_col0 (nrd - 2) relative_position_index in
  assign_0_0 (nrd - 1) relative_position_index.

(** Entry [(i, j)] of a matrix. *)
Definition entry {A} (t : list (list A)) (i j : nat) : option A :=
  t !! i ≫= (.!! j).

(** The bucket id the generator assigns to the ordered pair of grid cells
    [(i, j)] (row-major cell numbers) of a window of width [w] and height
    [h], read off the closed form proved in [gen_relative_position_index_eq]. *)
Definition cell_row (w i : nat) : Z := Z.of_nat (i / w).
Definition cell_col (w i : nat) : Z := Z.of_nat (i mod w).

Example gen_relative_position_index_2_3 :
  gen_relative_position_index (2, 3)%nat =
  [[17; 15; 15; 15; 15; 15; 15]; [16; 7; 6; 5; 2; 1; 0];
   [16; 8; 7; 6; 3; 2; 1]; [16; 9; 8; 7; 4; 3; 2];
   [16; 12; 11; 10; 7; 6; 5]; [16; 13; 12; 11; 8; 7; 6];
   [16; 14; 13; 12; 9; 8; 7]].
Proof. reflexivity. Qed.

Lemma flatten_rows (h w : nat) :
  (0 < w)%nat ->
  concat ((fun r => (fun _ => r) <$> arange w) <$> arange h)
  = cell_row w <$> seq 0 (h * w).
Proof.
  intros Hw. unfold arange. induction h as [|h IH].
  - reflexivity.
  - rewrite seq_S, !fmap_app, concat_app, IH. simpl.
    rewrite (Nat.add_comm w), seq_app, fmap_app, app_nil_r. f_equal.
    rewrite (Nat.add_comm 0 (h * w)), <- (fmap_add_seq (h * w) 0 w).
    rewrite <- !list_fmap_compose. apply list_fmap_ext.
    intros i k [-> Hi]%lookup_seq. simpl. unfold cell_row.
    rewrite (Nat.add_comm (h * w)), Nat.div_add by lia.
    rewrite Nat.div_small by lia. reflexivity.
Qed.

Lemma flatten_cols (h w : nat) :
  (0 < w)%nat ->
  concat ((fun _ => arange w) <$> arange h) = cell_col w <$> seq 0 (h * w).
Proof.
  intros Hw. unfold arange. induction h as [|h IH].
  - reflexivity.
  - rewrite seq_S, !fmap_app, concat_app, IH. simpl.
    rewrite (Nat.add_comm w), seq_app, fmap_app, app_nil_r. f_equal.
    rewrite (Nat.add_comm 0 (h * w)), <- (fmap_add_seq (h * w) 0 w).
    rewrite <- !list_fmap_compose. apply list_fmap_ext.
    intros i k [-> Hi]%lookup_seq. simpl. unfold cell_col.
    rewrite (Nat.add_comm (h * w)), Nat.Div0.mod_add.
    rewrite Nat.mod_small by lia. reflexivity.
Qed.

Lemma transpose_pair {A} (n : nat) (x y : list A) :
  length x = n -> length y = n ->
  transpose n [x; y] = zip_with (fun a b => [a; b]) x y.
Proof.
  intros Hx Hy. simpl.
  rewrite (zip_with_replicate_r _ n) by lia.
  rewrite zip_with_fmap_r. reflexivity.
Qed.

(** The value the generator stores for the ordered pair of grid cells
    [(i, j)], as the chain of in-place updates of lines 34-44 computes it. *)
Definition bucket (h w i j : nat) : Z :=
  (cell_row w i - cell_row w j + (Z.of_nat h - 1)) * (2 * Z.of_nat w - 1)
  + (cell_col w i - cell_col w j + (Z.of_nat w - 1)).
Lemma relative_coords_sum (h w : nat) :
  (0 < w)%nat ->
  sum_last
    (imul_chan 0 (2 * Z.of_nat w - 1)
       (iadd_chan 1 (Z.of_nat w - 1)
          (iadd_chan 0 (Z.of_nat h - 1)
             (permute_1_2_0 (h * w)
                (outer_sub (flatten1 (meshgrid (arange h) (arange w))))))))
  = (fun i => bucket h w i <$> seq 0 (h * w)) <$> seq 0 (h * w).
Proof.
  intros Hw. unfold meshgrid, flatten1, outer_sub. simpl.
  rewrite flatten_rows, flatten_cols by done.
  unfold permute_1_2_0.
  rewrite transpose_pair by (by rewrite !length_fmap, length_seq).
  rewrite <- !list_fmap_compose.
  rewrite zip_with_fmap_l, zip_with_fmap_r, zip_with_diag.
  unfold sum_last, imul_chan, iadd_chan.
  rewrite <- !list_fmap_compose.
  apply list_fmap_ext. intros _ i _. unfold compose.
  rewrite transpose_pair by (by rewrite !length_fmap, length_seq).
  rewrite <- !list_fmap_compose.
  rewrite zip_with_fmap_l, zip_with_fmap_r, zip_with_diag.
  rewrite <- !list_fmap_compose.
  apply list_fmap_ext. intros _ j _. simpl. unfold bucket. lia.
Qed.

Lemma gen_relative_position_index_eq (h w : nat) :
  (0 < w)%nat ->
  gen_relative_position_index (h, w) =
  ((num_relative_distance (h, w) - 1)
     :: replicate (h * w) (num_relative_distance (h, w) - 3))
  :: ((fun i => (num_relative_distance (h, w) - 2)
                  :: (bucket h w i <$> seq 0 (h * w))) <$> seq 0 (h * w)).
Proof.
  intros Hw. unfold gen_relative_position_index.
  cbv zeta. change ((h, w).1) with h. change ((h, w).2) with w.
  rewrite relative_coords_sum by done.
  generalize (num_relative_distance (h, w)) as nrd; intros nrd.
  unfold zeros2. rewrite Nat.add_1_r.
  unfold assign_1_1, assign_row0, assign_col0, assign_0_0.
  rewrite !replicate_S. cbn [take drop app]. rewrite take_0, drop_0. cbn [app].
  rewrite zip_with_replicate_l by (by rewrite length_fmap, length_seq).
  cbn [alter list_alter fmap list_fmap insert list_insert firstn app].
  f_equal.
  - f_equal. by rewrite fmap_replicate.
  - rewrite <- !list_fmap_compose. apply list_fmap_ext. intros _ i _.
    reflexivity.
Qed.

Lemma bucket_inj (h w i j i' j' : nat) :
  (0 < w)%nat ->
  bucket h w i j = bucket h w i' j' ->
  cell_row w i - cell_row w j = cell_row w i' - cell_row w j'
  /\ cell_col w i - cell_col w j = cell_col w i' - cell_col w j'.
Proof.
  intros Hw. unfold bucket, cell_col.
  pose proof (Nat.mod_upper_bound i w ltac:(lia)).
  pose proof (Nat.mod_upper_bound j w ltac:(lia)).
  pose proof (Nat.mod_upper_bound i' w ltac:(lia)).
  pose proof (Nat.mod_upper_bound j' w ltac:(lia)).
  generalize (cell_row w i - cell_row w j) as a.
  generalize (cell_row w i' - cell_row w j') as a'.
  generalize dependent (i mod w)%nat. generalize dependent (j mod w)%nat.
  generalize dependent (i' mod w)%nat. generalize dependent (j' mod w)%nat.
  intros c1 ? c2 ? c3 ? c4 ? a' a Heq.
  assert (a = a') by nia. subst a'. split; [done | lia].
Qed.

Lemma entry_interior (h w i j : nat) :
  (0 < w)%nat -> (i < h * w)%nat -> (j < h * w)%nat ->
  entry (gen_relative_position_index (h, w)) (S i) (S j)
  = Some (bucket h w i j).
Proof.
  intros Hw Hi Hj. rewrite gen_relative_position_index_eq by done.
  unfold entry. rewrite lookup_cons.
  rewrite list_lookup_fmap, lookup_seq_lt by done. simpl.
  rewrite list_lookup_fmap, lookup_seq_lt by done. reflexivity.
Qed.

(** C1: for a window of positive height [h] and width [w], the generated
    index is a square matrix of side [h*w+1]; its interior entry
    [(i+1, j+1)] is [(drow + h - 1) * (2w - 1) + (dcol + w - 1)] for the
    signed offset [(drow, dcol)] from cell [j] to cell [i]; two interior
    entries are equal only when their offsets are; row 0 holds
    [num_relative_distance - 3], column 0 holds [num_relative_distance - 2]
    and the corner holds [num_relative_distance - 1], where
    [num_relative_distance = (2h-1)(2w-1)+3]. *)
Theorem gen_relative_position_index_spec (h w : nat) :
  (0 < h)%nat -> (0 < w)%nat ->
  let t := gen_relative_position_index (h, w) in
  let nrd := num_relative_distance (h, w) in
  let drow i j := cell_row w i - cell_row w j in
  let dcol i j := cell_col w i - cell_col w j in
  (length t = (h * w + 1)%nat
   /\ Forall (fun row => length row = (h * w + 1)%nat) t)
  /\ (forall i j, (i < h * w)%nat -> (j < h * w)%nat ->
        entry t (S i) (S j)
        = Some ((drow i j + (Z.of_nat h - 1)) * (2 * Z.of_nat w - 1)
                + (dcol i j + (Z.of_nat w - 1))))
  /\ (forall i j i' j',
        (i < h * w)%nat -> (j < h * w)%nat ->
        (i' < h * w)%nat -> (j' < h * w)%nat ->
        entry t (S i) (S j) = entry t (S i') (S j') ->
        drow i j = drow i' j' /\ dcol i j = dcol i' j')
  /\ (forall j, (1 <= j <= h * w)%nat -> entry t 0 j = Some (nrd - 3))
  /\ (forall i, (1 <= i <= h * w)%nat -> entry t i 0 = Some (nrd - 2))
  /\ entry t 0 0 = Some (nrd - 1)
  /\ nrd = (2 * Z.of_nat h - 1) * (2 * Z.of_nat w - 1) + 3.
Proof.
  intros Hh Hw t nrd drow dcol.
  assert (Ht : t =
    ((nrd - 1) :: replicate (h * w) (nrd - 3))
    :: ((fun i => (nrd - 2) :: (bucket h w i <$> seq 0 (h * w)))
          <$> seq 0 (h * w)))
    by (apply gen_relative_position_index_eq; done).
  repeat split.
  - rewrite Ht. cbn [length]. rewrite length_fmap, length_seq. lia.
  - rewrite Ht. constructor.
    + cbn [length]. rewrite length_replicate. lia.
    + apply Forall_fmap, Forall_forall. intros i _. cbn.
      rewrite length_fmap, length_seq. lia.
  - intros i j Hi Hj. subst t. rewrite entry_interior by done. reflexivity.
  - subst t. rewrite !entry_interior in H3 by done.
    injection H3 as H3. apply (bucket_inj h w i j i' j' Hw H3).
  - subst t. rewrite !entry_interior in H3 by done.
    injection H3 as H3. apply (bucket_inj h w i j i' j' Hw H3).
  - intros j Hj. rewrite Ht. destruct j as [|j]; [lia|].
    unfold entry. cbn. apply lookup_replicate_2. lia.
  - intros i Hi. rewrite Ht. destruct i as [|i]; [lia|].
    unfold entry. rewrite lookup_cons.
    rewrite list_lookup_fmap, lookup_seq_lt by lia. reflexivity.
  - rewrite Ht. reflexivity.
Qed.

Lemma gen_relative_position_index_spec_witness :
  (0 < 2)%nat /\ (0 < 3)%nat
  /\ entry (gen_relative_position_index (2, 3)%nat) 4 3 = Some 10
  /\ entry (gen_relative_position_index (2, 3)%nat) 0 5 = Some 15.
Proof.
  destruct (gen_relative_position_index_spec 2 3 ltac:(lia) ltac:(lia))
    as (_ & Hint & _ & Hrow & _).
  split; [lia|]. split; [lia|]. split.
  - apply (Hint 3 2)%nat; simpl; lia.
  - apply (Hrow 5%nat). simpl; lia.
Defined.

(** *** Further properties of the index *)

Lemma cell_bounds (h w i : nat) :
  (0 < w)%nat -> (i < h * w)%nat ->
  0 <= cell_row w i <= Z.of_nat h - 1 /\ 0 <= cell_col w i <= Z.of_nat w - 1.
Proof.
  intros Hw Hi. unfold cell_row, cell_col.
  pose proof (Nat.mod_upper_bound i w ltac:(lia)).
  assert (i / w < h)%nat by (apply Nat.Div0.div_lt_upper_bound; lia).
  lia.
Qed.

Lemma bucket_range (h w i j : nat) :
  (0 < w)%nat -> (i < h * w)%nat -> (j < h * w)%nat ->
  0 <= bucket h w i j <= num_relative_distance (h, w) - 4.
Proof.
  intros Hw Hi Hj. unfold bucket, num_relative_distance. cbn [fst snd].
  destruct (cell_bounds h w i Hw Hi) as [? ?].
  destruct (cell_bounds h w j Hw Hj) as [? ?].
  nia.
Qed.

Lemma entry_cases (h w i j : nat) (z : Z) :
  (0 < w)%nat ->
  entry (gen_relative_position_index (h, w)) i j = Some z ->
  (i = 0%nat /\ j = 0%nat /\ z = num_relative_distance (h, w) - 1)
  \/ (i = 0%nat /\ (1 <= j <= h * w)%nat
      /\ z = num_relative_distance (h, w) - 3)
  \/ ((1 <= i <= h * w)%nat /\ j = 0%nat
      /\ z = num_relative_distance (h, w) - 2)
  \/ (exists i' j', i = S i' /\ j = S j' /\ (i' < h * w)%nat
                    /\ (j' < h * w)%nat /\ z = bucket h w i' j').
Proof.
  intros Hw. rewrite gen_relative_position_index_eq by done.
  unfold entry. destruct i as [|i]; rewrite lookup_cons.
  - simpl. destruct j as [|j]; rewrite lookup_cons.
    + intros [= <-]. by left.
    + intros [Hz Hj]%lookup_replicate. right; left. split; [done|].
      split; [lia|done].
  - rewrite list_lookup_fmap.
    destruct (seq 0 (h * w) !! i) as [i0|] eqn:Hi; [|done].
    apply lookup_seq in Hi as [-> Hi]. simpl.
    destruct j as [|j]; rewrite lookup_cons.
    + intros [= <-]. right; right; left. split; [lia|done].
    + rewrite list_lookup_fmap.
      destruct (seq 0 (h * w) !! j) as [j0|] eqn:Hj; [|done].
      apply lookup_seq in Hj as [-> Hj]. simpl. intros [= <-].
      right; right; right. exists i, j. done.
Qed.

Lemma gen_relative_position_index_shape (h w : nat) :
  (0 < w)%nat ->
  length (gen_relative_position_index (h, w)) = (h * w + 1)%nat
  /\ Forall (fun row => length row = (h * w + 1)%nat)
       (gen_relative_position_index (h, w)).
Proof.
  intros Hw. rewrite gen_relative_position_index_eq by done. split.
  - cbn [length]. rewrite length_fmap, length_seq. lia.
  - constructor.
    + cbn [length]. rewrite length_replicate. lia.
    + apply Forall_fmap, Forall_forall. intros i _. cbn.
      rewrite length_fmap, length_seq. lia.
Qed.

Lemma gen_relative_position_index_range_aux (h w i j : nat) (z : Z) :
  (0 < h)%nat -> (0 < w)%nat ->
  entry (gen_relative_position_index (h, w)) i j = Some z ->
  0 <= z < num_relative_distance (h, w).
Proof.
  intros Hh Hw Hz.
  assert (Hn : 4 <= num_relative_distance (h, w)).
  { unfold num_relative_distance. cbn [fst snd]. nia. }
  destruct (entry_cases h w i j z Hw Hz)
    as [(-> & -> & ->)|[(-> & Hj & ->)|[(Hi & -> & ->)|
        (i' & j' & -> & -> & Hi & Hj & ->)]]]; try lia.
  pose proof (bucket_range h w i' j' Hw Hi Hj). lia.
Qed.

(** X1: Every entry of the index is a valid row number of a table with
    [num_relative_distance] rows, and the ids of grid offsets stay below
    the three ids reserved for the class token. *)
Theorem gen_relative_position_index_range (h w i j : nat) (z : Z) :
  (0 < h)%nat -> (0 < w)%nat ->
  entry (gen_relative_position_index (h, w)) i j = Some z ->
  0 <= z < num_relative_distance (h, w)
  /\ ((0 < i)%nat -> (0 < j)%nat -> z < num_relative_distance (h, w) - 3).
Proof.
  intros Hh Hw Hz.
  assert (Hn : 4 <= num_relative_distance (h, w)).
  { unfold num_relative_distance. cbn [fst snd]. nia. }
  destruct (entry_cases h w i j z Hw Hz)
    as [(-> & -> & ->)|[(-> & Hj & ->)|[(Hi & -> & ->)|
        (i' & j' & -> & -> & Hi & Hj & ->)]]]; try (split; lia).
  pose proof (bucket_range h w i' j' Hw Hi Hj). split; lia.
Qed.

Lemma gen_relative_position_index_range_witness :
  (0 < 2)%nat /\ (0 < 3)%nat
  /\ entry (gen_relative_position_index (2, 3)%nat) 1 6 = Some 0
  /\ 0 <= 0 < num_relative_distance (2, 3)%nat.
Proof.
  split; [lia|]. split; [lia|]. split; [reflexivity|].
  apply (gen_relative_position_index_range 2 3 1 6 0); [lia|lia|reflexivity].
Defined.

(** X2: Swapping the two cells mirrors the offset: the ids of [(i, j)] and
    [(j, i)] add up to [num_relative_distance - 4], and every diagonal
    entry is the centre id [(h - 1) * (2w - 1) + (w - 1)]. *)
Theorem gen_relative_position_index_mirror (h w i j : nat) :
  (0 < w)%nat -> (i < h * w)%nat -> (j < h * w)%nat ->
  let t := gen_relative_position_index (h, w) in
  (exists a b, entry t (S i) (S j) = Some a /\ entry t (S j) (S i) = Some b
               /\ a + b = num_relative_distance (h, w) - 4)
  /\ entry t (S i) (S i)
     = Some ((Z.of_nat h - 1) * (2 * Z.of_nat w - 1) + (Z.of_nat w - 1)).
Proof.
  intros Hw Hi Hj t. subst t. rewrite !entry_interior by done. split.
  - eexists _, _. split; [done|]. split; [done|].
    unfold bucket, num_relative_distance. cbn [fst snd]. lia.
  - f_equal. unfold bucket. lia.
Qed.

Lemma gen_relative_position_index_mirror_witness :
  (0 < 3)%nat /\ (5 < 2 * 3)%nat /\ (0 < 2 * 3)%nat
  /\ entry (gen_relative_position_index (2, 3)%nat) 6 6 = Some 7.
Proof.
  split; [lia|]. split; [lia|]. split; [lia|].
  apply (gen_relative_position_index_mirror 2 3 5 0); lia.
Defined.

(** X3: The id depends on the offset only: two pairs of cells with the same
    row and column offsets share their id. *)
Theorem gen_relative_position_index_offset (h w i j i' j' : nat) :
  (0 < w)%nat ->
  (i < h * w)%nat -> (j < h * w)%nat ->
  (i' < h * w)%nat -> (j' < h * w)%nat ->
  cell_row w i - cell_row w j = cell_row w i' - cell_row w j' ->
  cell_col w i - cell_col w j = cell_col w i' - cell_col w j' ->
  entry (gen_relative_position_index (h, w)) (S i) (S j)
  = entry (gen_relative_position_index (h, w)) (S i') (S j').
Proof.
  intros Hw Hi Hj Hi' Hj' Hr Hc. rewrite !entry_interior by done.
  unfold bucket. by rewrite Hr, Hc.
Qed.

Lemma gen_relative_position_index_offset_witness :
  entry (gen_relative_position_index (2, 3)%nat) 5 1
  = entry (gen_relative_position_index (2, 3)%nat) 6 2.
Proof.
  apply (gen_relative_position_index_offset 2 3 4 0 5 1);
    (lia || reflexivity).
Defined.

End RelPos.

(** ** Floating-point tensors and the runtime's layers *)

Abbreviation vec := (list Q) (only parsing).
Abbreviation mat := (list (list Q)) (only parsing).
Abbreviation tensor3 := (list (list (list Q))) (only parsing).
Abbreviation tensor4 := (list (list (list (list Q)))) (only parsing).

Module Tensor.
Local Open Scope Q_scope.

Definition zeros (n : nat) : vec := replicate n 0.
Definition ones (n : nat) : vec := replicate n 1.
Definition sum (v : vec) : Q := foldr Qplus 0 v.
Definition dot (a b : vec) : Q := sum (zip_with Qmult a b).

(** Elementwise [a + b] on operands of equal shape. *)
Definition add1 (a b : vec) : vec := zip_with Qplus a b.
Definition add2 (a b : mat) : mat := zip_with add1 a b.
Definition add3 (a b : tensor3) : tensor3 := zip_with add2 a b.

(** [a + b] where [b] has one dimension less and is broadcast over the
    leading dimension of [a]. *)
Definition add_bcast3 (a : tensor3) (b : mat) : tensor3 :=
  (fun a0 => add2 a0 b) <$> a.
Definition add_bcast4 (a : tensor4) (b : tensor3) : tensor4 :=
  (fun a0 => add3 a0 b) <$> a.

(** [a + b] where both have rank 4 and [b] has leading dimension 1. *)
Definition add4_lead1 (a b : tensor4) : tensor4 :=
  match b with
  | [b0] => add_bcast4 a b0
  | _ => zip_with add3 a b
  end.

(** [s * v], [v * s] and [v / s] for a scalar [s]; [g * x] for a vector [g]
    broadcast over the leading dimensions of [x]. *)
Definition smul (s : Q) (v : vec) : vec := (fun a => s * a) <$> v.
Definition muls (v : vec) (s : Q) : vec := (fun a => a * s) <$> v.
Definition divs (v : vec) (s : Q) : vec := (fun a => a / s) <$> v.
Definition mul_last (g x : vec) : vec := zip_with Qmult g x.

(** [a @ b.transpose(-2, -1)] and [a @ b] for [b] with [cols] columns. *)
Definition matmul_nt (a b : mat) : mat := (fun r => dot r <$> b) <$> a.
Definition matmul (cols : nat) (a b : mat) : mat :=
  matmul_nt a (transpose cols b).

(** [x[1:].mean(dim=0)] for a matrix with rows of length [c]. *)
Definition mean_rows (c : nat) (rows : mat) : vec :=
  divs (foldr add1 (zeros c) rows) (inject_Z (Z.of_nat (length rows))).

(** Entry [t[h][i][j]] and [t[b][h][i][j]], when in range. *)
Definition entry3 (t : tensor3) (h i j : nat) : option Q :=
  t !! h ≫= fun th => th !! i ≫= fun r => r !! j.
Definition entry4 (t : tensor4) (b h i j : nat) : option Q :=
  t !! b ≫= fun tb => entry3 tb h i j.

(** [F.linear(x, weight, bias)] on the last dimension. *)
Definition linear (weight : mat) (bias : option vec) (x : vec) : vec :=
  let y := dot x <$> weight in
  match bias with
  | Some b => add1 y b
  | None => y
  end.

End Tensor.

(** The parts of the tensor runtime and of [flowvision.layers] that the
    model file uses as black boxes.  Random masks and random initialisers
    are arbitrary functions: nothing below depends on their values. *)
Class Externals := {
  (** [softmax(dim=-1)] on one row *)
  softmax : vec -> vec;
  (** [nn.LayerNorm(eps)] with the given weight and bias on one row *)
  layer_norm : Q -> vec -> vec -> vec -> vec;
  (** [nn.GELU] *)
  gelu : Q -> Q;
  (** the mask [nn.Dropout(p)] applies to one row in training mode *)
  dropout_mask : Q -> vec -> vec;
  (** the per-sample mask [DropPath(p)] applies in training mode *)
  drop_path_mask : Q -> mat -> mat;
  (** [n ** -0.5] *)
  pow_neg_half : nat -> Q;
  (** [math.sqrt] *)
  math_sqrt : Q -> Q;
  (** the [k]-th value [trunc_normal_(_, std)] draws *)
  trunc_normal_sample : Q -> nat -> Q;
  (** the [k]-th value the default initialiser of [nn.Linear] draws *)
  default_init_sample : nat -> Q;
  (** [PatchEmbed.forward] on one image, as a sequence of tokens *)
  patch_embed_forward : tensor3 -> mat;
  (** the parameter names of a [PatchEmbed] module *)
  patch_embed_parameters : list string;
}.

(** Random number generator state: the number of values drawn so far. *)
Definition Rand (A : Type) : Type := nat -> A * nat.
#[global] Instance Rand_ret : MRet Rand := fun A a s => (a, s).
#[global] Instance Rand_bind : MBind Rand :=
  fun A B f m s => let (a, s') := m s in f a s'.

#[global] Instance Rand_fmap : FMap Rand :=
  fun A B f m s => let (a, s') := m s in (f a, s').

(** A tensor of [n] values drawn with [sample]. *)
Definition draw (sample : nat -> Q) (n : nat) : Rand vec :=
  fun s => (sample <$> seq s n, (s + n)%nat).
Definition draw2 (sample : nat -> Q) (rows cols : nat) : Rand mat :=
  mapM (fun _ => draw sample cols) (seq 0 rows).

Lemma mapM_Rand_length {A B} (f : A -> Rand B) (l : list A) (s : nat) :
  length (mapM f l s).1 = length l.
Proof.
  revert s. induction l as [|a l IH]; intros s; [done|].
  simpl. unfold mbind, Rand_bind, mret, Rand_ret.
  destruct (f a s) as [b s1]. specialize (IH s1).
  destruct (mapM f l s1) as [bs s2]. simpl in *. by rewrite IH.
Qed.

Lemma mapM_Rand_fmap {A B C} (f : A -> Rand B) (p : B -> C) (g : A -> C)
    (l : list A) (s : nat) :
  (forall a s', p (f a s').1 = g a) ->
  p <$> (mapM f l s).1 = g <$> l.
Proof.
  intros Hp. revert s. induction l as [|a l IH]; intros s; [done|].
  simpl. unfold mbind, Rand_bind, mret, Rand_ret.
  specialize (Hp a s). destruct (f a s) as [b s1]. specialize (IH s1).
  destruct (mapM f l s1) as [bs s2]. cbn [fst] in *.
  rewrite !fmap_cons. by f_equal.
Qed.

Lemma mapM_Rand_lookup {A B} (f : A -> Rand B) (l : list A) (s i : nat)
    (b : B) :
  (mapM f l s).1 !! i = Some b ->
  exists a s', l !! i = Some a /\ b = (f a s').1.
Proof.
  revert s i. induction l as [|a l IH]; intros s i; [done|].
  simpl. unfold mbind, Rand_bind, mret, Rand_ret.
  destruct (f a s) as [b0 s1] eqn:Hf. specialize (IH s1).
  destruct (mapM f l s1) as [bs s2]. simpl in *.
  destruct i as [|i]; simpl.
  - intros [= <-]. exists a, s. by rewrite Hf.
  - apply IH.
Qed.

Lemma draw2_length (sample : nat -> Q) (rows cols s : nat) :
  length (draw2 sample rows cols s).1 = rows.
Proof. unfold draw2. by rewrite mapM_Rand_length, length_seq. Qed.

(** Python's [sub in s] on strings. *)
Fixpoint contains (sub s : string) : bool :=
  String.prefix sub s
  || match s with
     | EmptyString => false
     | String _ s' => contains sub s'
     end.

(** Parameter names of a child module, as [named_parameters] prefixes them. *)
Definition prefixed (name : string) (params : list string) : list string :=
  (fun p => name +:+ "." +:+ p) <$> params.

(** *** [nn.Linear], [nn.LayerNorm], [nn.Dropout] *)

Module Linear.
Record t := mk { weight : mat; bias : option vec }.

Section Linear.
Context `{Externals}.

(** [nn.Linear(in_features, out_features, bias)] *)
Definition __init__ (in_features out_features : nat) (with_bias : bool)
  : Rand t :=
  w ← draw2 default_init_sample out_features in_features;
  b ← (if with_bias then Some <$> draw default_init_sample out_features
       else mret None);
  mret (mk w b).

Definition forward (m : t) (x : vec) : vec :=
  Tensor.linear (weight m) (bias m) x.

Definition named_parameters (m : t) : list string :=
  "weight" :: match bias m with Some _ => ["bias"] | None => [] end.

Lemma init_length (i o : nat) (b : bool) (s : nat) :
  length (weight (__init__ i o b s).1) = o.
Proof.
  unfold __init__, mbind, Rand_bind.
  pose proof (draw2_length default_init_sample o i s) as Hlen.
  destruct (draw2 default_init_sample o i s) as [w s1].
  destruct b; simpl; unfold fmap, Rand_fmap, mret, Rand_ret;
    [destruct (draw default_init_sample o s1)|]; simpl in *; done.
Qed.

Lemma init_bias_length (i o s : nat) :
  exists b, bias (__init__ i o true s).1 = Some b
            /\ length b = o.
Proof.
  unfold __init__, mbind, Rand_bind, fmap, Rand_fmap, mret, Rand_ret.
  destruct (draw2 default_init_sample o i s) as [w s1]. simpl.
  eexists. split; [done|]. by rewrite length_fmap, length_seq.
Qed.

Lemma init_row_length (i o : nat) (b : bool) (s : nat) :
  Forall (fun row => length row = i)
    (weight (__init__ i o b s).1).
Proof.
  assert (Hrows : Forall (fun row : vec => length row = i)
                    (draw2 default_init_sample o i s).1).
  { apply Forall_forall. intros row [k Hk]%list_elem_of_lookup.
    apply mapM_Rand_lookup in Hk as (x & s' & _ & ->).
    simpl. by rewrite length_fmap, length_seq. }
  unfold __init__, mbind, Rand_bind.
  destruct (draw2 default_init_sample o i s) as [w s1].
  destruct b; simpl; unfold fmap, Rand_fmap, mret, Rand_ret;
    [destruct (draw default_init_sample o s1)|]; simpl in *; done.
Qed.

Lemma forward_length (l : t) (b x : vec) :
  bias l = Some b -> length b = length (weight l) ->
  length (forward l x) = length (weight l).
Proof.
  intros Hb Hlen. unfold forward, Tensor.linear, Tensor.add1.
  rewrite Hb, length_zip_with, length_fmap. lia.
Qed.

End Linear.
End Linear.

Module LayerNorm.
Record t := mk { eps : Q; weight : vec; bias : vec }.

Section LayerNorm.
Context `{Externals}.

(** [nn.LayerNorm(dim, eps=eps)] *)
Definition __init__ (eps : Q) (dim : nat) : t :=
  mk eps (Tensor.ones dim) (Tensor.zeros dim).

Definition forward (m : t) (x : vec) : vec :=
  layer_norm (eps m) (weight m) (bias m) x.

Definition named_parameters (m : t) : list string := ["weight"; "bias"].

End LayerNorm.
End LayerNorm.

Module Dropout.
Record t := mk { p : Q }.

Section Dropout.
Context `{Externals}.

Definition forward (training : bool) (m : t) (x : vec) : vec :=
  if training then dropout_mask (p m) x else x.

End Dropout.
End Dropout.

(** *** [flowvision.layers]: [DropPath], [Mlp], [PatchEmbed] *)

(** Modelled from the spec: [DropPath] of [flowvision.layers] is missing.
    The value of [Block.drop_path] is either [nn.Identity()] or
    [DropPath(p)]; the latter is the identity at inference and applies a
    per-sample random mask, scaled by the reciprocal of the keep
    probability, in training. *)
Module DropPath.
Inductive t := Identity | DropPath (drop_prob : Q).

Section DropPath.
Context `{Externals}.

Definition forward (training : bool) (m : t) (x : mat) : mat :=
  match m with
  | Identity => x
  | DropPath drop_prob => if training then drop_path_mask drop_prob x else x
  end.

End DropPath.
End DropPath.

(** Modelled from the spec: [Mlp] of [flowvision.layers] is missing.  The
    feed-forward branch expands to the hidden width, activates, projects
    back and applies dropout; [fc2] is its second linear layer. *)
Module Mlp.
Record t := mk { fc1 : Linear.t; fc2 : Linear.t; drop : Dropout.t }.

Section Mlp.
Context `{Externals}.

Definition __init__ (in_features hidden_features : nat) (drop : Q) : Rand t :=
  fc1 ← Linear.__init__ in_features hidden_features true;
  fc2 ← Linear.__init__ hidden_features in_features true;
  mret (mk fc1 fc2 (Dropout.mk drop)).

Definition forward (training : bool) (m : t) (x : vec) : vec :=
  Dropout.forward training (drop m)
    (Linear.forward (fc2 m) (gelu <$> Linear.forward (fc1 m) x)).

Definition named_parameters (m : t) : list string :=
  prefixed "fc1" (Linear.named_parameters (fc1 m))
  ++ prefixed "fc2" (Linear.named_parameters (fc2 m)).

End Mlp.
End Mlp.

(** Modelled from the spec: [PatchEmbed] of [flowvision.layers] is missing.
    It maps an image to a sequence of token embeddings and derives the grid
    shape and the number of patches from the image and patch sizes. *)
Module PatchEmbed.
Record t := mk { grid_size : nat * nat; num_patches : nat }.

Section PatchEmbed.
Context `{Externals}.

Definition __init__ (img_size patch_size in_chans embed_dim : nat) : t :=
  let g := (img_size / patch_size)%nat in mk (g, g) (g * g).

Definition forward (m : t) (x : tensor4) : tensor3 :=
  patch_embed_forward <$> x.

Definition named_parameters (m : t) : list string := patch_embed_parameters.

End PatchEmbed.
End PatchEmbed.

(** ** [Attention] (beit.py, lines 51-139) *)

Module Attention.

Record t := mk {
  num_heads : nat;
  scale : Q;
  qkv : Linear.t;
  q_bias : option vec;
  k_bias : option vec;
  v_bias : option vec;
  window_size : option (nat * nat);
  relative_position_bias_table : option mat;
  relative_position_index : option (list (list Z));
  attn_drop : Dropout.t;
  proj : Linear.t;
  proj_drop : Dropout.t;
}.

Section Attention.
Context `{Externals}.

Definition __init__ (dim num_heads : nat) (qkv_bias : bool)
    (attn_drop proj_drop : Q) (window_size : option (nat * nat))
    (attn_head_dim : option nat) : Rand t :=
  let head_dim := (dim / num_heads)%nat in
  let head_dim := default head_dim attn_head_dim in
  let all_head_dim := (head_dim * num_heads)%nat in
  let scale := pow_neg_half head_dim in
  qkv ← Linear.__init__ dim (all_head_dim * 3) false;
  let '(q_bias, k_bias, v_bias) :=
    if qkv_bias
    then (Some (Tensor.zeros all_head_dim), Some (Tensor.zeros all_head_dim),
          Some (Tensor.zeros all_head_dim))
    else (None, None, None) in
  let '(relative_position_bias_table, relative_position_index) :=
    match window_size with
    | Some ws =>
        (Some (replicate (Z.to_nat (RelPos.num_relative_distance ws))
                 (Tensor.zeros num_heads)),
         Some (RelPos.gen_relative_position_index ws))
    | None => (None, None)
    end in
  proj ← Linear.__init__ all_head_dim dim true;
  mret (mk num_heads scale qkv q_bias k_bias v_bias window_size
          relative_position_bias_table relative_position_index
          (Dropout.mk attn_drop) proj (Dropout.mk proj_drop)).

(** [t.permute(2, 0, 1)] for [t] of shape [(a, b, c)]. *)
Definition permute_2_0_1 (c : nat) (t : tensor3) : tensor3 :=
  (fun h => fmap (M := list) (fmap (M := list)
              (fun v : vec => default 0%Q (v !! h))) t) <$> seq 0 c.

Definition _get_rel_pos_bias (m : t) : tensor4 :=
  let table := default [] (relative_position_bias_table m) in
  let index := default [] (relative_position_index m) in
  let ws := default (0, 0)%nat (window_size m) in
  let gathered :=
    (fun z => default [] (table !! Z.to_nat z)) <$> concat index in
  let relative_position_bias :=
    view2 (ws.1 * ws.2 + 1) (ws.1 * ws.2 + 1) gathered in
  let relative_position_bias :=
    permute_2_0_1 (length (default [] (table !! 0%nat)))
      relative_position_bias in
  [relative_position_bias].

(** The bias handed to [F.linear] (lines 116-120). *)
Definition qkv_bias (m : t) : option vec :=
  match q_bias m with
  | Some q => Some (q ++ default [] (k_bias m) ++ default [] (v_bias m))
  | None => None
  end.

(** Slice [s] of [qkv.reshape(B, N, 3, heads, -1).permute(2, 0, 3, 1, 4)]. *)
Definition unbind_qkv (m : t) (s : nat) (qkv_out : tensor3) : tensor4 :=
  let hd := (length (Linear.weight (qkv m)) / (3 * num_heads m))%nat in
  (fun xb : mat =>
     (fun h =>
        (fun xn : vec => take hd (drop ((s * num_heads m + h) * hd) xn))
          <$> xb) <$> seq 0 (num_heads m)) <$> qkv_out.

(** Lines 121-126: the scaled dot products [q @ k.transpose(-2, -1)]. *)
Definition project (m : t) (x : tensor3) : tensor3 :=
  fmap (M := list) (fmap (M := list)
    (Tensor.linear (Linear.weight (qkv m)) (qkv_bias m))) x.

Definition scores (m : t) (x : tensor3) : tensor4 :=
  let qkv_out := project m x in
  let q := unbind_qkv m 0 qkv_out in
  let k := unbind_qkv m 1 qkv_out in
  let q := fmap (M := list) (fmap (M := list) (fmap (M := list)
             (fun v => Tensor.muls v (scale m)))) q in
  zip_with (zip_with Tensor.matmul_nt) q k.

(** Lines 128-131: the two position biases. *)
Definition add_biases (m : t) (shared_rel_pos_bias : option tensor3)
    (attn : tensor4) : tensor4 :=
  let attn :=
    match relative_position_bias_table m with
    | Some _ => Tensor.add4_lead1 attn (_get_rel_pos_bias m)
    | None => attn
    end in
  match shared_rel_pos_bias with
  | Some b => Tensor.add_bcast4 attn b
  | None => attn
  end.

(** Lines 133-139: softmax, dropout, [attn @ v], output projection. *)
Definition attend (training : bool) (m : t) (x : tensor3) (attn : tensor4)
  : tensor3 :=
  let hd := (length (Linear.weight (qkv m)) / (3 * num_heads m))%nat in
  let v := unbind_qkv m 2 (project m x) in
  let attn := fmap (M := list) (fmap (M := list) (fmap (M := list) softmax))
                attn in
  let attn := fmap (M := list) (fmap (M := list) (fmap (M := list)
                (Dropout.forward training (attn_drop m)))) attn in
  let x' := zip_with (zip_with (Tensor.matmul hd)) attn v in
  let x' := zip_with (fun (xb : mat) o => (fun r => concat r)
                        <$> transpose (length xb) o) x x' in
  let x' := fmap (M := list) (fmap (M := list) (Linear.forward (proj m)))
              x' in
  fmap (M := list) (fmap (M := list)
    (Dropout.forward training (proj_drop m))) x'.

Definition forward (training : bool) (m : t) (x : tensor3)
    (shared_rel_pos_bias : option tensor3) : tensor3 :=
  let attn := scores m x in
  let attn := add_biases m shared_rel_pos_bias attn in
  attend training m x attn.

Definition named_parameters (m : t) : list string :=
  match q_bias m with Some _ => ["q_bias"] | None => [] end
  ++ match v_bias m with Some _ => ["v_bias"] | None => [] end
  ++ match relative_position_bias_table m with
     | Some _ => ["relative_position_bias_table"]
     | None => []
     end
  ++ prefixed "qkv" (Linear.named_parameters (qkv m))
  ++ prefixed "proj" (Linear.named_parameters (proj m)).

(** The module with its three projection biases replaced. *)
Definition with_qkv_bias (m : t) (q k v : option vec) : t :=
  mk (num_heads m) (scale m) (qkv m) q k v (window_size m)
    (relative_position_bias_table m) (relative_position_index m)
    (attn_drop m) (proj m) (proj_drop m).

Lemma Qplus_0_r_eq (x : Q) : (x + 0)%Q = x.
Proof.
  destruct x as [n d]. unfold Qplus. simpl.
  by rewrite Z.mul_1_r, Z.add_0_r, Pos.mul_1_r.
Qed.

Lemma add1_zeros (y : vec) (n : nat) :
  length y <= n -> Tensor.add1 y (Tensor.zeros n) = y.
Proof.
  intros Hn. unfold Tensor.add1, Tensor.zeros.
  rewrite zip_with_replicate_r by done.
  rewrite <- (list_fmap_id y) at 2. apply list_fmap_ext.
  intros _ x _. apply Qplus_0_r_eq.
Qed.

Lemma linear_zero_bias (weight : mat) (a : nat) (x : vec) :
  length weight = (3 * a)%nat ->
  Tensor.linear weight
    (Some (Tensor.zeros a ++ Tensor.zeros a ++ Tensor.zeros a)) x
  = Tensor.linear weight None x.
Proof.
  intros Hw. unfold Tensor.linear, Tensor.zeros.
  rewrite <- !replicate_add. apply add1_zeros.
  rewrite length_fmap. lia.
Qed.

Lemma project_zero_bias (m : t) (a : nat) (x : tensor3) :
  q_bias m = None ->
  length (Linear.weight (qkv m)) = (3 * a)%nat ->
  project (with_qkv_bias m (Some (Tensor.zeros a)) (Some (Tensor.zeros a))
             (Some (Tensor.zeros a))) x
  = project m x.
Proof.
  intros Hq Hw. unfold project, qkv_bias. rewrite Hq. simpl.
  apply list_fmap_ext. intros _ xb _.
  apply list_fmap_ext. intros _ xn _.
  by apply linear_zero_bias.
Qed.

(** C3: in inference mode, a module without projection biases
    ([qkv_bias=False]: [q_bias] is [None]) and the same module with the
    biases of [qkv_bias=True] all zero ([q_bias], [v_bias] and the fixed
    [k_bias] equal to [zeros(all_head_dim)], the projection having
    [3 * all_head_dim] output features) compute the same forward output,
    for every input, every shared bias and all weights. *)
Theorem forward_qkv_bias_zero (m : t) (all_head_dim : nat) (x : tensor3)
    (shared_rel_pos_bias : option tensor3) :
  q_bias m = None ->
  length (Linear.weight (qkv m)) = (3 * all_head_dim)%nat ->
  forward false m x shared_rel_pos_bias
  = forward false
      (with_qkv_bias m (Some (Tensor.zeros all_head_dim))
         (Some (Tensor.zeros all_head_dim))
         (Some (Tensor.zeros all_head_dim)))
      x shared_rel_pos_bias.
Proof.
  intros Hq Hw. unfold forward, scores, attend.
  rewrite (project_zero_bias m all_head_dim x Hq Hw). reflexivity.
Qed.

(** The two constructions differ only in the projection biases. *)
Lemma __init___qkv_bias (dim heads : nat) (attn_drop proj_drop : Q)
    (ws : option (nat * nat)) (attn_head_dim : option nat) (s : nat) :
  let a := (default (dim / heads) attn_head_dim * heads)%nat in
  let m := (__init__ dim heads false attn_drop proj_drop ws attn_head_dim
              s).1 in
  q_bias m = None
  /\ length (Linear.weight (qkv m)) = (3 * a)%nat
  /\ (__init__ dim heads true attn_drop proj_drop ws attn_head_dim s).1
     = with_qkv_bias m (Some (Tensor.zeros a)) (Some (Tensor.zeros a))
         (Some (Tensor.zeros a)).
Proof.
  intros a m. subst m. unfold __init__. fold a.
  unfold mbind, Rand_bind, mret, Rand_ret.
  pose proof (Linear.init_length dim (a * 3) false s) as Hlen.
  destruct (Linear.__init__ dim (a * 3) false s) as [w s1].
  destruct ws as [ws|]; destruct (Linear.__init__ a dim true s1) as [p s2];
    simpl in *; (split; [done|]); (split; [lia|done]).
Qed.

(** X4: The gathered bias of [_get_rel_pos_bias]: head [hd] of position
    [(i, j)] is column [hd] of the table row that the index names. *)
Lemma _get_rel_pos_bias_entry (m : t) (table : mat) (index : list (list Z))
    (h w hd i j : nat) (z : Z) :
  relative_position_bias_table m = Some table ->
  relative_position_index m = Some index ->
  window_size m = Some (h, w) ->
  Forall (fun r => length r = (h * w + 1)%nat) index ->
  (hd < length (default [] (table !! 0%nat)))%nat ->
  (i < h * w + 1)%nat ->
  RelPos.entry index i j = Some z ->
  Tensor.entry4 (_get_rel_pos_bias m) 0 hd i j
  = Some (default 0%Q (default [] (table !! Z.to_nat z) !! hd)).
Proof.
  intros Ht Hx Hw Hshape Hhd Hi Hz.
  assert (Hj : (j < h * w + 1)%nat).
  { unfold RelPos.entry in Hz. destruct (index !! i) as [r|] eqn:Hr; [|done].
    simpl in Hz. apply lookup_lt_Some in Hz.
    pose proof (Forall_lookup_1 _ _ _ _ Hshape Hr) as Hlen. simpl in Hlen.
    lia. }
  unfold _get_rel_pos_bias. rewrite Ht, Hx, Hw. cbn [default fst snd].
  unfold Tensor.entry4, Tensor.entry3, permute_2_0_1.
  cbn [lookup list_lookup mbind option_bind].
  rewrite list_lookup_fmap, lookup_seq_lt by done.
  cbn [fmap option_fmap option_map mbind option_bind].
  rewrite list_lookup_fmap.
  pose proof (view2_entry (h * w + 1) (h * w + 1)
    ((fun z => default [] (table !! Z.to_nat z)) <$> concat index) i j Hi Hj)
    as Hv.
  destruct (view2 _ _ _ !! i) as [row|] eqn:Hrow; simpl in Hv |- *.
  - rewrite list_lookup_fmap, Hv, list_lookup_fmap.
    rewrite (lookup_concat_uniform _ _ _ _ Hshape Hj).
    unfold RelPos.entry in Hz. rewrite Hz. reflexivity.
  - rewrite list_lookup_fmap, (lookup_concat_uniform _ _ _ _ Hshape Hj) in Hv.
    unfold RelPos.entry in Hz. rewrite Hz in Hv. done.
Qed.

(** Lines 128-131 at one position of the score tensor. *)
Lemma add_biases_entry (m : t) (shared : tensor3) (attn : tensor4)
    (b h i j : nat) (a r c : Q) :
  is_Some (relative_position_bias_table m) ->
  Tensor.entry4 attn b h i j = Some a ->
  Tensor.entry4 (_get_rel_pos_bias m) 0 h i j = Some r ->
  Tensor.entry3 shared h i j = Some c ->
  Tensor.entry4 (add_biases m (Some shared) attn) b h i j
  = Some (a + r + c)%Q.
Proof.
  intros [tb Htb] Ha Hr Hc. unfold add_biases. rewrite Htb.
  unfold _get_rel_pos_bias in *.
  set (own := permute_2_0_1 _ _) in *.
  unfold Tensor.add4_lead1, Tensor.add_bcast4, Tensor.entry4 in *.
  rewrite <- list_fmap_compose, list_lookup_fmap.
  simpl in Hr.
  destruct (attn !! b) as [ab|]; [simpl in *|done].
  unfold Tensor.entry3, Tensor.add3, Tensor.add2, Tensor.add1 in *.
  rewrite !lookup_zip_with.
  destruct (ab !! h) as [abh|]; [simpl in *|done].
  destruct (own !! h) as [oh|]; [simpl in *|done].
  destruct (shared !! h) as [sh|]; [simpl in *|done].
  rewrite !lookup_zip_with.
  destruct (abh !! i) as [abhi|]; [simpl in *|done].
  destruct (oh !! i) as [ohi|]; [simpl in *|done].
  destruct (sh !! i) as [shi|]; [simpl in *|done].
  rewrite !lookup_zip_with. rewrite Ha, Hr, Hc. reflexivity.
Qed.

(** C4: when the module owns a relative position bias table and the
    caller also passes a shared bias, the scores that enter the softmax
    are the dot products plus the module's own gathered bias plus the
    shared bias: as tensors, at every position, and inside [forward]. *)
Theorem add_biases_cumulative (m : t) (shared : tensor3) (x : tensor3)
    (training : bool) :
  is_Some (relative_position_bias_table m) ->
  add_biases m (Some shared) (scores m x)
  = Tensor.add_bcast4
      (Tensor.add4_lead1 (scores m x) (_get_rel_pos_bias m)) shared
  /\ (forall b h i j a r c,
        Tensor.entry4 (scores m x) b h i j = Some a ->
        Tensor.entry4 (_get_rel_pos_bias m) 0 h i j = Some r ->
        Tensor.entry3 shared h i j = Some c ->
        Tensor.entry4 (add_biases m (Some shared) (scores m x)) b h i j
        = Some (a + r + c)%Q)
  /\ forward training m x (Some shared)
     = attend training m x
         (Tensor.add_bcast4
            (Tensor.add4_lead1 (scores m x) (_get_rel_pos_bias m)) shared).
Proof.
  intros Hsome.
  assert (Heq : add_biases m (Some shared) (scores m x)
    = Tensor.add_bcast4
        (Tensor.add4_lead1 (scores m x) (_get_rel_pos_bias m)) shared).
  { unfold add_biases. destruct Hsome as [tb ->]. reflexivity. }
  split; [exact Heq|]. split.
  - intros b h i j a r c. by apply add_biases_entry.
  - unfold forward. by rewrite Heq.
Qed.

(** *** Further properties of the module *)

(** The fields the constructor sets. *)
Lemma __init___fields (dim heads : nat) (qb : bool) (attn_drop proj_drop : Q)
    (ws : option (nat * nat)) (ahd : option nat) (s : nat) :
  let a := (default (dim / heads) ahd * heads)%nat in
  let m := (__init__ dim heads qb attn_drop proj_drop ws ahd s).1 in
  exists s1,
    num_heads m = heads
    /\ qkv m = (Linear.__init__ dim (a * 3) false s).1
    /\ proj m = (Linear.__init__ a dim true s1).1
    /\ q_bias m = (if qb then Some (Tensor.zeros a) else None)
    /\ k_bias m = (if qb then Some (Tensor.zeros a) else None)
    /\ v_bias m = (if qb then Some (Tensor.zeros a) else None)
    /\ window_size m = ws
    /\ relative_position_bias_table m
       = (fun ws => replicate (Z.to_nat (RelPos.num_relative_distance ws))
                      (Tensor.zeros heads)) <$> ws
    /\ relative_position_index m = RelPos.gen_relative_position_index <$> ws.
Proof.
  intros a m. subst m. unfold __init__. fold a.
  unfold mbind, Rand_bind, mret, Rand_ret.
  destruct (Linear.__init__ dim (a * 3) false s) as [w s1]. exists s1.
  destruct qb, ws as [ws|]; destruct (Linear.__init__ a dim true s1);
    simpl; done.
Qed.

(** X5: A constructed module never gathers out of range: for a window of
    positive height and width, every entry of its index names a row of its
    bias table, and that row has one column per head. *)
Theorem init_gather_in_range (dim heads : nat) (qb : bool)
    (attn_drop proj_drop : Q) (h w : nat) (ahd : option nat) (s i j : nat)
    (z : Z) :
  (0 < h)%nat -> (0 < w)%nat ->
  let m := (__init__ dim heads qb attn_drop proj_drop (Some (h, w)) ahd
              s).1 in
  forall table index,
    relative_position_bias_table m = Some table ->
    relative_position_index m = Some index ->
    RelPos.entry index i j = Some z ->
    (0 <= z)%Z
    /\ exists row, table !! Z.to_nat z = Some row /\ length row = heads.
Proof.
  intros Hh Hw m table index Ht Hx Hz.
  destruct (__init___fields dim heads qb attn_drop proj_drop (Some (h, w))
              ahd s) as (s1 & _ & _ & _ & _ & _ & _ & _ & Ht' & Hx').
  fold m in Ht', Hx'. rewrite Ht' in Ht. rewrite Hx' in Hx. simpl in Ht, Hx.
  injection Ht as <-. injection Hx as <-.
  destruct (RelPos.gen_relative_position_index_range_aux h w i j z Hh Hw Hz)
    as [Hlo Hhi].
  split; [done|]. exists (Tensor.zeros heads). split.
  - apply lookup_replicate_2. lia.
  - apply length_replicate.
Qed.

Lemma add2_zeros (t : mat) (b c : nat) :
  (length t <= b)%nat -> Forall (fun r => (length r <= c)%nat) t ->
  Tensor.add2 t (replicate b (Tensor.zeros c)) = t.
Proof.
  intros Hb Hc. unfold Tensor.add2.
  rewrite zip_with_replicate_r by done.
  rewrite <- (list_fmap_id t) at 2. apply Forall_fmap_ext.
  eapply Forall_impl; [exact Hc|]. intros r Hr. by apply add1_zeros.
Qed.

Lemma add3_zeros (t : tensor3) (a b c : nat) :
  (length t <= a)%nat ->
  Forall (fun t2 : mat => (length t2 <= b)%nat
                          /\ Forall (fun r => (length r <= c)%nat) t2) t ->
  Tensor.add3 t (replicate a (replicate b (Tensor.zeros c))) = t.
Proof.
  intros Ha Hbc. unfold Tensor.add3.
  rewrite zip_with_replicate_r by done.
  rewrite <- (list_fmap_id t) at 2. apply Forall_fmap_ext.
  eapply Forall_impl; [exact Hbc|]. intros t2 [Hb Hc]. by apply add2_zeros.
Qed.

(** The shape of the score tensor: one [N x N] matrix per batch element
    and head, [N] being the number of tokens of that batch element. *)
Lemma scores_shape (m : t) (x : tensor3) :
  Forall2 (fun (xb : mat) (sb : tensor3) =>
             length sb = num_heads m
             /\ Forall (fun a : mat =>
                          length a = length xb
                          /\ Forall (fun r => length r = length xb) a) sb)
    x (scores m x).
Proof.
  unfold scores, project, unbind_qkv.
  rewrite <- !list_fmap_compose, zip_with_fmap_l, zip_with_fmap_r,
    zip_with_diag.
  apply Forall2_fmap_r, Forall_Forall2_diag, Forall_forall.
  intros xb _. unfold compose.
  rewrite <- !list_fmap_compose, zip_with_fmap_l, zip_with_fmap_r,
    zip_with_diag.
  split; [by rewrite length_fmap, length_seq|].
  apply Forall_fmap, Forall_forall. intros hd _. unfold compose.
  unfold Tensor.matmul_nt. rewrite !length_fmap. split; [done|].
  apply Forall_fmap, Forall_forall. intros r _. simpl.
  by rewrite !length_fmap.
Qed.

Lemma zero_table_bias (m : t) (heads h w : nat) :
  (0 < h)%nat -> (0 < w)%nat ->
  window_size m = Some (h, w) ->
  relative_position_bias_table m
  = Some (replicate (Z.to_nat (RelPos.num_relative_distance (h, w)))
            (Tensor.zeros heads)) ->
  relative_position_index m
  = Some (RelPos.gen_relative_position_index (h, w)) ->
  _get_rel_pos_bias m
  = [replicate heads
       (replicate (h * w + 1) (Tensor.zeros (h * w + 1)))].
Proof.
  intros Hh Hw Hws Ht Hx.
  unfold _get_rel_pos_bias. rewrite Hws, Ht, Hx. cbn [fmap option_fmap
    option_map default from_option fst snd]. unfold id.
  set (k := Z.to_nat (RelPos.num_relative_distance (h, w))).
  set (n := (h * w + 1)%nat).
  assert (Hk : (0 < k)%nat).
  { subst k. unfold RelPos.num_relative_distance. cbn [fst snd]. nia. }
  destruct (RelPos.gen_relative_position_index_shape h w Hw)
    as [Hlen Hrows]. fold n in Hlen, Hrows.
  rewrite (fmap_const_replicate _ _ (Tensor.zeros heads)).
  2:{ apply Forall_concat, Forall_lookup. intros i row Hi.
      apply Forall_lookup. intros j z Hj.
      assert (Hent : RelPos.entry
                (RelPos.gen_relative_position_index (h, w)) i j = Some z).
      { unfold RelPos.entry. rewrite Hi. exact Hj. }
      pose proof (RelPos.gen_relative_position_index_range_aux h w i j z
                    Hh Hw Hent) as Hr.
      rewrite lookup_replicate_2 by (subst k; lia). done. }
  rewrite (concat_length_uniform n) by done. rewrite Hlen.
  rewrite view2_replicate, lookup_replicate_2 by done.
  cbn [from_option]. unfold Tensor.zeros. rewrite length_replicate.
  f_equal. unfold permute_2_0_1. apply fmap_seq_const. intros hd Hhd.
  rewrite !fmap_replicate. by rewrite lookup_replicate_2.
Qed.

Lemma init_rel_pos_bias_zero (dim heads : nat) (qb : bool)
    (attn_drop proj_drop : Q) (h w : nat) (ahd : option nat) (s : nat) :
  (0 < h)%nat -> (0 < w)%nat ->
  _get_rel_pos_bias
    (__init__ dim heads qb attn_drop proj_drop (Some (h, w)) ahd s).1
  = [replicate heads
       (replicate (h * w + 1) (Tensor.zeros (h * w + 1)))].
Proof.
  intros Hh Hw.
  destruct (__init___fields dim heads qb attn_drop proj_drop (Some (h, w))
              ahd s) as (s1 & _ & _ & _ & _ & _ & _ & Hws & Ht & Hx).
  by apply zero_table_bias.
Qed.

Lemma init_add_biases_neutral (dim heads : nat) (qb : bool)
    (attn_drop proj_drop : Q) (h w : nat) (ahd : option nat) (s : nat)
    (x : tensor3) :
  (0 < h)%nat -> (0 < w)%nat ->
  Forall (fun xb : mat => length xb = (h * w + 1)%nat) x ->
  let m := (__init__ dim heads qb attn_drop proj_drop (Some (h, w)) ahd
              s).1 in
  add_biases m None (scores m x) = scores m x.
Proof.
  intros Hh Hw Hx m. unfold add_biases.
  destruct (__init___fields dim heads qb attn_drop proj_drop (Some (h, w))
              ahd s) as (s1 & Hnh & _ & _ & _ & _ & _ & _ & Ht & _).
  fold m in Ht, Hnh. rewrite Ht. cbn [fmap option_fmap option_map].
  subst m. rewrite init_rel_pos_bias_zero by done.
  unfold Tensor.add4_lead1, Tensor.add_bcast4.
  set (m := (__init__ _ _ _ _ _ _ _ _).1) in *.
  rewrite <- (list_fmap_id (scores m x)) at 2. apply Forall_fmap_ext.
  pose proof (scores_shape m x) as Hs.
  apply Forall2_Forall_r with (Q := fun sb : tensor3 =>
    length sb = heads
    /\ Forall (fun a : mat => length a = (h * w + 1)%nat
                /\ Forall (fun r => length r = (h * w + 1)%nat) a) sb)
    in Hs.
  - eapply Forall_impl; [exact Hs|]. intros sb [Hl Hsb].
    unfold id. apply add3_zeros; [lia|].
    eapply Forall_impl; [exact Hsb|]. intros a [Ha Hr]. split; [lia|].
    eapply Forall_impl; [exact Hr|]. intros r ->. done.
  - eapply Forall_impl; [exact Hx|]. intros xb Hxb sb [Hl Hsb].
    rewrite Hxb in Hsb. by rewrite <- Hnh.
Qed.

(** X6: A constructed module starts with a neutral position bias: its gathered
    bias is the zero tensor, so on inputs with one token per index row the
    scores that enter the softmax are the scaled dot products alone. *)
Theorem init_rel_pos_bias_neutral (dim heads : nat) (qb : bool)
    (attn_drop proj_drop : Q) (h w : nat) (ahd : option nat) (s : nat)
    (training : bool) (x : tensor3) :
  (0 < h)%nat -> (0 < w)%nat ->
  Forall (fun xb : mat => length xb = (h * w + 1)%nat) x ->
  let m := (__init__ dim heads qb attn_drop proj_drop (Some (h, w)) ahd
              s).1 in
  _get_rel_pos_bias m
  = [replicate heads (replicate (h * w + 1) (Tensor.zeros (h * w + 1)))]
  /\ add_biases m None (scores m x) = scores m x
  /\ forward training m x None = attend training m x (scores m x).
Proof.
  intros Hh Hw Hx m.
  pose proof (init_add_biases_neutral dim heads qb attn_drop proj_drop h w
                ahd s x Hh Hw Hx) as Heq. fold m in Heq.
  split; [by apply init_rel_pos_bias_zero|].
  split; [exact Heq|]. unfold forward. by rewrite Heq.
Qed.

Lemma slice_add_zero (y q v : vec) (a hd nh h : nat) :
  length q = a -> a = (nh * hd)%nat -> (h < nh)%nat ->
  take hd (drop ((1 * nh + h) * hd)
             (Tensor.add1 y (q ++ Tensor.zeros a ++ v)))
  = take hd (drop ((1 * nh + h) * hd) y).
Proof.
  intros Hq Ha Hh. unfold Tensor.add1.
  rewrite zip_with_drop, zip_with_take.
  replace ((1 * nh + h) * hd)%nat with (length q + h * hd)%nat by lia.
  rewrite drop_app_add.
  assert (h * hd + hd <= a)%nat by nia.
  unfold Tensor.zeros.
  rewrite drop_app_le by (rewrite length_replicate; lia).
  rewrite take_app_le
    by (rewrite length_drop, length_replicate; lia).
  rewrite drop_replicate, take_replicate.
  replace (hd `min` (a - h * hd))%nat with hd by lia.
  apply add1_zeros. rewrite length_take. lia.
Qed.

(** X7: The learned projection biases never reach the keys: with [k_bias]
    the zero buffer the constructor registers, the keys of a module with
    biases [q_bias] and [v_bias] are the keys of the same module without
    any bias, whatever the two learned vectors hold. *)
Theorem keys_ignore_qkv_bias (m : t) (q v : vec) (a hd : nat) (x : tensor3) :
  q_bias m = Some q -> k_bias m = Some (Tensor.zeros a) ->
  v_bias m = Some v -> length q = a ->
  a = (num_heads m * hd)%nat ->
  length (Linear.weight (qkv m)) = (3 * a)%nat ->
  unbind_qkv m 1 (project m x)
  = unbind_qkv (with_qkv_bias m None None None) 1
      (project (with_qkv_bias m None None None) x).
Proof.
  intros Hq Hk Hv Hlq Ha Hw.
  unfold unbind_qkv, project, qkv_bias. rewrite Hq, Hk, Hv.
  cbn [default from_option with_qkv_bias q_bias qkv num_heads]. unfold id.
  set (nh := num_heads m) in *. rewrite Hw.
  rewrite <- !list_fmap_compose. apply list_fmap_ext. intros _ xb _.
  unfold compose. apply list_fmap_ext. intros h ? [-> Hh]%lookup_seq.
  rewrite Nat.add_0_l.
  rewrite <- !list_fmap_compose. apply list_fmap_ext. intros _ xn _.
  unfold compose, Tensor.linear. cbv beta zeta iota.
  assert (Hhd : (3 * a / (3 * nh))%nat = hd).
  { rewrite Ha. replace (3 * (nh * hd))%nat with (hd * (3 * nh))%nat by lia.
    apply Nat.div_mul. lia. }
  rewrite Hhd. by apply slice_add_zero.
Qed.

(** The part of [forward] after the biases keeps the shape of its input:
    as long as every score matrix has one row per token, the output has
    the batch size and token count of [x], and in inference mode every
    output row has as many entries as the output projection has rows. *)
Lemma attend_shape (m : t) (x : tensor3) (attn : tensor4) (b : vec) :
  Linear.bias (proj m) = Some b ->
  length b = length (Linear.weight (proj m)) ->
  Forall2 (fun (xb : mat) (ab : tensor3) =>
             length ab = num_heads m
             /\ Forall (fun a : mat => length a = length xb) ab) x attn ->
  Forall2 (fun (xb ob : mat) =>
             length ob = length xb
             /\ Forall (fun r => length r = length (Linear.weight (proj m)))
                  ob)
    x (attend false m x attn).
Proof.
  intros Hb Hlen Hshape. unfold attend.
  set (hd := (length (Linear.weight (qkv m)) / (3 * num_heads m))%nat).
  apply Forall2_same_length_lookup_2.
  - rewrite !length_fmap, !length_zip_with, !length_fmap.
    unfold unbind_qkv, project. rewrite !length_fmap.
    apply Forall2_length in Hshape. lia.
  - intros i xb ob Hxb. rewrite !list_lookup_fmap, lookup_zip_with, Hxb.
    simpl. rewrite lookup_zip_with, !list_lookup_fmap.
    destruct (attn !! i) as [ab|] eqn:Hab; [simpl|done].
    unfold unbind_qkv, project.
    rewrite !list_lookup_fmap, Hxb. simpl. intros [= <-].
    pose proof (Forall2_lookup_lr _ _ _ _ _ _ Hshape Hxb Hab)
      as [Hnh Hrows].
    rewrite !length_fmap.
    match goal with
    | |- context [transpose (length xb) ?o] =>
        assert (Ho : Forall (fun r => length r = length xb) o)
    end.
    { apply Forall_lookup. intros j r.
      rewrite lookup_zip_with, !list_lookup_fmap.
      destruct (ab !! j) as [a|] eqn:Ha; [simpl|done].
      destruct (seq 0 (num_heads m) !! j); [simpl|done].
      intros [= <-]. unfold Tensor.matmul, Tensor.matmul_nt.
      rewrite !length_fmap.
      exact (Forall_lookup_1 _ _ _ _ Hrows Ha). }
    split; [by apply transpose_length|].
    apply Forall_fmap, Forall_fmap, Forall_fmap, Forall_forall.
    intros r _. simpl. by apply (Linear.forward_length _ b).
Qed.

(** X8: Shape contract of [forward] for a constructed module, in inference
    mode and without a shared bias: an input of shape [(B, N, C)] gives an
    output of shape [(B, N, dim)].  With a window [(h, w)] the sequences
    must have [h * w + 1] tokens; without one any [N] is accepted. *)
Theorem forward_shape (dim heads : nat) (qb : bool) (attn_drop proj_drop : Q)
    (ws : option (nat * nat)) (ahd : option nat) (s : nat) (x : tensor3) :
  match ws with
  | Some (h, w) =>
      (0 < h)%nat /\ (0 < w)%nat
      /\ Forall (fun xb : mat => length xb = (h * w + 1)%nat) x
  | None => True
  end ->
  let m := (__init__ dim heads qb attn_drop proj_drop ws ahd s).1 in
  Forall2 (fun (xb ob : mat) =>
             length ob = length xb /\ Forall (fun r => length r = dim) ob)
    x (forward false m x None).
Proof.
  intros Hws m.
  destruct (__init___fields dim heads qb attn_drop proj_drop ws ahd s)
    as (s1 & Hnh & _ & Hproj & _ & _ & _ & _ & Ht & _). fold m in Hnh, Hproj, Ht.
  set (a := (default (dim / heads) ahd * heads)%nat) in *.
  destruct (Linear.init_bias_length a dim s1) as (b & Hb & Hblen).
  pose proof (Linear.init_length a dim true s1) as Hwlen.
  rewrite <- Hproj in Hb, Hwlen.
  assert (Hbias : add_biases m None (scores m x) = scores m x).
  { destruct ws as [[h w]|].
    - destruct Hws as (Hh & Hw & Hx).
      by apply (init_add_biases_neutral dim heads qb attn_drop proj_drop
                  h w ahd s x).
    - unfold add_biases. by rewrite Ht. }
  unfold forward. rewrite Hbias.
  eapply Forall2_impl.
  - apply (attend_shape m x (scores m x) b Hb); [lia|].
    eapply Forall2_impl; [apply scores_shape|].
    intros xb sb [Hl Hsb]. split; [done|].
    eapply Forall_impl; [exact Hsb|]. by intros a0 [Ha _].
  - intros xb ob [Hl Hr]. split; [done|]. by rewrite <- Hwlen.
Qed.

(** [forward] on a batch of one sample, as a function of the sample. *)
Definition forward_sample (training : bool) (m : t) (xb : mat)
    (shared : option tensor3) : mat :=
  default [] (head (forward training m [xb] shared)).

Lemma forward_per_sample (training : bool) (m : t) (x : tensor3)
    (shared : option tensor3) :
  forward training m x shared
  = (fun xb => forward_sample training m xb shared) <$> x.
Proof.
  induction x as [|xb x IH]; [done|].
  rewrite fmap_cons, <- IH. unfold forward_sample.
  unfold forward, attend, add_biases, scores, project, unbind_qkv,
    _get_rel_pos_bias, Tensor.add4_lead1, Tensor.add_bcast4.
  destruct (relative_position_bias_table m), shared; reflexivity.
Qed.

(** *** Shapes in the presence of position biases *)

(** [heads] score matrices of [n] rows each. *)
Definition head_rows (heads n : nat) (ab : tensor3) : Prop :=
  length ab = heads /\ Forall (fun a : mat => length a = n) ab.

Lemma add3_head_rows (heads n : nat) (ab b3 : tensor3) :
  head_rows heads n ab ->
  (heads <= length b3)%nat ->
  Forall (fun bh : mat => (n <= length bh)%nat) b3 ->
  head_rows heads n (Tensor.add3 ab b3).
Proof.
  intros [Hl Hrows] Hb Hbr. unfold Tensor.add3. split.
  - rewrite length_zip_with. lia.
  - apply Forall_lookup. intros i r. rewrite lookup_zip_with.
    destruct (ab !! i) as [a|] eqn:Ha; [simpl|done].
    destruct (b3 !! i) as [bh|] eqn:Hbh; [simpl|done]. intros [= <-].
    pose proof (Forall_lookup_1 _ _ _ _ Hrows Ha) as Hna.
    pose proof (Forall_lookup_1 _ _ _ _ Hbr Hbh) as Hnb. simpl in *.
    unfold Tensor.add2. rewrite length_zip_with. lia.
Qed.

Lemma _get_rel_pos_bias_shape (m : t) (tb : mat) (h w : nat) :
  window_size m = Some (h, w) ->
  relative_position_bias_table m = Some tb ->
  exists b3,
    _get_rel_pos_bias m = [b3]
    /\ length b3 = length (default [] (tb !! 0%nat))
    /\ Forall (fun bh : mat => length bh = (h * w + 1)%nat) b3.
Proof.
  intros Hws Ht. unfold _get_rel_pos_bias. rewrite Hws, Ht.
  eexists. split; [done|]. unfold permute_2_0_1. split.
  - by rewrite length_fmap, length_seq.
  - apply Forall_fmap, Forall_forall. intros hd _. simpl.
    unfold view2. by rewrite !length_fmap, length_seq.
Qed.

(** The position biases a module and a caller may add without changing
    the shape of the scores of the batch [x]: an own table needs one
    column per head and a window with enough cells for the tokens; a
    shared bias needs one matrix per head with a row per token. *)
Definition biases_fit (m : t) (shared : option tensor3) (x : tensor3)
  : Prop :=
  match relative_position_bias_table m with
  | Some tb =>
      exists h w,
        window_size m = Some (h, w)
        /\ (num_heads m <= length (default [] (tb !! 0%nat)))%nat
        /\ Forall (fun xb : mat => (length xb <= h * w + 1)%nat) x
  | None => True
  end
  /\ match shared with
     | Some sh =>
         (num_heads m <= length sh)%nat
         /\ Forall (fun xb : mat =>
                      Forall (fun bh : mat => (length xb <= length bh)%nat)
                        sh) x
     | None => True
     end.

Lemma add_biases_shape (m : t) (shared : option tensor3) (x : tensor3) :
  biases_fit m shared x ->
  Forall2 (fun (xb : mat) (ab : tensor3) =>
             head_rows (num_heads m) (length xb) ab)
    x (add_biases m shared (scores m x)).
Proof.
  intros [Hown Hshared].
  assert (Hs : Forall2 (fun (xb : mat) (ab : tensor3) =>
                          head_rows (num_heads m) (length xb) ab)
                 x (scores m x)).
  { eapply Forall2_impl; [apply scores_shape|].
    intros xb sb [Hl Hsb]. split; [done|].
    eapply Forall_impl; [exact Hsb|]. by intros a0 [Ha _]. }
  unfold add_biases.
  assert (Hs1 : Forall2 (fun (xb : mat) (ab : tensor3) =>
                           head_rows (num_heads m) (length xb) ab)
                  x match relative_position_bias_table m with
                    | Some _ =>
                        Tensor.add4_lead1 (scores m x) (_get_rel_pos_bias m)
                    | None => scores m x
                    end).
  { destruct (relative_position_bias_table m) as [tb|] eqn:Ht; [|done].
    destruct Hown as (h & w & Hws & Hcols & Hx).
    destruct (_get_rel_pos_bias_shape m tb h w Hws Ht)
      as (b3 & -> & Hlen & Hrows).
    unfold Tensor.add4_lead1, Tensor.add_bcast4.
    apply Forall2_fmap_r.
    apply Forall2_same_length_lookup_2; [by eapply Forall2_length|].
    intros i xb ab Hxb Hab.
    pose proof (Forall2_lookup_lr _ _ _ _ _ _ Hs Hxb Hab) as Hab'.
    pose proof (Forall_lookup_1 _ _ _ _ Hx Hxb) as Hn. simpl in Hn.
    apply add3_head_rows; [done|lia|].
    eapply Forall_impl; [exact Hrows|]. intros bh ->. done. }
  destruct shared as [sh|]; [|done].
  destruct Hshared as [Hl Hrows].
  unfold Tensor.add_bcast4. apply Forall2_fmap_r.
  apply Forall2_same_length_lookup_2; [by eapply Forall2_length|].
  intros i xb ab Hxb Hab.
  pose proof (Forall2_lookup_lr _ _ _ _ _ _ Hs1 Hxb Hab) as Hab'.
  pose proof (Forall_lookup_1 _ _ _ _ Hrows Hxb) as Hn. simpl in Hn.
  by apply add3_head_rows.
Qed.

Lemma forward_shape_fit (m : t) (shared : option tensor3) (x : tensor3)
    (b : vec) :
  Linear.bias (proj m) = Some b ->
  length b = length (Linear.weight (proj m)) ->
  biases_fit m shared x ->
  Forall2 (fun (xb ob : mat) =>
             length ob = length xb
             /\ Forall (fun r => length r = length (Linear.weight (proj m)))
                  ob)
    x (forward false m x shared).
Proof.
  intros Hb Hlen Hfit. unfold forward.
  apply (attend_shape m x _ b Hb Hlen).
  eapply Forall2_impl; [by apply add_biases_shape|].
  by intros xb ab [Hl Hrows].
Qed.

End Attention.
End Attention.

(** ** [Block] (beit.py, lines 142-202) *)

(** [nn.Parameter(data, requires_grad)] *)
Record nn_Parameter := mkParameter { data : vec; requires_grad : bool }.

(** Python's [int(x)] (truncation) and the truth value of an optional
    number: [None] and zero are false. *)
Definition int_of_Q (x : Q) : nat := Z.to_nat (Z.quot (Qnum x) (Zpos (Qden x))).
Definition truthy (x : option Q) : bool :=
  match x with
  | Some v => negb (Qeq_bool v 0)
  | None => false
  end.

(** [DropPath(drop_path) if drop_path > 0.0 else nn.Identity()] (line 170). *)
Definition drop_path_module (rate : Q) : DropPath.t :=
  if negb (Qle_bool rate 0) then DropPath.DropPath rate
  else DropPath.Identity.

Module Block.

Record t := mk {
  norm1 : LayerNorm.t;
  attn : Attention.t;
  drop_path : DropPath.t;
  norm2 : LayerNorm.t;
  mlp : Mlp.t;
  gamma_1 : option nn_Parameter;
  gamma_2 : option nn_Parameter;
}.

Section Block.
Context `{Externals}.

(** [norm_layer] is [nn.LayerNorm] with the given [eps]; [act_layer] is
    [nn.GELU]. *)
Definition __init__ (dim num_heads : nat) (mlp_ratio : Q) (qkv_bias : bool)
    (drop attn_drop drop_path : Q) (init_values : option Q) (norm_eps : Q)
    (window_size : option (nat * nat)) (attn_head_dim : option nat)
  : Rand t :=
  let norm1 := LayerNorm.__init__ norm_eps dim in
  attn ← Attention.__init__ dim num_heads qkv_bias attn_drop drop
           window_size attn_head_dim;
  let drop_path := drop_path_module drop_path in
  let norm2 := LayerNorm.__init__ norm_eps dim in
  let mlp_hidden_dim := int_of_Q (inject_Z (Z.of_nat dim) * mlp_ratio) in
  mlp ← Mlp.__init__ dim mlp_hidden_dim drop;
  let '(gamma_1, gamma_2) :=
    if truthy init_values
    then (Some (mkParameter
                  (Tensor.smul (default 0%Q init_values) (Tensor.ones dim))
                  true),
          Some (mkParameter
                  (Tensor.smul (default 0%Q init_values) (Tensor.ones dim))
                  true))
    else (None, None) in
  mret (mk norm1 attn drop_path norm2 mlp gamma_1 gamma_2).

(** [gamma * branch], the per-channel vector broadcast over batch and
    tokens. *)
Definition gate (gamma : option nn_Parameter) (branch : tensor3) : tensor3 :=
  match gamma with
  | Some g => fmap (M := list) (fmap (M := list) (Tensor.mul_last (data g)))
                branch
  | None => branch
  end.

Definition attn_branch (training : bool) (m : t) (x : tensor3)
    (shared_rel_pos_bias : option tensor3) : tensor3 :=
  Attention.forward training (attn m)
    (fmap (M := list) (fmap (M := list) (LayerNorm.forward (norm1 m))) x)
    shared_rel_pos_bias.

Definition mlp_branch (training : bool) (m : t) (x : tensor3) : tensor3 :=
  fmap (M := list) (fmap (M := list)
    (fun r => Mlp.forward training (mlp m) (LayerNorm.forward (norm2 m) r)))
    x.

Definition forward (training : bool) (m : t) (x : tensor3)
    (shared_rel_pos_bias : option tensor3) : tensor3 :=
  let dp := fmap (M := list) (DropPath.forward training (drop_path m)) in
  match gamma_1 m with
  | None =>
      let x := Tensor.add3 x (dp (attn_branch training m x
                                    shared_rel_pos_bias)) in
      Tensor.add3 x (dp (mlp_branch training m x))
  | Some _ =>
      let x := Tensor.add3 x
                 (dp (gate (gamma_1 m)
                        (attn_branch training m x shared_rel_pos_bias))) in
      Tensor.add3 x (dp (gate (gamma_2 m) (mlp_branch training m x)))
  end.

Definition named_parameters (m : t) : list string :=
  match gamma_1 m with Some _ => ["gamma_1"] | None => [] end
  ++ match gamma_2 m with Some _ => ["gamma_2"] | None => [] end
  ++ prefixed "norm1" (LayerNorm.named_parameters (norm1 m))
  ++ prefixed "attn" (Attention.named_parameters (attn m))
  ++ prefixed "norm2" (LayerNorm.named_parameters (norm2 m))
  ++ prefixed "mlp" (Mlp.named_parameters (mlp m)).



(** [forward] on a batch of one sample, as a function of the sample. *)
Definition forward_sample (training : bool) (m : t) (xb : mat)
    (shared : option tensor3) : mat :=
  default [] (head (forward training m [xb] shared)).

Lemma forward_fmap (training : bool) (m : t) (x : tensor3)
    (shared : option tensor3) :
  forward training m x shared
  = (fun xb => forward_sample training m xb shared) <$> x.
Proof.
  induction x as [|xb x IH]; [by unfold forward; destruct (gamma_1 m)|].
  rewrite fmap_cons, <- IH. unfold forward_sample.
  unfold forward, attn_branch, mlp_branch, gate.
  rewrite !Attention.forward_per_sample.
  destruct (gamma_1 m), (gamma_2 m); reflexivity.
Qed.

End Block.
End Block.

(** ** [RelativePositionBias] (beit.py, lines 205-225) *)

Module RelativePositionBias.

Record t := mk {
  window_size : nat * nat;
  window_area : nat;
  relative_position_bias_table : mat;
  relative_position_index : list (list Z);
}.

Definition __init__ (window_size : nat * nat) (num_heads : nat) : t :=
  mk window_size (window_size.1 * window_size.2)
    (replicate (Z.to_nat (RelPos.num_relative_distance window_size))
       (Tensor.zeros num_heads))
    (RelPos.gen_relative_position_index window_size).

Definition forward (m : t) : tensor3 :=
  let table := relative_position_bias_table m in
  let gathered :=
    (fun z => default [] (table !! Z.to_nat z))
      <$> concat (relative_position_index m) in
  let relative_position_bias :=
    view2 (window_area m + 1) (window_area m + 1) gathered in
  Attention.permute_2_0_1 (length (default [] (table !! 0%nat)))
    relative_position_bias.

Definition named_parameters (m : t) : list string :=
  ["relative_position_bias_table"].

(** The shared module gathers the way [Attention._get_rel_pos_bias] does,
    without the leading batch dimension. *)
Lemma forward_as_attention (r : t) (m : Attention.t) :
  Attention.window_size m = Some (window_size r) ->
  window_area r = ((window_size r).1 * (window_size r).2)%nat ->
  Attention.relative_position_bias_table m
  = Some (relative_position_bias_table r) ->
  Attention.relative_position_index m = Some (relative_position_index r) ->
  Attention._get_rel_pos_bias m = [forward r].
Proof.
  intros Hws Ha Ht Hx. unfold Attention._get_rel_pos_bias, forward.
  by rewrite Hws, Ha, Ht, Hx.
Qed.

(** A shared module whose table is zero returns the zero tensor. *)
Lemma forward_zero_table (r : t) (h w heads : nat) :
  (0 < h)%nat -> (0 < w)%nat ->
  window_size r = (h, w) -> window_area r = (h * w)%nat ->
  relative_position_bias_table r
  = replicate (Z.to_nat (RelPos.num_relative_distance (h, w)))
      (Tensor.zeros heads) ->
  relative_position_index r = RelPos.gen_relative_position_index (h, w) ->
  forward r
  = replicate heads (replicate (h * w + 1) (Tensor.zeros (h * w + 1))).
Proof.
  intros Hh Hw Hws Ha Ht Hx.
  set (m := Attention.mk heads 0 (Linear.mk [] None) None None None
              (Some (window_size r)) (Some (relative_position_bias_table r))
              (Some (relative_position_index r)) (Dropout.mk 0)
              (Linear.mk [] None) (Dropout.mk 0)).
  assert (Heq : Attention._get_rel_pos_bias m = [forward r]).
  { apply forward_as_attention; try done. by rewrite Ha, Hws. }
  rewrite (Attention.zero_table_bias m heads h w Hh Hw) in Heq.
  - by injection Heq as <-.
  - simpl. by rewrite Hws.
  - simpl. by rewrite Ht.
  - simpl. by rewrite Hx.
Qed.

(** X9: A freshly constructed shared bias is neutral: for a window of positive
    height and width its forward pass returns the zero tensor of shape
    [(num_heads, h*w+1, h*w+1)]. *)
Theorem forward_fresh_zero (h w heads : nat) :
  (0 < h)%nat -> (0 < w)%nat ->
  forward (__init__ (h, w) heads)
  = replicate heads (replicate (h * w + 1) (Tensor.zeros (h * w + 1))).
Proof.
  intros Hh Hw.
  set (r := __init__ (h, w) heads).
  set (m := Attention.mk heads 0 (Linear.mk [] None) None None None
              (Some (window_size r)) (Some (relative_position_bias_table r))
              (Some (relative_position_index r)) (Dropout.mk 0)
              (Linear.mk [] None) (Dropout.mk 0)).
  pose proof (forward_as_attention r m eq_refl eq_refl eq_refl eq_refl)
    as Heq.
  rewrite (Attention.zero_table_bias m heads h w Hh Hw eq_refl eq_refl
             eq_refl) in Heq.
  by injection Heq as <-.
Qed.

End RelativePositionBias.

(** ** [Beit] (beit.py, lines 228-395) *)

(** [flow.linspace(start, end, steps)]: [steps] evenly spaced values from
    [start] to [end] inclusive; a single step yields [start]. *)
Definition linspace (start stop : Q) (steps : nat) : list Q :=
  match steps with
  | 1%nat => [start]
  | _ =>
      (fun i => start + inject_Z (Z.of_nat i)
                        * ((stop - start) / inject_Z (Z.of_nat (steps - 1))))%Q
        <$> seq 0 steps
  end.

(** Modelled from the spec: [trunc_normal_] of [flowvision.layers] is
    missing.  [trunc_normal_(tensor, std)] re-initialises the tensor in
    place: every entry is redrawn from the truncated normal distribution of
    standard deviation [std]. *)
Definition trunc_normal_ `{Externals} (tensor : mat) (std : Q) : Rand mat :=
  mapM (fun row : vec => draw (trunc_normal_sample std) (length row)) tensor.

Module Beit.

(** The values the attributes [norm] and [head] take. *)
Inductive norm_t := NormIdentity | NormLayer (l : LayerNorm.t).
Inductive head_t := HeadIdentity | HeadLinear (l : Linear.t).

Record t := mk {
  num_classes : Z;
  global_pool : string;
  num_features : nat;
  embed_dim : nat;
  grad_checkpointing : bool;
  patch_embed : PatchEmbed.t;
  cls_token : mat;
  pos_embed : option mat;
  pos_drop : Dropout.t;
  rel_pos_bias : option RelativePositionBias.t;
  blocks : list Block.t;
  norm : norm_t;
  fc_norm : option LayerNorm.t;
  head : head_t;
}.

(** The keyword arguments of the constructor; [norm_eps] is the [eps] of
    [norm_layer = partial(nn.LayerNorm, eps=1e-6)]. *)
Record args := mkargs {
  img_size : nat;
  patch_size : nat;
  in_chans : nat;
  arg_num_classes : Z;
  arg_global_pool : string;
  arg_embed_dim : nat;
  depth : nat;
  num_heads : nat;
  mlp_ratio : Q;
  qkv_bias : bool;
  drop_rate : Q;
  attn_drop_rate : Q;
  drop_path_rate : Q;
  norm_eps : Q;
  init_values : option Q;
  use_abs_pos_emb : bool;
  use_rel_pos_bias : bool;
  use_shared_rel_pos_bias : bool;
  head_init_scale : Q;
}.

Definition defaults : args :=
  mkargs 224 16 3 1000 "avg" 768 12 12 4 true 0 0 0 (1 # 1000000) None
    true false false (1 # 1000).

Section Beit.
Context `{Externals}.

(** [nn.Linear(embed_dim, num_classes) if num_classes > 0 else
    nn.Identity()] (lines 311-313 and 367-369). *)
Definition make_head (embed_dim : nat) (num_classes : Z) : Rand head_t :=
  if (0 <? num_classes)%Z
  then HeadLinear <$> Linear.__init__ embed_dim (Z.to_nat num_classes) true
  else mret HeadIdentity.

(** Lines 254-313: the module tree, before any initialisation pass.
    [cls_token] and [pos_embed] are stored without their leading dimension
    of size 1. *)
Definition build (a : args) : Rand t :=
  let patch_embed :=
    PatchEmbed.__init__ (img_size a) (patch_size a) (in_chans a)
      (arg_embed_dim a) in
  let num_patches := PatchEmbed.num_patches patch_embed in
  let cls_token := [Tensor.zeros (arg_embed_dim a)] in
  let pos_embed :=
    if use_abs_pos_emb a
    then Some (replicate (num_patches + 1) (Tensor.zeros (arg_embed_dim a)))
    else None in
  let rel_pos_bias :=
    if use_shared_rel_pos_bias a
    then Some (RelativePositionBias.__init__
                 (PatchEmbed.grid_size patch_embed) (num_heads a))
    else None in
  let dpr := linspace 0 (drop_path_rate a) (depth a) in
  blocks ← mapM (fun i =>
              Block.__init__ (arg_embed_dim a) (num_heads a) (mlp_ratio a)
                (qkv_bias a) (drop_rate a) (attn_drop_rate a)
                (default 0%Q (dpr !! i)) (init_values a) (norm_eps a)
                (if use_rel_pos_bias a
                 then Some (PatchEmbed.grid_size patch_embed) else None)
                None)
            (seq 0 (depth a));
  let use_fc_norm := String.eqb (arg_global_pool a) "avg" in
  let norm :=
    if use_fc_norm then NormIdentity
    else NormLayer (LayerNorm.__init__ (norm_eps a) (arg_embed_dim a)) in
  let fc_norm :=
    if use_fc_norm
    then Some (LayerNorm.__init__ (norm_eps a) (arg_embed_dim a))
    else None in
  head ← make_head (arg_embed_dim a) (arg_num_classes a);
  mret (mk (arg_num_classes a) (arg_global_pool a) (arg_embed_dim a)
          (arg_embed_dim a) false patch_embed cls_token pos_embed
          (Dropout.mk (drop_rate a)) rel_pos_bias blocks norm fc_norm head).

(** [_init_weights] (lines 334-341) on a linear layer and on a layer
    normalisation; other modules are left as they are. *)
Definition _init_weights_Linear (m : Linear.t) : Rand Linear.t :=
  w ← trunc_normal_ (Linear.weight m) (2 # 100);
  mret (Linear.mk w
          (match Linear.bias m with
           | Some b => Some (Tensor.zeros (length b))
           | None => None
           end)).

Definition _init_weights_LayerNorm (m : LayerNorm.t) : LayerNorm.t :=
  LayerNorm.mk (LayerNorm.eps m) (Tensor.ones (length (LayerNorm.weight m)))
    (Tensor.zeros (length (LayerNorm.bias m))).

(** [module.apply(self._init_weights)], children in registration order. *)
Definition apply_Attention (m : Attention.t) : Rand Attention.t :=
  qkv ← _init_weights_Linear (Attention.qkv m);
  proj ← _init_weights_Linear (Attention.proj m);
  mret (Attention.mk (Attention.num_heads m) (Attention.scale m) qkv
          (Attention.q_bias m) (Attention.k_bias m) (Attention.v_bias m)
          (Attention.window_size m)
          (Attention.relative_position_bias_table m)
          (Attention.relative_position_index m) (Attention.attn_drop m)
          proj (Attention.proj_drop m)).

Definition apply_Mlp (m : Mlp.t) : Rand Mlp.t :=
  fc1 ← _init_weights_Linear (Mlp.fc1 m);
  fc2 ← _init_weights_Linear (Mlp.fc2 m);
  mret (Mlp.mk fc1 fc2 (Mlp.drop m)).

Definition apply_Block (m : Block.t) : Rand Block.t :=
  let norm1 := _init_weights_LayerNorm (Block.norm1 m) in
  attn ← apply_Attention (Block.attn m);
  let norm2 := _init_weights_LayerNorm (Block.norm2 m) in
  mlp ← apply_Mlp (Block.mlp m);
  mret (Block.mk norm1 attn (Block.drop_path m) norm2 mlp
          (Block.gamma_1 m) (Block.gamma_2 m)).

Definition with_blocks_head (m : t) (blocks : list Block.t) (norm : norm_t)
    (fc_norm : option LayerNorm.t) (head : head_t) : t :=
  mk (num_classes m) (global_pool m) (num_features m) (embed_dim m)
    (grad_checkpointing m) (patch_embed m) (cls_token m) (pos_embed m)
    (pos_drop m) (rel_pos_bias m) blocks norm fc_norm head.

Definition apply_head (h : head_t) : Rand head_t :=
  match h with
  | HeadLinear l => HeadLinear <$> _init_weights_Linear l
  | HeadIdentity => mret HeadIdentity
  end.

Definition apply__init_weights (m : t) : Rand t :=
  blocks ← mapM apply_Block (blocks m);
  let norm :=
    match norm m with
    | NormLayer l => NormLayer (_init_weights_LayerNorm l)
    | NormIdentity => NormIdentity
    end in
  let fc_norm := _init_weights_LayerNorm <$> fc_norm m in
  head ← apply_head (head m);
  mret (with_blocks_head m blocks norm fc_norm head).

(** Lines 316-318. *)
Definition init_tokens (m : t) : Rand t :=
  pos_embed ← match pos_embed m with
              | Some pe => Some <$> trunc_normal_ pe (2 # 100)
              | None => mret None
              end;
  cls_token ← trunc_normal_ (cls_token m) (2 # 100);
  mret (mk (num_classes m) (global_pool m) (num_features m) (embed_dim m)
          (grad_checkpointing m) (patch_embed m) cls_token pos_embed
          (pos_drop m) (rel_pos_bias m) (blocks m) (norm m) (fc_norm m)
          (head m)).

(** [fix_init_weight] (lines 326-332). *)
Definition rescale (param : mat) (layer_id : nat) : mat :=
  (fun row : vec =>
     Tensor.divs row (math_sqrt (2 * inject_Z (Z.of_nat layer_id))%Q))
    <$> param.

Definition rescale_layer (layer_id : nat) (layer : Block.t) : Block.t :=
  let a := Block.attn layer in
  let f := Block.mlp layer in
  Block.mk (Block.norm1 layer)
    (Attention.mk (Attention.num_heads a) (Attention.scale a)
       (Attention.qkv a) (Attention.q_bias a) (Attention.k_bias a)
       (Attention.v_bias a) (Attention.window_size a)
       (Attention.relative_position_bias_table a)
       (Attention.relative_position_index a) (Attention.attn_drop a)
       (Linear.mk (rescale (Linear.weight (Attention.proj a)) (layer_id + 1))
          (Linear.bias (Attention.proj a)))
       (Attention.proj_drop a))
    (Block.drop_path layer) (Block.norm2 layer)
    (Mlp.mk (Mlp.fc1 f)
       (Linear.mk (rescale (Linear.weight (Mlp.fc2 f)) (layer_id + 1))
          (Linear.bias (Mlp.fc2 f)))
       (Mlp.drop f))
    (Block.gamma_1 layer) (Block.gamma_2 layer).

Definition fix_init_weight (m : t) : t :=
  with_blocks_head m (imap rescale_layer (blocks m)) (norm m) (fc_norm m)
    (head m).

(** Lines 321-324. *)
Definition init_head (head_init_scale : Q) (m : t) : Rand t :=
  match head m with
  | HeadLinear l =>
      w ← trunc_normal_ (Linear.weight l) (2 # 100);
      let w := (fun row : vec => Tensor.muls row head_init_scale) <$> w in
      let b := (fun b : vec => Tensor.muls b head_init_scale)
                 <$> Linear.bias l in
      mret (with_blocks_head m (blocks m) (norm m) (fc_norm m)
              (HeadLinear (Linear.mk w b)))
  | HeadIdentity => mret m
  end.

(** The state of the model right after [self.apply(self._init_weights)]. *)
Definition generic_init (a : args) : Rand t :=
  m ← build a; apply__init_weights m.

Definition __init__ (a : args) : Rand t :=
  m ← generic_init a;
  m ← init_tokens m;
  let m := fix_init_weight m in
  init_head (head_init_scale a) m.

Definition named_parameters (m : t) : list string :=
  ["cls_token"]
  ++ match pos_embed m with Some _ => ["pos_embed"] | None => [] end
  ++ prefixed "patch_embed" (PatchEmbed.named_parameters (patch_embed m))
  ++ match rel_pos_bias m with
     | Some r => prefixed "rel_pos_bias"
                   (RelativePositionBias.named_parameters r)
     | None => []
     end
  ++ concat (imap (fun i b => prefixed ("blocks." +:+ pretty i)
                                (Block.named_parameters b)) (blocks m))
  ++ match norm m with
     | NormLayer l => prefixed "norm" (LayerNorm.named_parameters l)
     | NormIdentity => []
     end
  ++ match fc_norm m with
     | Some l => prefixed "fc_norm" (LayerNorm.named_parameters l)
     | None => []
     end
  ++ match head m with
     | HeadLinear l => prefixed "head" (Linear.named_parameters l)
     | HeadIdentity => []
     end.

Definition no_weight_decay (m : t) : gset string :=
  foldl (fun nwd n =>
           if contains "relative_position_bias_table" n
           then nwd ∪ {[n]} else nwd)
    ({["pos_embed"]} ∪ {["cls_token"]}) (named_parameters m).

Definition reset_classifier (m : t) (num_classes : Z)
    (global_pool : option string) : Rand t :=
  let global_pool' := default (Beit.global_pool m) global_pool in
  head ← make_head (embed_dim m) num_classes;
  mret (mk num_classes global_pool' (num_features m) (embed_dim m)
          (grad_checkpointing m) (patch_embed m) (cls_token m) (pos_embed m)
          (pos_drop m) (rel_pos_bias m) (blocks m) (norm m) (fc_norm m)
          head).

Definition forward_features (training : bool) (m : t) (x : tensor4)
  : tensor3 :=
  let x := PatchEmbed.forward (patch_embed m) x in
  let x := (fun xb : mat => cls_token m ++ xb) <$> x in
  let x := match pos_embed m with
           | Some pe => Tensor.add_bcast3 x pe
           | None => x
           end in
  let x := fmap (M := list) (fmap (M := list)
             (Dropout.forward training (pos_drop m))) x in
  let rel_pos_bias := RelativePositionBias.forward <$> rel_pos_bias m in
  let x := foldl (fun x blk => Block.forward training blk x rel_pos_bias)
             x (blocks m) in
  match norm m with
  | NormLayer l => fmap (M := list) (fmap (M := list) (LayerNorm.forward l)) x
  | NormIdentity => x
  end.

(** The pooled features (lines 385-389) and the head (line 390). *)
Definition pool (m : t) (x : tensor3) : mat :=
  match fc_norm m with
  | Some l =>
      (fun xb : mat =>
         LayerNorm.forward l (Tensor.mean_rows (embed_dim m) (drop 1 xb)))
        <$> x
  | None => (fun xb : mat => default [] (xb !! 0%nat)) <$> x
  end.

Definition forward_head (m : t) (x : tensor3) (pre_logits : bool) : mat :=
  let x := pool m x in
  if pre_logits then x
  else match head m with
       | HeadLinear l => Linear.forward l <$> x
       | HeadIdentity => x
       end.

Definition forward (training : bool) (m : t) (x : tensor4) : mat :=
  let x := forward_features training m x in
  forward_head m x false.

(** *** Facts about the constructor *)

Lemma Block_init_drop_path (dim heads : nat) (ratio : Q) (qb : bool)
    (drop attn_drop rate : Q) (iv : option Q) (eps : Q)
    (ws : option (nat * nat)) (ahd : option nat) (s : nat) :
  Block.drop_path
    (Block.__init__ dim heads ratio qb drop attn_drop rate iv eps ws ahd s).1
  = drop_path_module rate.
Proof.
  unfold Block.__init__, mbind, Rand_bind, mret, Rand_ret.
  destruct (Attention.__init__ _ _ _ _ _ _ _ s) as [a s1].
  destruct (Mlp.__init__ _ _ _ s1) as [ml s2].
  by destruct (truthy iv).
Qed.

Lemma apply_Block_drop_path (b : Block.t) (s : nat) :
  Block.drop_path (apply_Block b s).1 = Block.drop_path b.
Proof.
  unfold apply_Block, mbind, Rand_bind, mret, Rand_ret.
  destruct (apply_Attention _ s) as [a s1].
  by destruct (apply_Mlp _ s1) as [ml s2].
Qed.

Lemma init_tokens_blocks (m : t) (s : nat) :
  blocks (init_tokens m s).1 = blocks m.
Proof.
  unfold init_tokens, mbind, Rand_bind, mret, Rand_ret.
  destruct (pos_embed m) as [pe|]; unfold fmap, Rand_fmap.
  - destruct (trunc_normal_ pe (2 # 100) s) as [pe' s1].
    by destruct (trunc_normal_ (cls_token m) (2 # 100) s1).
  - by destruct (trunc_normal_ (cls_token m) (2 # 100) s).
Qed.

Lemma init_head_blocks (scale : Q) (m : t) (s : nat) :
  blocks (init_head scale m s).1 = blocks m.
Proof.
  unfold init_head. destruct (head m) as [|l]; [done|].
  unfold mbind, Rand_bind, mret, Rand_ret.
  by destruct (trunc_normal_ (Linear.weight l) (2 # 100) s).
Qed.

(** The blocks of the constructed model are the blocks left by the generic
    pass, rescaled by [fix_init_weight]. *)
Lemma init_blocks (a : args) (s : nat) :
  blocks (__init__ a s).1 = imap rescale_layer (blocks (generic_init a s).1).
Proof.
  unfold __init__, mbind, Rand_bind.
  destruct (generic_init a s) as [m0 s0].
  pose proof (init_tokens_blocks m0 s0) as Ht.
  destruct (init_tokens m0 s0) as [m1 s1].
  rewrite init_head_blocks. simpl in *. by rewrite Ht.
Qed.

Lemma generic_init_drop_path (a : args) (s : nat) :
  Block.drop_path <$> blocks (generic_init a s).1
  = (fun i => drop_path_module
                (default 0%Q (linspace 0 (drop_path_rate a) (depth a) !! i)))
      <$> seq 0 (depth a).
Proof.
  unfold generic_init, build, mbind, Rand_bind.
  match goal with
  | |- context [mapM ?f (seq 0 (depth a))] =>
      pose proof (mapM_Rand_fmap f Block.drop_path
        (fun i => drop_path_module
           (default 0%Q (linspace 0 (drop_path_rate a) (depth a) !! i)))
        (seq 0 (depth a)) s
        (fun i s' => Block_init_drop_path _ _ _ _ _ _ _ _ _ _ _ s')) as Hb;
      destruct (mapM (M := Rand) f (seq 0 (depth a)) s) as [bs s1]
  end.
  simpl in Hb. rewrite <- Hb.
  destruct (make_head (arg_embed_dim a) (arg_num_classes a) s1) as [hd s2].
  simpl. unfold apply__init_weights, mbind, Rand_bind. simpl.
  pose proof (mapM_Rand_fmap apply_Block Block.drop_path Block.drop_path
                bs s2 apply_Block_drop_path) as Hc.
  destruct (mapM (M := Rand) apply_Block bs s2) as [bs' s3].
  simpl in Hc. rewrite <- Hc.
  by destruct (apply_head hd s3).
Qed.

Lemma rescale_layer_drop_path (l : list Block.t) :
  Block.drop_path <$> imap rescale_layer l = Block.drop_path <$> l.
Proof.
  apply list_eq. intros i.
  rewrite !list_lookup_fmap, list_lookup_imap.
  by destruct (l !! i).
Qed.

Lemma init_drop_path (a : args) (s : nat) :
  Block.drop_path <$> blocks (__init__ a s).1
  = (fun i => drop_path_module
                (default 0%Q (linspace 0 (drop_path_rate a) (depth a) !! i)))
      <$> seq 0 (depth a).
Proof.
  by rewrite init_blocks, rescale_layer_drop_path, generic_init_drop_path.
Qed.

Lemma linspace_length (start stop : Q) (steps : nat) :
  length (linspace start stop steps) = steps.
Proof.
  unfold linspace. destruct steps as [|[|n]]; [done..|].
  by rewrite length_fmap, length_seq.
Qed.

Lemma linspace_lookup (stop : Q) (steps i : nat) :
  (2 <= steps)%nat -> (i < steps)%nat ->
  exists r, linspace 0 stop steps !! i = Some r
    /\ (r == stop * inject_Z (Z.of_nat i)
               / inject_Z (Z.of_nat (steps - 1)))%Q.
Proof.
  intros Hs Hi. unfold linspace.
  destruct steps as [|[|n]]; [lia..|].
  rewrite list_lookup_fmap, lookup_seq_lt by done. simpl.
  eexists. split; [done|].
  assert (Hn : ~ (inject_Z (Z.of_nat (S (S n) - 1)) == 0)%Q).
  { unfold Qeq, inject_Z. simpl. lia. }
  field. exact Hn.
Qed.

Lemma drop_path_module_cases (r : Q) :
  ((0 < r)%Q -> drop_path_module r = DropPath.DropPath r)
  /\ ((r <= 0)%Q -> drop_path_module r = DropPath.Identity).
Proof.
  unfold drop_path_module. destruct (Qle_bool r 0) eqn:E; simpl.
  - apply Qle_bool_iff in E. split; [|done].
    intros Hlt. exfalso. exact (Qlt_not_le _ _ Hlt E).
  - split; [done|]. intros Hle. apply Qle_bool_iff in Hle. congruence.
Qed.

(** What block [i] of a constructed model holds as its [drop_path]: the
    module line 170 builds from entry [i] of the schedule. *)
Lemma init_block_drop_path (a : args) (s i : nat) (blk : Block.t) :
  blocks (__init__ a s).1 !! i = Some blk ->
  exists r, linspace 0 (drop_path_rate a) (depth a) !! i = Some r
    /\ ((0 < r)%Q -> Block.drop_path blk = DropPath.DropPath r)
    /\ ((r <= 0)%Q -> Block.drop_path blk = DropPath.Identity).
Proof.
  intros Hblk. pose proof (init_drop_path a s) as Hdp.
  assert (Hi : (i < depth a)%nat).
  { apply lookup_lt_Some in Hblk. apply (f_equal length) in Hdp.
    rewrite !length_fmap, length_seq in Hdp. lia. }
  destruct (lookup_lt_is_Some_2 (linspace 0 (drop_path_rate a) (depth a)) i)
    as [r Hr]; [by rewrite linspace_length|].
  exists r. split; [done|].
  apply (f_equal (fun l => l !! i)) in Hdp.
  rewrite !list_lookup_fmap, Hblk, lookup_seq_lt in Hdp by done.
  simpl in Hdp. rewrite Hr in Hdp. simpl in Hdp.
  injection Hdp as ->. apply drop_path_module_cases.
Qed.

(** C7: for a model of depth at least 2, the schedule
    [dpr = linspace(0, drop_path_rate, depth)] has one rate per block and
    block [i] is built with [dpr[i]], which equals
    [drop_path_rate * i / (depth - 1)] (exact arithmetic): the block holds
    [DropPath(dpr[i])] when that rate is positive, which is the case for
    every block after the first when [drop_path_rate] is positive, and
    [nn.Identity()] otherwise.  The first rate is 0, so the first block
    holds [nn.Identity()]; the last rate is [drop_path_rate], and the last
    block holds a [DropPath] of that rate when it is positive. *)
Theorem drop_path_schedule (a : args) (s : nat) :
  (2 <= depth a)%nat ->
  let dpr := linspace 0 (drop_path_rate a) (depth a) in
  let m := (__init__ a s).1 in
  length dpr = depth a
  /\ length (blocks m) = depth a
  /\ (forall i, (i < depth a)%nat ->
        exists r blk,
          dpr !! i = Some r
          /\ (r == drop_path_rate a * inject_Z (Z.of_nat i)
                    / inject_Z (Z.of_nat (depth a - 1)))%Q
          /\ blocks m !! i = Some blk
          /\ ((0 < r)%Q -> Block.drop_path blk = DropPath.DropPath r)
          /\ ((r <= 0)%Q -> Block.drop_path blk = DropPath.Identity)
          /\ ((0 < drop_path_rate a)%Q -> (0 < i)%nat ->
              (0 < r)%Q /\ Block.drop_path blk = DropPath.DropPath r))
  /\ (exists r blk,
        dpr !! 0%nat = Some r /\ (r == 0)%Q
        /\ blocks m !! 0%nat = Some blk
        /\ Block.drop_path blk = DropPath.Identity)
  /\ (exists r blk,
        dpr !! (depth a - 1)%nat = Some r
        /\ (r == drop_path_rate a)%Q
        /\ blocks m !! (depth a - 1)%nat = Some blk
        /\ ((0 < drop_path_rate a)%Q ->
            Block.drop_path blk = DropPath.DropPath r)).
Proof.
  intros Hd dpr m.
  pose proof (init_drop_path a s) as Hdp. fold m in Hdp.
  assert (Hlen : length (blocks m) = depth a).
  { apply (f_equal length) in Hdp.
    by rewrite !length_fmap, length_seq in Hdp. }
  assert (Hblock : forall i, (i < depth a)%nat ->
            exists r blk,
              dpr !! i = Some r
              /\ (r == drop_path_rate a * inject_Z (Z.of_nat i)
                        / inject_Z (Z.of_nat (depth a - 1)))%Q
              /\ blocks m !! i = Some blk
              /\ ((0 < r)%Q -> Block.drop_path blk = DropPath.DropPath r)
              /\ ((r <= 0)%Q -> Block.drop_path blk = DropPath.Identity)).
  { intros i Hi.
    destruct (linspace_lookup (drop_path_rate a) (depth a) i Hd Hi)
      as (r & Hr & Heq).
    destruct (lookup_lt_is_Some_2 (blocks m) i) as [blk Hblk]; [lia|].
    destruct (init_block_drop_path a s i blk Hblk) as (r' & Hr' & Hpos & Hneg).
    fold dpr in Hr, Hr'. rewrite Hr in Hr'. injection Hr' as <-.
    by exists r, blk. }
  split; [apply linspace_length|]. split; [done|]. split; [|split].
  - intros i Hi.
    destruct (Hblock i Hi) as (r & blk & Hr & Heq & Hblk & Hpos & Hneg).
    exists r, blk. do 5 (split; [done|]).
    intros Hrate Hi0.
    assert (Hr0 : (0 < r)%Q).
    { rewrite Heq. apply Qlt_shift_div_l.
      - rewrite <- (Zlt_Qlt 0). lia.
      - rewrite Qmult_0_l. apply Qmult_lt_0_compat; [done|].
        rewrite <- (Zlt_Qlt 0). lia. }
    split; [done|]. by apply Hpos.
  - destruct (Hblock 0%nat ltac:(lia)) as (r & blk & Hr & Heq & Hblk & _ & Hneg).
    assert (Hr0 : (r == 0)%Q).
    { rewrite Heq. simpl. unfold Qdiv. by rewrite Qmult_0_r, Qmult_0_l. }
    exists r, blk. do 3 (split; [done|]).
    apply Hneg. rewrite Hr0. apply Qle_refl.
  - destruct (Hblock (depth a - 1)%nat ltac:(lia))
      as (r & blk & Hr & Heq & Hblk & Hpos & _).
    assert (Hrd : (r == drop_path_rate a)%Q).
    { rewrite Heq. field. unfold Qeq, inject_Z. simpl. lia. }
    exists r, blk. do 3 (split; [done|]).
    intros Hrate. apply Hpos. by rewrite Hrd.
Qed.

(** C10: with [depth = 1] the schedule is [[0]] whatever
    [drop_path_rate] is, the only block holds [nn.Identity()] as its
    [drop_path], and applying it returns its input in training mode as well
    as in inference mode. *)
Theorem single_block_drop_path (a : args) (s : nat) :
  depth a = 1%nat ->
  linspace 0 (drop_path_rate a) (depth a) = [0%Q]
  /\ exists blk,
       blocks (__init__ a s).1 = [blk]
       /\ Block.drop_path blk = DropPath.Identity
       /\ forall training x,
            DropPath.forward training (Block.drop_path blk) x = x.
Proof.
  intros Hd. pose proof (init_drop_path a s) as Hdp.
  rewrite Hd in *. split; [done|].
  destruct (blocks (__init__ a s).1) as [|blk [|blk' l]]; try done.
  exists blk. split; [done|].
  injection Hdp as Hdp. change (Block.drop_path blk = DropPath.Identity)
    in Hdp.
  split; [done|]. intros training x. by rewrite Hdp.
Qed.

(** *** [fix_init_weight] *)

Lemma init_Linear_weight (l : Linear.t) (s : nat) :
  Linear.weight (_init_weights_Linear l s).1
  = (trunc_normal_ (Linear.weight l) (2 # 100) s).1.
Proof.
  unfold _init_weights_Linear, mbind, Rand_bind, mret, Rand_ret.
  by destruct (trunc_normal_ (Linear.weight l) (2 # 100) s).
Qed.

Lemma apply_Block_weights (b : Block.t) (s : nat) :
  exists s1 s2,
    Linear.weight (Attention.proj (Block.attn (apply_Block b s).1))
    = (trunc_normal_ (Linear.weight (Attention.proj (Block.attn b)))
         (2 # 100) s1).1
    /\ Linear.weight (Mlp.fc2 (Block.mlp (apply_Block b s).1))
       = (trunc_normal_ (Linear.weight (Mlp.fc2 (Block.mlp b)))
            (2 # 100) s2).1.
Proof.
  unfold apply_Block, apply_Attention, apply_Mlp, mbind, Rand_bind, mret,
    Rand_ret.
  destruct (_init_weights_Linear (Attention.qkv (Block.attn b)) s)
    as [q s1].
  pose proof (init_Linear_weight (Attention.proj (Block.attn b)) s1) as Hp.
  destruct (_init_weights_Linear (Attention.proj (Block.attn b)) s1)
    as [pr s2].
  destruct (_init_weights_Linear (Mlp.fc1 (Block.mlp b)) s2) as [f1 s3].
  pose proof (init_Linear_weight (Mlp.fc2 (Block.mlp b)) s3) as Hf.
  destruct (_init_weights_Linear (Mlp.fc2 (Block.mlp b)) s3) as [f2 s4].
  exists s1, s3. simpl in *. done.
Qed.

Lemma generic_init_blocks_lookup (a : args) (s k : nat) (b0 : Block.t) :
  blocks (generic_init a s).1 !! k = Some b0 ->
  exists b s', b0 = (apply_Block b s').1.
Proof.
  unfold generic_init, mbind, Rand_bind.
  destruct (build a s) as [m s1].
  unfold apply__init_weights, mbind, Rand_bind, mret, Rand_ret.
  pose proof (mapM_Rand_lookup apply_Block (blocks m) s1 k b0) as Hl.
  destruct (mapM (M := Rand) apply_Block (blocks m) s1) as [bs s2].
  destruct (apply_head (head m) s2) as [hd s3]. simpl in *.
  intros Hk. destruct (Hl Hk) as (b & s' & _ & ->). eauto.
Qed.

(** Two blocks agree on everything except the weights of [attn.proj] and
    [mlp.fc2]. *)
Definition same_but_proj_fc2_weight (b0 b : Block.t) : Prop :=
  Block.norm1 b = Block.norm1 b0
  /\ Block.drop_path b = Block.drop_path b0
  /\ Block.norm2 b = Block.norm2 b0
  /\ Block.gamma_1 b = Block.gamma_1 b0
  /\ Block.gamma_2 b = Block.gamma_2 b0
  /\ Attention.num_heads (Block.attn b) = Attention.num_heads (Block.attn b0)
  /\ Attention.scale (Block.attn b) = Attention.scale (Block.attn b0)
  /\ Attention.qkv (Block.attn b) = Attention.qkv (Block.attn b0)
  /\ Attention.q_bias (Block.attn b) = Attention.q_bias (Block.attn b0)
  /\ Attention.k_bias (Block.attn b) = Attention.k_bias (Block.attn b0)
  /\ Attention.v_bias (Block.attn b) = Attention.v_bias (Block.attn b0)
  /\ Attention.window_size (Block.attn b)
     = Attention.window_size (Block.attn b0)
  /\ Attention.relative_position_bias_table (Block.attn b)
     = Attention.relative_position_bias_table (Block.attn b0)
  /\ Attention.relative_position_index (Block.attn b)
     = Attention.relative_position_index (Block.attn b0)
  /\ Attention.attn_drop (Block.attn b) = Attention.attn_drop (Block.attn b0)
  /\ Linear.bias (Attention.proj (Block.attn b))
     = Linear.bias (Attention.proj (Block.attn b0))
  /\ Attention.proj_drop (Block.attn b) = Attention.proj_drop (Block.attn b0)
  /\ Mlp.fc1 (Block.mlp b) = Mlp.fc1 (Block.mlp b0)
  /\ Linear.bias (Mlp.fc2 (Block.mlp b)) = Linear.bias (Mlp.fc2 (Block.mlp b0))
  /\ Mlp.drop (Block.mlp b) = Mlp.drop (Block.mlp b0).

(** C2: let [b0] be block [k] (0-indexed) as the generic pass
    [self.apply(self._init_weights)] leaves it.  Its [attn.proj] and
    [mlp.fc2] weights are values drawn by [trunc_normal_(_, std=0.02)];
    in the constructed model, block [k] carries exactly these two weights
    divided entrywise by [math.sqrt(2 * (k + 1))], in the same parameter
    slots, and every other field of the block is the one of [b0]. *)
Theorem fix_init_weight_rescales (a : args) (s k : nat) (b0 : Block.t) :
  blocks (generic_init a s).1 !! k = Some b0 ->
  let div (w : mat) : mat :=
    (fun row : vec =>
       (fun v => v / math_sqrt (2 * inject_Z (Z.of_nat (k + 1))))%Q <$> row)
      <$> w in
  (exists w s', Linear.weight (Attention.proj (Block.attn b0))
                = (trunc_normal_ w (2 # 100) s').1)
  /\ (exists w s', Linear.weight (Mlp.fc2 (Block.mlp b0))
                   = (trunc_normal_ w (2 # 100) s').1)
  /\ exists b,
       blocks (__init__ a s).1 !! k = Some b
       /\ Linear.weight (Attention.proj (Block.attn b))
          = div (Linear.weight (Attention.proj (Block.attn b0)))
       /\ Linear.weight (Mlp.fc2 (Block.mlp b))
          = div (Linear.weight (Mlp.fc2 (Block.mlp b0)))
       /\ same_but_proj_fc2_weight b0 b.
Proof.
  intros Hk div.
  destruct (generic_init_blocks_lookup a s k b0 Hk) as (b' & s' & ->).
  destruct (apply_Block_weights b' s') as (s1 & s2 & Hp & Hf).
  split; [eauto|]. split; [eauto|].
  exists (rescale_layer k (apply_Block b' s').1).
  split.
  - by rewrite init_blocks, list_lookup_imap, Hk.
  - repeat split.
Qed.

(** *** [no_weight_decay] *)

Lemma no_weight_decay_fold (names : list string) (init : gset string)
    (n : string) :
  n ∈ foldl (fun nwd n =>
               if contains "relative_position_bias_table" n
               then nwd ∪ {[n]} else nwd) init names
  <-> n ∈ init
      \/ (n ∈ names /\ contains "relative_position_bias_table" n = true).
Proof.
  revert init. induction names as [|x names IH]; intros init; simpl.
  - rewrite elem_of_nil. tauto.
  - rewrite IH.
    destruct (contains "relative_position_bias_table" x) eqn:Hx.
    + rewrite elem_of_union, elem_of_singleton, elem_of_cons.
      intuition (subst; auto).
    + rewrite elem_of_cons. intuition (subst; auto; congruence).
Qed.

Lemma no_weight_decay_elem (m : t) (n : string) :
  n ∈ no_weight_decay m
  <-> n = "pos_embed" \/ n = "cls_token"
      \/ (n ∈ named_parameters m
          /\ contains "relative_position_bias_table" n = true).
Proof.
  unfold no_weight_decay. rewrite no_weight_decay_fold.
  rewrite elem_of_union, !elem_of_singleton. tauto.
Qed.

(** *** [reset_classifier] and [forward_head] *)


Lemma reset_classifier_fields (m : t) (k : Z) (g : option string) (s : nat) :
  let m' := (reset_classifier m k g s).1 in
  num_classes m' = k
  /\ global_pool m' = default (global_pool m) g
  /\ head m' = (make_head (embed_dim m) k s).1
  /\ (num_features m', embed_dim m', grad_checkpointing m', patch_embed m',
      cls_token m', pos_embed m', pos_drop m', rel_pos_bias m', blocks m',
      norm m', fc_norm m')
     = (num_features m, embed_dim m, grad_checkpointing m, patch_embed m,
        cls_token m, pos_embed m, pos_drop m, rel_pos_bias m, blocks m,
        norm m, fc_norm m).
Proof.
  unfold reset_classifier, mbind, Rand_bind, mret, Rand_ret.
  by destruct (make_head (embed_dim m) k s).
Qed.


(** C9, what the code does: [reset_classifier] stores the new
    [global_pool] but leaves [fc_norm] as the constructor bound it, and
    [forward_head] selects the pooling by [fc_norm] alone; the pooled
    features are therefore the same before and after the call, whatever
    [global_pool] is passed. *)
Theorem reset_classifier_keeps_pooling (m : t) (k : Z) (g : option string)
    (s : nat) (x : tensor3) :
  let m' := (reset_classifier m k g s).1 in
  global_pool m' = default (global_pool m) g
  /\ fc_norm m' = fc_norm m
  /\ pool m' x = pool m x
  /\ forward_head m' x true = forward_head m x true.
Proof.
  intros m'.
  destruct (reset_classifier_fields m k g s) as (_ & Hg & _ & Hrest).
  fold m' in Hg, Hrest.
  assert (Hpool : pool m' x = pool m x).
  { unfold pool. by injection Hrest as _ -> _ _ _ _ _ _ _ _ ->. }
  split; [done|]. split; [by injection Hrest|]. split; [done|].
  unfold forward_head. by rewrite Hpool.
Qed.

(** *** The state of a constructed model *)

(** A matrix with [r] rows of [c] entries. *)
Definition shape2 (r c : nat) (t : mat) : Prop :=
  length t = r /\ Forall (fun row => length row = c) t.

Lemma Linear_init_shape (i o : nat) (b : bool) (s : nat) :
  shape2 o i (Linear.weight (Linear.__init__ i o b s).1).
Proof. split; [apply Linear.init_length | apply Linear.init_row_length]. Qed.

Lemma trunc_normal_shape (t : mat) (std : Q) (s r c : nat) :
  shape2 r c t -> shape2 r c (trunc_normal_ t std s).1.
Proof.
  intros [Hr Hc]. unfold trunc_normal_. split.
  - by rewrite mapM_Rand_length.
  - apply Forall_lookup. intros i row Hi.
    apply mapM_Rand_lookup in Hi as (row0 & s' & Hrow0 & ->). simpl.
    rewrite length_fmap, length_seq.
    exact (Forall_lookup_1 _ _ _ _ Hc Hrow0).
Qed.

Lemma rescale_shape (t : mat) (layer_id r c : nat) :
  shape2 r c t -> shape2 r c (rescale t layer_id).
Proof.
  intros [Hr Hc]. unfold rescale. split; [by rewrite length_fmap|].
  apply Forall_fmap. eapply Forall_impl; [exact Hc|].
  intros row Hrow. simpl. unfold Tensor.divs. by rewrite length_fmap.
Qed.

Lemma init_Linear_shape (l : Linear.t) (s r c : nat) :
  shape2 r c (Linear.weight l) ->
  shape2 r c (Linear.weight (_init_weights_Linear l s).1).
Proof. rewrite init_Linear_weight. apply trunc_normal_shape. Qed.

Lemma init_Linear_bias (l : Linear.t) (s : nat) :
  Linear.bias (_init_weights_Linear l s).1
  = (fun b : vec => Tensor.zeros (length b)) <$> Linear.bias l.
Proof.
  unfold _init_weights_Linear, mbind, Rand_bind, mret, Rand_ret.
  destruct (trunc_normal_ (Linear.weight l) (2 # 100) s).
  by destruct (Linear.bias l).
Qed.

Lemma init_LayerNorm_fresh (eps : Q) (dim : nat) :
  _init_weights_LayerNorm (LayerNorm.__init__ eps dim)
  = LayerNorm.mk eps (Tensor.ones dim) (Tensor.zeros dim).
Proof.
  unfold _init_weights_LayerNorm, LayerNorm.__init__. simpl.
  unfold Tensor.ones, Tensor.zeros. by rewrite !length_replicate.
Qed.

(** The arguments [Beit.__init__] passes to the constructor of block [i]. *)
Definition block_init (a : args) (i : nat) : Rand Block.t :=
  Block.__init__ (arg_embed_dim a) (num_heads a) (mlp_ratio a) (qkv_bias a)
    (drop_rate a) (attn_drop_rate a)
    (default 0%Q (linspace 0 (drop_path_rate a) (depth a) !! i))
    (init_values a) (norm_eps a)
    (if use_rel_pos_bias a
     then Some (PatchEmbed.grid_size
                  (PatchEmbed.__init__ (img_size a) (patch_size a)
                     (in_chans a) (arg_embed_dim a)))
     else None)
    None.

Lemma build_blocks_lookup (a : args) (s k : nat) (b : Block.t) :
  blocks (build a s).1 !! k = Some b ->
  (k < depth a)%nat /\ exists s1, b = (block_init a k s1).1.
Proof.
  unfold build, mbind, Rand_bind, mret, Rand_ret.
  pose proof (mapM_Rand_lookup (block_init a) (seq 0 (depth a)) s k b)
    as Hl. unfold block_init in Hl.
  match type of Hl with
  | context [mapM ?f (seq 0 (depth a))] =>
      destruct (mapM (M := Rand) f (seq 0 (depth a)) s) as [bs s1]
  end.
  destruct (make_head _ _ s1) as [hd s2]. simpl in *.
  intros Hk. destruct (Hl Hk) as (i & s' & [-> Hi]%lookup_seq & ->).
  split; [done|]. by exists s'.
Qed.

(** Block [k] of a constructed model: built by [Block.__init__], visited
    by the generic pass, then rescaled. *)
Lemma init_blocks_lookup (a : args) (s k : nat) (b : Block.t) :
  blocks (__init__ a s).1 !! k = Some b ->
  (k < depth a)%nat
  /\ exists s1 s2,
       b = rescale_layer k (apply_Block (block_init a k s1).1 s2).1.
Proof.
  rewrite init_blocks, list_lookup_imap.
  destruct (blocks (generic_init a s).1 !! k) as [b0|] eqn:Hb0; [|done].
  simpl. intros [= <-]. revert Hb0.
  unfold generic_init, mbind, Rand_bind.
  pose proof (build_blocks_lookup a s k) as Hbuild.
  destruct (build a s) as [m s1]. simpl in Hbuild.
  unfold apply__init_weights, mbind, Rand_bind, mret, Rand_ret.
  pose proof (mapM_Rand_lookup apply_Block (blocks m) s1 k b0) as Hl.
  destruct (mapM (M := Rand) apply_Block (blocks m) s1) as [bs s2].
  destruct (apply_head (head m) s2) as [hd s3]. simpl in *.
  intros Hk. destruct (Hl Hk) as (b' & s' & Hb' & ->).
  destruct (Hbuild b' Hb') as (Hlt & s0 & ->).
  split; [done|]. eauto.
Qed.

Lemma init_blocks_length (a : args) (s : nat) :
  length (blocks (__init__ a s).1) = depth a.
Proof.
  pose proof (init_drop_path a s) as Hdp.
  apply (f_equal length) in Hdp.
  by rewrite !length_fmap, length_seq in Hdp.
Qed.

Lemma Linear_init_no_bias (i o s : nat) :
  Linear.bias (Linear.__init__ i o false s).1 = None.
Proof.
  unfold Linear.__init__, mbind, Rand_bind, mret, Rand_ret.
  by destruct (draw2 default_init_sample o i s).
Qed.

Lemma Mlp_init_fields (i hidden : nat) (drop : Q) (s : nat) :
  exists s1,
    Mlp.fc1 (Mlp.__init__ i hidden drop s).1
    = (Linear.__init__ i hidden true s).1
    /\ Mlp.fc2 (Mlp.__init__ i hidden drop s).1
       = (Linear.__init__ hidden i true s1).1.
Proof.
  unfold Mlp.__init__, mbind, Rand_bind, mret, Rand_ret.
  destruct (Linear.__init__ i hidden true s) as [f1 s1]. exists s1.
  by destruct (Linear.__init__ hidden i true s1).
Qed.

Lemma Block_init_fields (dim heads : nat) (ratio : Q) (qb : bool)
    (drop attn_drop rate : Q) (iv : option Q) (eps : Q)
    (ws : option (nat * nat)) (ahd : option nat) (s : nat) :
  let b := (Block.__init__ dim heads ratio qb drop attn_drop rate iv eps ws
              ahd s).1 in
  exists s1,
    Block.norm1 b = LayerNorm.__init__ eps dim
    /\ Block.norm2 b = LayerNorm.__init__ eps dim
    /\ Block.attn b
       = (Attention.__init__ dim heads qb attn_drop drop ws ahd s).1
    /\ Block.mlp b
       = (Mlp.__init__ dim (int_of_Q (inject_Z (Z.of_nat dim) * ratio)) drop
            s1).1
    /\ Block.gamma_1 b
       = (if truthy iv
          then Some (mkParameter
                       (Tensor.smul (default 0%Q iv) (Tensor.ones dim)) true)
          else None)
    /\ Block.gamma_2 b = Block.gamma_1 b.
Proof.
  intros b. subst b. unfold Block.__init__, mbind, Rand_bind, mret, Rand_ret.
  destruct (Attention.__init__ _ _ _ _ _ _ _ s) as [a s1]. exists s1.
  destruct (Mlp.__init__ _ _ _ s1) as [ml s2].
  by destruct (truthy iv).
Qed.

Lemma apply_Block_fields (b : Block.t) (s : nat) :
  let b' := (apply_Block b s).1 in
  exists s1 s2 s3,
    Block.norm1 b' = _init_weights_LayerNorm (Block.norm1 b)
    /\ Block.norm2 b' = _init_weights_LayerNorm (Block.norm2 b)
    /\ Block.gamma_1 b' = Block.gamma_1 b
    /\ Block.gamma_2 b' = Block.gamma_2 b
    /\ Attention.qkv (Block.attn b')
       = (_init_weights_Linear (Attention.qkv (Block.attn b)) s).1
    /\ Attention.proj (Block.attn b')
       = (_init_weights_Linear (Attention.proj (Block.attn b)) s1).1
    /\ Mlp.fc1 (Block.mlp b')
       = (_init_weights_Linear (Mlp.fc1 (Block.mlp b)) s2).1
    /\ Mlp.fc2 (Block.mlp b')
       = (_init_weights_Linear (Mlp.fc2 (Block.mlp b)) s3).1
    /\ (Attention.num_heads (Block.attn b'), Attention.scale (Block.attn b'),
        Attention.window_size (Block.attn b'),
        Attention.relative_position_bias_table (Block.attn b'),
        Attention.relative_position_index (Block.attn b'),
        Attention.attn_drop (Block.attn b'),
        Attention.proj_drop (Block.attn b'))
       = (Attention.num_heads (Block.attn b), Attention.scale (Block.attn b),
          Attention.window_size (Block.attn b),
          Attention.relative_position_bias_table (Block.attn b),
          Attention.relative_position_index (Block.attn b),
          Attention.attn_drop (Block.attn b),
          Attention.proj_drop (Block.attn b))
    /\ (Attention.q_bias (Block.attn b'), Attention.k_bias (Block.attn b'),
        Attention.v_bias (Block.attn b'))
       = (Attention.q_bias (Block.attn b), Attention.k_bias (Block.attn b),
          Attention.v_bias (Block.attn b)).
Proof.
  intros b'. subst b'.
  unfold apply_Block, apply_Attention, apply_Mlp, mbind, Rand_bind, mret,
    Rand_ret.
  destruct (_init_weights_Linear (Attention.qkv (Block.attn b)) s)
    as [q s1] eqn:Hq.
  destruct (_init_weights_Linear (Attention.proj (Block.attn b)) s1)
    as [pr s2] eqn:Hp.
  destruct (_init_weights_Linear (Mlp.fc1 (Block.mlp b)) s2)
    as [f1 s3] eqn:Hf1.
  destruct (_init_weights_Linear (Mlp.fc2 (Block.mlp b)) s3)
    as [f2 s4] eqn:Hf2.
  exists s1, s2, s3. simpl. by rewrite Hp, Hf1, Hf2.
Qed.

(** What block [k] of a constructed model holds, whatever the random
    draws: the norms are the identity affine map, every bias is zero, the
    gammas and the position bias are as the block constructor left them and
    every weight has the shape its layer was declared with. *)
Lemma constructed_block (a : args) (k s1 s2 : nat) :
  let b := rescale_layer k (apply_Block (block_init a k s1).1 s2).1 in
  let dim := arg_embed_dim a in
  let ahd := (dim / num_heads a * num_heads a)%nat in
  let hidden := int_of_Q (inject_Z (Z.of_nat dim) * mlp_ratio a) in
  let ws := if use_rel_pos_bias a
            then Some (PatchEmbed.grid_size
                         (PatchEmbed.__init__ (img_size a) (patch_size a)
                            (in_chans a) dim))
            else None in
  (Block.norm1 b = LayerNorm.mk (norm_eps a) (Tensor.ones dim)
                     (Tensor.zeros dim)
   /\ Block.norm2 b = LayerNorm.mk (norm_eps a) (Tensor.ones dim)
                        (Tensor.zeros dim))
  /\ (Block.gamma_1 b
      = (if truthy (init_values a)
         then Some (mkParameter
                      (Tensor.smul (default 0%Q (init_values a))
                         (Tensor.ones dim)) true)
         else None)
      /\ Block.gamma_2 b = Block.gamma_1 b)
  /\ (Attention.num_heads (Block.attn b) = num_heads a
      /\ Attention.window_size (Block.attn b) = ws
      /\ Attention.relative_position_bias_table (Block.attn b)
         = (fun ws => replicate (Z.to_nat (RelPos.num_relative_distance ws))
                        (Tensor.zeros (num_heads a))) <$> ws
      /\ Attention.relative_position_index (Block.attn b)
         = RelPos.gen_relative_position_index <$> ws)
  /\ (Attention.q_bias (Block.attn b)
      = (if qkv_bias a then Some (Tensor.zeros ahd) else None)
      /\ Attention.k_bias (Block.attn b)
         = (if qkv_bias a then Some (Tensor.zeros ahd) else None)
      /\ Attention.v_bias (Block.attn b)
         = (if qkv_bias a then Some (Tensor.zeros ahd) else None))
  /\ (Linear.bias (Attention.qkv (Block.attn b)) = None
      /\ Linear.bias (Attention.proj (Block.attn b))
         = Some (Tensor.zeros dim)
      /\ Linear.bias (Mlp.fc1 (Block.mlp b)) = Some (Tensor.zeros hidden)
      /\ Linear.bias (Mlp.fc2 (Block.mlp b)) = Some (Tensor.zeros dim))
  /\ (shape2 (ahd * 3) dim (Linear.weight (Attention.qkv (Block.attn b)))
      /\ shape2 dim ahd (Linear.weight (Attention.proj (Block.attn b)))
      /\ shape2 hidden dim (Linear.weight (Mlp.fc1 (Block.mlp b)))
      /\ shape2 dim hidden (Linear.weight (Mlp.fc2 (Block.mlp b)))).
Proof.
  intros b dim ahd hidden ws. subst b.
  set (b0 := (block_init a k s1).1).
  pose proof (Block_init_fields dim (num_heads a) (mlp_ratio a) (qkv_bias a)
              (drop_rate a) (attn_drop_rate a)
              (default 0%Q (linspace 0 (drop_path_rate a) (depth a) !! k))
              (init_values a) (norm_eps a) ws None s1) as Hfields.
  change (Block.__init__ _ _ _ _ _ _ _ _ _ _ _ s1).1 with b0 in Hfields.
  destruct Hfields as (t1 & Hn1 & Hn2 & Hattn & Hmlp & Hg1 & Hg2).
  fold hidden in Hmlp.
  pose proof (Attention.__init___fields dim (num_heads a) (qkv_bias a)
              (attn_drop_rate a) (drop_rate a) ws None s1) as Hfields.
  rewrite <- Hattn in Hfields.
  change (default (dim / num_heads a)%nat None * num_heads a)%nat with ahd
    in Hfields.
  destruct Hfields
    as (t2 & Hnh & Hqkv & Hproj & Hqb & Hkb & Hvb & Hws & Htab & Hidx).
  destruct (Mlp_init_fields dim hidden (drop_rate a) t1)
    as (t3 & Hfc1 & Hfc2).
  rewrite <- Hmlp in Hfc1, Hfc2.
  destruct (apply_Block_fields b0 s2)
    as (u1 & u2 & u3 & Ha1 & Ha2 & Hag1 & Hag2 & Haq & Hap & Haf1 & Haf2
        & Hsame & Hbias).
  set (b1 := (apply_Block b0 s2).1) in *.
  injection Hsame as Es1 _ Es3 Es4 Es5 _ _.
  injection Hbias as Eb1 Eb2 Eb3.
  unfold rescale_layer. cbn [Block.norm1 Block.norm2 Block.gamma_1
    Block.gamma_2 Block.attn Block.mlp Attention.num_heads
    Attention.window_size Attention.relative_position_bias_table
    Attention.relative_position_index Attention.q_bias Attention.k_bias
    Attention.v_bias Attention.qkv Attention.proj Mlp.fc1 Mlp.fc2
    Linear.bias Linear.weight].
  split; [|split; [|split; [|split; [|split]]]].
  - rewrite Ha1, Ha2, Hn1, Hn2. split; apply init_LayerNorm_fresh.
  - rewrite Hag1, Hag2, Hg2, Hg1. done.
  - rewrite Es1, Es3, Es4, Es5. done.
  - rewrite Eb1, Eb2, Eb3. done.
  - rewrite Haq, Hap, Haf1, Haf2, !init_Linear_bias.
    rewrite Hqkv, Hproj, Hfc1, Hfc2, Linear_init_no_bias.
    destruct (Linear.init_bias_length ahd dim t2) as (b2 & -> & E2).
    destruct (Linear.init_bias_length dim hidden t1) as (b3 & -> & E3).
    destruct (Linear.init_bias_length hidden dim t3) as (b4 & -> & E4).
    simpl. by rewrite E2, E3, E4.
  - rewrite Haq, Haf1. rewrite Hap, Haf2.
    rewrite Hqkv, Hproj, Hfc1, Hfc2.
    split; [|split; [|split]];
      try apply rescale_shape; apply init_Linear_shape;
      apply Linear_init_shape.
Qed.

(** The attributes no initialisation pass writes to. *)
Definition config_of (m : t) :=
  (num_classes m, global_pool m, num_features m, embed_dim m,
   grad_checkpointing m, patch_embed m, pos_drop m, rel_pos_bias m).

Lemma build_fields (a : args) (s : nat) :
  let m := (build a s).1 in
  let dim := arg_embed_dim a in
  let pe := PatchEmbed.__init__ (img_size a) (patch_size a) (in_chans a)
              dim in
  let avg := String.eqb (arg_global_pool a) "avg" in
  config_of m
  = (arg_num_classes a, arg_global_pool a, dim, dim, false, pe,
     Dropout.mk (drop_rate a),
     if use_shared_rel_pos_bias a
     then Some (RelativePositionBias.__init__ (PatchEmbed.grid_size pe)
                  (num_heads a))
     else None)
  /\ norm m = (if avg then NormIdentity
               else NormLayer (LayerNorm.__init__ (norm_eps a) dim))
  /\ fc_norm m = (if avg then Some (LayerNorm.__init__ (norm_eps a) dim)
                  else None)
  /\ cls_token m = [Tensor.zeros dim]
  /\ pos_embed m
     = (if use_abs_pos_emb a
        then Some (replicate (PatchEmbed.num_patches pe + 1)
                     (Tensor.zeros dim))
        else None)
  /\ exists s', head m = (make_head dim (arg_num_classes a) s').1.
Proof.
  intros m dim pe avg. subst m.
  unfold build, mbind, Rand_bind, mret, Rand_ret.
  match goal with
  | |- context [mapM ?f (seq 0 (depth a))] =>
      destruct (mapM (M := Rand) f (seq 0 (depth a)) s) as [bs s1]
  end.
  destruct (make_head (arg_embed_dim a) (arg_num_classes a) s1)
    as [hd s2] eqn:Hhd.
  simpl. repeat split. exists s1. subst dim. by rewrite Hhd.
Qed.

Lemma apply__init_weights_fields (m : t) (s : nat) :
  let m' := (apply__init_weights m s).1 in
  config_of m' = config_of m
  /\ cls_token m' = cls_token m /\ pos_embed m' = pos_embed m
  /\ norm m' = match norm m with
               | NormLayer l => NormLayer (_init_weights_LayerNorm l)
               | NormIdentity => NormIdentity
               end
  /\ fc_norm m' = _init_weights_LayerNorm <$> fc_norm m
  /\ exists s', head m' = (apply_head (head m) s').1.
Proof.
  intros m'. subst m'.
  unfold apply__init_weights, mbind, Rand_bind, mret, Rand_ret.
  destruct (mapM (M := Rand) apply_Block (blocks m) s) as [bs s1].
  destruct (apply_head (head m) s1) as [hd s2] eqn:Hhd.
  simpl. repeat split. exists s1. by rewrite Hhd.
Qed.

Lemma init_tokens_fields (m : t) (s : nat) :
  let m' := (init_tokens m s).1 in
  config_of m' = config_of m
  /\ norm m' = norm m /\ fc_norm m' = fc_norm m /\ head m' = head m
  /\ (exists s', cls_token m' = (trunc_normal_ (cls_token m) (2 # 100) s').1)
  /\ match pos_embed m with
     | Some pe =>
         exists s', pos_embed m' = Some (trunc_normal_ pe (2 # 100) s').1
     | None => pos_embed m' = None
     end.
Proof.
  intros m'. subst m'.
  unfold init_tokens, mbind, Rand_bind, mret, Rand_ret.
  destruct (pos_embed m) as [pe|]; unfold fmap, Rand_fmap.
  - destruct (trunc_normal_ pe (2 # 100) s) as [pe' s1] eqn:Hpe.
    destruct (trunc_normal_ (cls_token m) (2 # 100) s1) as [ct s2] eqn:Hct.
    simpl. repeat split.
    + exists s1. by rewrite Hct.
    + exists s. by rewrite Hpe.
  - destruct (trunc_normal_ (cls_token m) (2 # 100) s) as [ct s2] eqn:Hct.
    simpl. repeat split. exists s. by rewrite Hct.
Qed.

Lemma init_head_fields (scale : Q) (m : t) (s : nat) :
  let m' := (init_head scale m s).1 in
  config_of m' = config_of m
  /\ norm m' = norm m /\ fc_norm m' = fc_norm m
  /\ cls_token m' = cls_token m /\ pos_embed m' = pos_embed m
  /\ head m'
     = match head m with
       | HeadLinear l =>
           HeadLinear
             (Linear.mk
                ((fun row : vec => Tensor.muls row scale)
                   <$> (trunc_normal_ (Linear.weight l) (2 # 100) s).1)
                ((fun b : vec => Tensor.muls b scale) <$> Linear.bias l))
       | HeadIdentity => HeadIdentity
       end.
Proof.
  intros m'. subst m'. unfold init_head.
  destruct (head m) as [|l] eqn:Hh; [simpl; by repeat split|].
  unfold mbind, Rand_bind, mret, Rand_ret.
  by destruct (trunc_normal_ (Linear.weight l) (2 # 100) s).
Qed.

(** The attributes of a constructed model outside its blocks. *)
Lemma init_fields (a : args) (s : nat) :
  let m := (__init__ a s).1 in
  let dim := arg_embed_dim a in
  let pe := PatchEmbed.__init__ (img_size a) (patch_size a) (in_chans a)
              dim in
  let avg := String.eqb (arg_global_pool a) "avg" in
  let ln := LayerNorm.mk (norm_eps a) (Tensor.ones dim) (Tensor.zeros dim) in
  config_of m
  = (arg_num_classes a, arg_global_pool a, dim, dim, false, pe,
     Dropout.mk (drop_rate a),
     if use_shared_rel_pos_bias a
     then Some (RelativePositionBias.__init__ (PatchEmbed.grid_size pe)
                  (num_heads a))
     else None)
  /\ norm m = (if avg then NormIdentity else NormLayer ln)
  /\ fc_norm m = (if avg then Some ln else None)
  /\ (exists s', cls_token m
                 = (trunc_normal_ [Tensor.zeros dim] (2 # 100) s').1)
  /\ (if use_abs_pos_emb a
      then exists s',
             pos_embed m
             = Some (trunc_normal_
                       (replicate (PatchEmbed.num_patches pe + 1)
                          (Tensor.zeros dim)) (2 # 100) s').1
      else pos_embed m = None)
  /\ exists s1 s2 s3,
       head m
       = match (apply_head (make_head dim (arg_num_classes a) s1).1 s2).1 with
         | HeadLinear l =>
             HeadLinear
               (Linear.mk
                  ((fun row : vec => Tensor.muls row (head_init_scale a))
                     <$> (trunc_normal_ (Linear.weight l) (2 # 100) s3).1)
                  ((fun b : vec => Tensor.muls b (head_init_scale a))
                     <$> Linear.bias l))
         | HeadIdentity => HeadIdentity
         end.
Proof.
  intros m dim pe avg ln. subst m.
  unfold __init__, generic_init, mbind, Rand_bind.
  destruct (build_fields a s) as (Hc0 & Hn0 & Hf0 & Hct0 & Hpe0 & t1 & Hh0).
  destruct (build a s) as [m0 s0]. cbn [fst] in *.
  destruct (apply__init_weights_fields m0 s0)
    as (Hc1 & Hct1 & Hpe1 & Hn1 & Hf1 & t2 & Hh1).
  destruct (apply__init_weights m0 s0) as [m1 s1]. cbn [fst] in *.
  destruct (init_tokens_fields m1 s1) as (Hc2 & Hn2 & Hf2 & Hh2 & Hct2 & Hpe2).
  destruct (init_tokens m1 s1) as [m2 s2]. cbn [fst] in *.
  destruct (init_head_fields (head_init_scale a) (fix_init_weight m2) s2)
    as (Hc3 & Hn3 & Hf3 & Hct3 & Hpe3 & Hh3).
  change (config_of (fix_init_weight m2)) with (config_of m2) in Hc3.
  change (norm (fix_init_weight m2)) with (norm m2) in Hn3.
  change (fc_norm (fix_init_weight m2)) with (fc_norm m2) in Hf3.
  change (cls_token (fix_init_weight m2)) with (cls_token m2) in Hct3.
  change (pos_embed (fix_init_weight m2)) with (pos_embed m2) in Hpe3.
  change (head (fix_init_weight m2)) with (head m2) in Hh3.
  rewrite Hc3, Hn3, Hf3, Hct3, Hpe3, Hh3.
  rewrite Hc2, Hn2, Hf2, Hh2, Hc1, Hn1, Hf1, Hh1, Hc0, Hn0, Hf0, Hh0.
  fold dim pe avg. split; [done|].
  split; [destruct avg; [done|]; f_equal; apply init_LayerNorm_fresh|].
  split; [destruct avg; [|done]; simpl; f_equal; apply init_LayerNorm_fresh|].
  split; [destruct Hct2 as [s' ->]; exists s'; by rewrite Hct1, Hct0|].
  split.
  - rewrite Hpe1, Hpe0 in Hpe2. fold dim pe in Hpe2.
    by destruct (use_abs_pos_emb a).
  - by exists t1, t2, s2.
Qed.



(** X12: Relative position bias after construction.  With [use_rel_pos_bias]
    every block owns the index of the patch grid and a zero table of
    [num_relative_distance] rows and [num_heads] columns; without it no
    block owns either.  With [use_shared_rel_pos_bias] the model owns one
    shared module with the same zero table; without it none.  No
    initialisation pass writes to these tables. *)
Theorem init_position_bias (a : args) (s : nat) :
  let m := (__init__ a s).1 in
  let grid := PatchEmbed.grid_size
                (PatchEmbed.__init__ (img_size a) (patch_size a)
                   (in_chans a) (arg_embed_dim a)) in
  let table := replicate (Z.to_nat (RelPos.num_relative_distance grid))
                 (Tensor.zeros (num_heads a)) in
  rel_pos_bias m
  = (if use_shared_rel_pos_bias a
     then Some (RelativePositionBias.mk grid (grid.1 * grid.2) table
                  (RelPos.gen_relative_position_index grid))
     else None)
  /\ Forall (fun b =>
               if use_rel_pos_bias a
               then Attention.window_size (Block.attn b) = Some grid
                    /\ Attention.relative_position_bias_table (Block.attn b)
                       = Some table
                    /\ Attention.relative_position_index (Block.attn b)
                       = Some (RelPos.gen_relative_position_index grid)
               else Attention.window_size (Block.attn b) = None
                    /\ Attention.relative_position_bias_table (Block.attn b)
                       = None
                    /\ Attention.relative_position_index (Block.attn b)
                       = None)
       (blocks m).
Proof.
  intros m grid table. split.
  - destruct (init_fields a s) as (Hc & _). fold m in Hc.
    injection Hc as _ _ _ _ _ _ _ ->. done.
  - apply Forall_lookup. intros k b Hb.
    destruct (init_blocks_lookup a s k b Hb) as (_ & s1 & s2 & ->).
    destruct (constructed_block a k s1 s2)
      as (_ & _ & (_ & Hws & Ht & Hx) & _).
    rewrite Hws, Ht, Hx. by destruct (use_rel_pos_bias a).
Qed.

(** X13: The pooling mode is bound by the constructor: with
    [global_pool = "avg"] the trailing [norm] is the identity and
    [fc_norm] is a fresh layer norm applied to the mean of the tokens after
    the first; with any other value [norm] is a fresh layer norm,
    [fc_norm] is absent and the pooled feature is the first token. *)
Theorem init_pooling (a : args) (s : nat) (x : tensor3) :
  let m := (__init__ a s).1 in
  let dim := arg_embed_dim a in
  let ln := LayerNorm.mk (norm_eps a) (Tensor.ones dim) (Tensor.zeros dim) in
  if String.eqb (arg_global_pool a) "avg"
  then norm m = NormIdentity /\ fc_norm m = Some ln
       /\ forward_head m x true
          = (fun xb : mat =>
               LayerNorm.forward ln (Tensor.mean_rows dim (drop 1 xb))) <$> x
  else norm m = NormLayer ln /\ fc_norm m = None
       /\ forward_head m x true
          = (fun xb : mat => default [] (xb !! 0%nat)) <$> x.
Proof.
  intros m dim ln.
  destruct (init_fields a s) as (Hc & Hn & Hf & _). fold m dim ln in Hc, Hn, Hf.
  unfold forward_head, pool. rewrite Hn, Hf.
  injection Hc as _ _ _ -> _ _ _ _.
  by destruct (String.eqb (arg_global_pool a) "avg").
Qed.

Lemma muls_zeros (n : nat) (scale : Q) :
  Forall (fun v => (v == 0)%Q) (Tensor.muls (Tensor.zeros n) scale).
Proof.
  unfold Tensor.muls, Tensor.zeros. rewrite fmap_replicate.
  apply Forall_replicate. apply Qmult_0_l.
Qed.

Lemma init_head_linear (a : args) (s : nat) :
  (0 < arg_num_classes a)%Z ->
  let k := Z.to_nat (arg_num_classes a) in
  exists l b w s',
    head (__init__ a s).1 = HeadLinear l
    /\ shape2 k (arg_embed_dim a) (Linear.weight l)
    /\ Linear.weight l
       = (fun row : vec => Tensor.muls row (head_init_scale a))
           <$> (trunc_normal_ w (2 # 100) s').1
    /\ Linear.bias l = Some b /\ length b = k
    /\ Forall (fun v => (v == 0)%Q) b.
Proof.
  intros Hpos k.
  destruct (init_fields a s) as (_ & _ & _ & _ & _ & s1 & s2 & s3 & Hh).
  rewrite Hh. clear Hh. unfold make_head.
  destruct (Z.ltb_spec 0 (arg_num_classes a)); [|lia].
  unfold fmap at 1, Rand_fmap.
  pose proof (Linear_init_shape (arg_embed_dim a) k true s1) as Hshape.
  destruct (Linear.init_bias_length (arg_embed_dim a) k s1)
    as (b0 & Hb0 & Hlen). fold k.
  destruct (Linear.__init__ (arg_embed_dim a) k true s1) as [l0 t1].
  cbn [fst] in *. unfold apply_head, fmap, Rand_fmap.
  pose proof (init_Linear_shape l0 s2 _ _ Hshape) as Hshape1.
  pose proof (init_Linear_bias l0 s2) as Hbias1. rewrite Hb0 in Hbias1.
  destruct (_init_weights_Linear l0 s2) as [l1 t2]. cbn [fst] in *.
  eexists _, _, (Linear.weight l1), s3. split; [done|].
  cbn [Linear.weight Linear.bias]. rewrite Hbias1. cbn.
  split; [|split; [done|split; [done|split]]].
  - destruct (trunc_normal_shape (Linear.weight l1) (2 # 100) s3 _ _ Hshape1)
      as [Hr Hc].
    split; [by rewrite length_fmap|].
    apply Forall_fmap. eapply Forall_impl; [exact Hc|].
    intros row Hrow. simpl. unfold Tensor.muls. by rewrite length_fmap.
  - unfold Tensor.muls, Tensor.zeros. rewrite length_fmap, length_replicate.
    done.
  - rewrite Hlen. apply muls_zeros.
Qed.

(** X14: The head after construction.  For [num_classes > 0] it is a linear
    layer of shape [num_classes x embed_dim] whose weight is a
    [trunc_normal_] draw multiplied by [head_init_scale] and whose bias has
    [num_classes] entries, all equal to zero; for [num_classes <= 0],
    negative values included, it is the identity. *)
Theorem init_head_state (a : args) (s : nat) :
  let m := (__init__ a s).1 in
  let k := Z.to_nat (arg_num_classes a) in
  if (0 <? arg_num_classes a)%Z
  then exists l b w s',
         head m = HeadLinear l
         /\ shape2 k (arg_embed_dim a) (Linear.weight l)
         /\ Linear.weight l
            = (fun row : vec => Tensor.muls row (head_init_scale a))
                <$> (trunc_normal_ w (2 # 100) s').1
         /\ Linear.bias l = Some b /\ length b = k
         /\ Forall (fun v => (v == 0)%Q) b
  else head m = HeadIdentity.
Proof.
  intros m k. destruct (Z.ltb_spec 0 (arg_num_classes a)) as [Hpos|Hneg].
  - by apply init_head_linear.
  - destruct (init_fields a s) as (_ & _ & _ & _ & _ & s1 & s2 & s3 & Hh).
    fold m in Hh. rewrite Hh. unfold make_head.
    destruct (Z.ltb_spec 0 (arg_num_classes a)); [lia|]. done.
Qed.

(** *** The drop-path schedule for every depth *)

Lemma linspace_lookup_value (stop : Q) (steps i : nat) (r : Q) :
  linspace 0 stop steps !! i = Some r ->
  (i < steps)%nat
  /\ (r == inject_Z (Z.of_nat i)
            * (stop / inject_Z (Z.of_nat (steps - 1))))%Q.
Proof.
  unfold linspace. destruct steps as [|[|n]].
  - done.
  - destruct i as [|i]; [|done]. intros [= <-]. split; [lia|]. simpl.
    by rewrite Qmult_0_l.
  - rewrite list_lookup_fmap.
    destruct (seq 0 (S (S n)) !! i) as [i0|] eqn:Hi; [|done].
    apply lookup_seq in Hi as [-> Hi]. simpl. intros [= <-].
    split; [done|]. unfold Qminus, Qdiv. ring.
Qed.

Lemma inject_nat_le (i j : nat) :
  (i <= j)%nat -> (inject_Z (Z.of_nat i) <= inject_Z (Z.of_nat j))%Q.
Proof. intros Hij. rewrite <- Zle_Qle. lia. Qed.

Lemma linspace_step_sign (stop : Q) (steps : nat) :
  ((0 <= stop)%Q -> (0 <= stop / inject_Z (Z.of_nat (steps - 1)))%Q)
  /\ ((stop <= 0)%Q -> (stop / inject_Z (Z.of_nat (steps - 1)) <= 0)%Q).
Proof.
  destruct (steps - 1)%nat as [|c] eqn:Hc.
  - unfold Qdiv. simpl. rewrite Qmult_0_r. split; intros _; apply Qle_refl.
  - assert (Hpos : (0 < inject_Z (Z.of_nat (S c)))%Q).
    { rewrite <- (Zlt_Qlt 0). lia. }
    split; intros Hs.
    + apply Qle_shift_div_l; [done|]. by rewrite Qmult_0_l.
    + apply Qle_shift_div_r; [done|]. by rewrite Qmult_0_l.
Qed.

(** X15: With a non-negative [drop_path_rate] and any depth, stochastic
    depth never decreases along the blocks.  Block [i] holds
    [DropPath(dpr[i])] when entry [i] of the schedule is positive and
    [nn.Identity()] otherwise; for [i <= j] the rates satisfy
    [0 <= dpr[i] <= dpr[j] <= drop_path_rate]; so once a block holds a
    [DropPath], every later block holds one with a rate at least as
    large. *)
Theorem drop_path_monotone (a : args) (s : nat) (i j : nat)
    (bi bj : Block.t) :
  (0 <= drop_path_rate a)%Q ->
  let dpr := linspace 0 (drop_path_rate a) (depth a) in
  let m := (__init__ a s).1 in
  (i <= j)%nat ->
  blocks m !! i = Some bi -> blocks m !! j = Some bj ->
  exists ri rj,
    dpr !! i = Some ri /\ dpr !! j = Some rj
    /\ ((0 <= ri)%Q /\ (ri <= rj)%Q /\ (rj <= drop_path_rate a)%Q)
    /\ (((0 < ri)%Q -> Block.drop_path bi = DropPath.DropPath ri)
        /\ ((ri <= 0)%Q -> Block.drop_path bi = DropPath.Identity))
    /\ (((0 < rj)%Q -> Block.drop_path bj = DropPath.DropPath rj)
        /\ ((rj <= 0)%Q -> Block.drop_path bj = DropPath.Identity))
    /\ (forall p, Block.drop_path bi = DropPath.DropPath p ->
          p = ri /\ (0 < p)%Q /\ Block.drop_path bj = DropPath.DropPath rj).
Proof.
  intros Hrate dpr m Hij Hbi Hbj.
  destruct (init_block_drop_path a s i bi Hbi) as (ri & Hri & Hip & Hin).
  destruct (init_block_drop_path a s j bj Hbj) as (rj & Hrj & Hjp & Hjn).
  fold dpr in Hri, Hrj.
  assert (Hbounds : (0 <= ri)%Q /\ (ri <= rj)%Q
                    /\ (rj <= drop_path_rate a)%Q).
  { destruct (linspace_lookup_value _ _ _ _ Hri) as [Hi Hvi].
    destruct (linspace_lookup_value _ _ _ _ Hrj) as [Hj Hvj].
    destruct (linspace_step_sign (drop_path_rate a) (depth a)) as [Hd _].
    specialize (Hd Hrate).
    set (d := (drop_path_rate a / inject_Z (Z.of_nat (depth a - 1)))%Q) in *.
    pose proof (inject_nat_le 0 i ltac:(lia)) as H0i.
    pose proof (inject_nat_le i j Hij) as Hij'.
    pose proof (inject_nat_le j (depth a - 1) ltac:(lia)) as Hjn'.
    assert (Hn : (inject_Z (Z.of_nat (depth a - 1)) * d
                  <= drop_path_rate a)%Q).
    { subst d. destruct (depth a - 1)%nat as [|c] eqn:Hc.
      - simpl. by rewrite Qmult_0_l.
      - rewrite Qmult_div_r; [apply Qle_refl|].
        unfold Qeq, inject_Z. simpl. lia. }
    change (inject_Z (Z.of_nat 0)) with 0%Q in H0i.
    rewrite Hvi, Hvj. repeat split; nra. }
  exists ri, rj. do 2 (split; [done|]). split; [exact Hbounds|].
  split; [by split|]. split; [by split|].
  intros p Hp. destruct Hbounds as (H0 & Hle & _).
  destruct (Qlt_le_dec 0 ri) as [Hpos|Hnonpos].
  - rewrite (Hip Hpos) in Hp. injection Hp as <-.
    split; [done|]. split; [done|].
    apply Hjp. by eapply Qlt_le_trans.
  - rewrite (Hin Hnonpos) in Hp. discriminate.
Qed.

Lemma nonpositive_rate_identity (a : args) (s : nat) :
  (drop_path_rate a <= 0)%Q ->
  Forall (fun b => Block.drop_path b = DropPath.Identity)
    (blocks (__init__ a s).1).
Proof.
  intros Hrate.
  apply Forall_fmap with (f := Block.drop_path)
                         (P := fun d => d = DropPath.Identity).
  rewrite init_drop_path. apply Forall_fmap, Forall_forall.
  intros i _. simpl. unfold drop_path_module.
  destruct (linspace 0 (drop_path_rate a) (depth a) !! i) as [r|] eqn:Hr;
    simpl; [|done].
  apply linspace_lookup_value in Hr as [Hi Hr].
  destruct (linspace_step_sign (drop_path_rate a) (depth a)) as [_ Hd].
  specialize (Hd Hrate).
  pose proof (inject_nat_le 0 i ltac:(lia)) as H0i.
  change (inject_Z (Z.of_nat 0)) with 0%Q in H0i.
  assert (Hle : (r <= 0)%Q) by (rewrite Hr; nra).
  apply Qle_bool_iff in Hle. by rewrite Hle.
Qed.

(** X16: Stochastic depth is off unless asked for: with
    [drop_path_rate <= 0], the default [0.0] included, the model has
    [depth] blocks and each holds [nn.Identity()] as its [drop_path], so
    it returns its input in training mode too. *)
Theorem drop_path_disabled (a : args) (s : nat) :
  (drop_path_rate a <= 0)%Q ->
  length (blocks (__init__ a s).1) = depth a
  /\ Forall (fun b =>
               Block.drop_path b = DropPath.Identity
               /\ forall training x,
                    DropPath.forward training (Block.drop_path b) x = x)
       (blocks (__init__ a s).1).
Proof.
  intros Hrate. split; [apply init_blocks_length|].
  eapply Forall_impl; [by apply nonpositive_rate_identity|].
  intros b Hb. split; [done|]. intros training x. by rewrite Hb.
Qed.

(** *** Parameter names, tokens, head replacement, pooling *)

Lemma contains_app_r (sub pre s : string) :
  contains sub s = true -> contains sub (pre +:+ s) = true.
Proof.
  intros Hs. induction pre as [|c pre IH]; [done|].
  change (String c pre +:+ s) with (String c (pre +:+ s)).
  cbn [contains]. rewrite IH. apply orb_true_r.
Qed.

Lemma block_table_name (b : Block.t) :
  is_Some (Attention.relative_position_bias_table (Block.attn b)) ->
  "attn.relative_position_bias_table" ∈ Block.named_parameters b.
Proof.
  intros [tb Htb]. unfold Block.named_parameters, Attention.named_parameters.
  rewrite Htb. unfold prefixed. rewrite !elem_of_app.
  right; right; right; left. rewrite !fmap_app, !elem_of_app.
  right; right; left. apply list_elem_of_singleton. reflexivity.
Qed.

(** X17: With [use_rel_pos_bias], the table of every block is exempt from
    weight decay: for each [k < depth] the parameter name
    ["blocks.<k>.attn.relative_position_bias_table"] is in
    [no_weight_decay()]. *)
Theorem no_weight_decay_block_tables (a : args) (s k : nat) :
  use_rel_pos_bias a = true -> (k < depth a)%nat ->
  let name := ("blocks." +:+ pretty k) +:+ "."
              +:+ "attn.relative_position_bias_table" in
  name ∈ named_parameters (__init__ a s).1
  /\ name ∈ no_weight_decay (__init__ a s).1.
Proof.
  intros Hrel Hk name.
  assert (Hin : name ∈ named_parameters (__init__ a s).1).
  { destruct (lookup_lt_is_Some_2 (blocks (__init__ a s).1) k) as [b Hb];
      [by rewrite init_blocks_length|].
    assert (Htb : is_Some
              (Attention.relative_position_bias_table (Block.attn b))).
    { destruct (init_blocks_lookup a s k b Hb) as (_ & s1 & s2 & ->).
      destruct (constructed_block a k s1 s2)
        as (_ & _ & (_ & _ & Ht & _) & _).
      rewrite Ht, Hrel. simpl. eauto. }
    unfold named_parameters. rewrite !elem_of_app.
    right; right; right; right; left.
    apply list_elem_of_In, in_concat.
    exists (prefixed ("blocks." +:+ pretty k) (Block.named_parameters b)).
    split; apply list_elem_of_In.
    - by apply (elem_of_lookup_imap_2
                  (fun i b => prefixed ("blocks." +:+ pretty i)
                                (Block.named_parameters b))).
    - apply (list_elem_of_fmap_2
               (fun p => ("blocks." +:+ pretty k) +:+ "." +:+ p)).
      by apply block_table_name. }
  split; [exact Hin|].
  apply no_weight_decay_elem. right; right. split; [exact Hin|].
  subst name. apply contains_app_r, contains_app_r. reflexivity.
Qed.

(** X18: The token parameters after construction: [cls_token] is one row of
    [embed_dim] entries; [pos_embed] has one row of [embed_dim] entries per
    patch plus one when [use_abs_pos_emb] is set, and is absent
    otherwise. *)
Theorem init_token_shapes (a : args) (s : nat) :
  let m := (__init__ a s).1 in
  let g := (img_size a / patch_size a)%nat in
  shape2 1 (arg_embed_dim a) (cls_token m)
  /\ if use_abs_pos_emb a
     then exists pe, pos_embed m = Some pe
                     /\ shape2 (g * g + 1) (arg_embed_dim a) pe
     else pos_embed m = None.
Proof.
  intros m g.
  destruct (init_fields a s) as (_ & _ & _ & [s1 Hct] & Hpe & _).
  fold m in Hct, Hpe. split.
  - rewrite Hct. apply trunc_normal_shape. split; [done|].
    repeat constructor. apply length_replicate.
  - destruct (use_abs_pos_emb a); [|done].
    destruct Hpe as [s2 Hpe]. eexists. split; [exact Hpe|].
    apply trunc_normal_shape. split; [apply length_replicate|].
    apply Forall_replicate, length_replicate.
Qed.

(** X19: Two calls of [reset_classifier] in a row leave no trace of the first
    one's head: the result is the model a single call would give, with the
    second number of classes and the last pooling name that was passed. *)
Theorem reset_classifier_twice (m : t) (k1 k2 : Z) (g1 g2 : option string)
    (s1 s2 : nat) :
  (reset_classifier (reset_classifier m k1 g1 s1).1 k2 g2 s2).1
  = (reset_classifier m k2
       (match g2 with Some g => Some g | None => g1 end) s2).1.
Proof.
  unfold reset_classifier at 1 3, mbind, Rand_bind, mret, Rand_ret.
  destruct (reset_classifier_fields m k1 g1 s1) as (_ & Hg & _ & Hrest).
  set (m1 := (reset_classifier m k1 g1 s1).1) in *.
  injection Hrest as -> -> -> -> -> -> -> -> -> -> ->. rewrite Hg.
  destruct (make_head (embed_dim m) k2 s2) as [hd t]. simpl.
  by destruct g2, g1.
Qed.

(** X20: What the pooled features read.  With an [fc_norm] (average pooling)
    the first token of every sequence is ignored; without one (class-token
    pooling) only the first token is read. *)
Theorem forward_head_tokens (m : t) (x x' : tensor3) (pre_logits : bool) :
  Forall2 (fun xb xb' : mat =>
             match fc_norm m with
             | Some _ => drop 1 xb = drop 1 xb'
             | None => xb !! 0%nat = xb' !! 0%nat
             end) x x' ->
  forward_head m x pre_logits = forward_head m x' pre_logits.
Proof.
  intros Hx. unfold forward_head.
  assert (Hpool : pool m x = pool m x').
  { unfold pool. destruct (fc_norm m) as [l|].
    - induction Hx as [|xb xb' x x' Hb _ IH]; [done|].
      rewrite !fmap_cons. by rewrite Hb, IH.
    - induction Hx as [|xb xb' x x' Hb _ IH]; [done|].
      rewrite !fmap_cons. by rewrite Hb, IH. }
  by rewrite Hpool.
Qed.

(** *** Samples of a batch are processed independently *)

(** [forward_features] on one image. *)
Definition features_sample (training : bool) (m : t) (img : tensor3) : mat :=
  let shared := RelativePositionBias.forward <$> rel_pos_bias m in
  let xb := cls_token m ++ patch_embed_forward img in
  let xb := match pos_embed m with
            | Some pe => Tensor.add2 xb pe
            | None => xb
            end in
  let xb := Dropout.forward training (pos_drop m) <$> xb in
  let xb := foldl (fun y blk => Block.forward_sample training blk y shared)
              xb (blocks m) in
  match norm m with
  | NormLayer l => LayerNorm.forward l <$> xb
  | NormIdentity => xb
  end.

Lemma foldl_forward_fmap (training : bool) (shared : option tensor3)
    (bs : list Block.t) (y : tensor3) :
  foldl (fun y blk => Block.forward training blk y shared) y bs
  = (fun yb => foldl (fun y blk =>
                        Block.forward_sample training blk y shared) yb bs)
      <$> y.
Proof.
  revert y. induction bs as [|blk bs IH]; intros y; simpl.
  - by rewrite list_fmap_id.
  - by rewrite IH, Block.forward_fmap, <- list_fmap_compose.
Qed.

Lemma forward_features_fmap (training : bool) (m : t) (x : tensor4) :
  forward_features training m x = features_sample training m <$> x.
Proof.
  unfold forward_features, PatchEmbed.forward, Tensor.add_bcast3.
  rewrite foldl_forward_fmap.
  destruct (pos_embed m) as [pe|] eqn:Hpe, (norm m) as [|l] eqn:Hn;
    rewrite <- ?list_fmap_compose; apply list_fmap_ext; intros _ img _;
    unfold compose, features_sample; by rewrite Hpe, Hn.
Qed.

(** X21: The output for a sample does not depend on the rest of the batch: in
    inference mode the model applied to two batches put together returns
    the two outputs put together, and so does [forward_features]. *)
Theorem forward_batch (m : t) (x1 x2 : tensor4) :
  forward false m (x1 ++ x2) = forward false m x1 ++ forward false m x2
  /\ forward_features false m (x1 ++ x2)
     = forward_features false m x1 ++ forward_features false m x2.
Proof.
  assert (Hff : forward_features false m (x1 ++ x2)
                = forward_features false m x1
                  ++ forward_features false m x2)
    by (by rewrite !forward_features_fmap, fmap_app).
  split; [|exact Hff].
  unfold forward, forward_head, pool. rewrite Hff.
  destruct (fc_norm m), (head m); by rewrite !fmap_app.
Qed.

(** *** Shapes through a block and through the model *)

(** [ob] has the token count of [xb] and rows of [dim] entries. *)
Definition same_shape (dim : nat) (xb ob : mat) : Prop :=
  length ob = length xb /\ Forall (fun r => length r = dim) ob.

Lemma biases_fit_ext (m : Attention.t) (shared : option tensor3)
    (x y : tensor3) :
  Forall2 (fun xb yb : mat => length yb = length xb) x y ->
  Attention.biases_fit m shared x -> Attention.biases_fit m shared y.
Proof.
  intros Hxy [Hown Hsh]. split.
  - destruct (Attention.relative_position_bias_table m) as [tb|]; [|done].
    destruct Hown as (h & w & Hws & Hc & Hx). exists h, w.
    split; [done|]. split; [done|].
    eapply Forall2_Forall_r; [exact Hxy|].
    eapply Forall_impl; [exact Hx|]. intros xb Hxb yb ->. done.
  - destruct shared as [sh|]; [|done]. destruct Hsh as [Hl Hx].
    split; [done|].
    eapply Forall2_Forall_r; [exact Hxy|].
    eapply Forall_impl; [exact Hx|]. intros xb Hxb yb Hyb.
    eapply Forall_impl; [exact Hxb|]. intros bh Hbh. simpl in *. lia.
Qed.

Lemma gate_shape (dim : nat) (g : option nn_Parameter) (x t : tensor3) :
  match g with Some p => length (data p) = dim | None => True end ->
  Forall2 (same_shape dim) x t -> Forall2 (same_shape dim) x (Block.gate g t).
Proof.
  intros Hg Ht. unfold Block.gate. destruct g as [p|]; [|done].
  apply Forall2_fmap_r. eapply Forall2_impl; [exact Ht|].
  intros xb tb [Hl Hr]. split; [by rewrite length_fmap|].
  apply Forall_fmap. eapply Forall_impl; [exact Hr|].
  intros r Hrl. simpl in *. unfold Tensor.mul_last.
  rewrite length_zip_with. lia.
Qed.

Lemma drop_path_inference (d : DropPath.t) (t : tensor3) :
  fmap (M := list) (DropPath.forward false d) t = t.
Proof.
  rewrite <- (list_fmap_id t) at 2. apply list_fmap_ext.
  intros _ y _. by destruct d.
Qed.

Lemma residual_shape (dim : nat) (x t : tensor3) :
  Forall (Forall (fun r : vec => length r = dim)) x ->
  Forall2 (same_shape dim) x t ->
  Forall2 (same_shape dim) x (Tensor.add3 x t)
  /\ Forall (Forall (fun r : vec => length r = dim)) (Tensor.add3 x t).
Proof.
  intros Hx Ht.
  assert (H2 : Forall2 (same_shape dim) x (Tensor.add3 x t)).
  { unfold Tensor.add3.
    apply Forall2_same_length_lookup_2.
    - rewrite length_zip_with. apply Forall2_length in Ht. lia.
    - intros i xb ob Hxb. rewrite lookup_zip_with, Hxb. simpl.
      destruct (t !! i) as [tb|] eqn:Htb; [simpl|done]. intros [= <-].
      destruct (Forall2_lookup_lr _ _ _ _ _ _ Ht Hxb Htb) as [Hl Hr].
      pose proof (Forall_lookup_1 _ _ _ _ Hx Hxb) as Hxr. simpl in Hxr.
      unfold Tensor.add2. split; [rewrite length_zip_with; lia|].
      apply Forall_lookup. intros j r. rewrite lookup_zip_with.
      destruct (xb !! j) as [xr|] eqn:Hxj; [simpl|done].
      destruct (tb !! j) as [tr|] eqn:Htj; [simpl|done]. intros [= <-].
      pose proof (Forall_lookup_1 _ _ _ _ Hxr Hxj) as E1.
      pose proof (Forall_lookup_1 _ _ _ _ Hr Htj) as E2. simpl in *.
      unfold Tensor.add1. rewrite length_zip_with. lia. }
  split; [exact H2|].
  eapply Forall2_Forall_r; [exact H2|].
  apply Forall_forall. by intros xb _ ob [_ Hr].
Qed.

(** A block keeps the shape of its input in inference mode, provided its
    output projections produce [dim] features, its gammas have [dim]
    entries and the position biases fit the batch. *)
Lemma block_forward_shape (b : Block.t) (shared : option tensor3)
    (x : tensor3) (dim : nat) (pb fb : vec) :
  Linear.bias (Attention.proj (Block.attn b)) = Some pb ->
  length pb = dim ->
  length (Linear.weight (Attention.proj (Block.attn b))) = dim ->
  Linear.bias (Mlp.fc2 (Block.mlp b)) = Some fb ->
  length fb = dim ->
  length (Linear.weight (Mlp.fc2 (Block.mlp b))) = dim ->
  match Block.gamma_1 b with
  | Some p => length (data p) = dim
  | None => True
  end ->
  match Block.gamma_2 b with
  | Some p => length (data p) = dim
  | None => True
  end ->
  Attention.biases_fit (Block.attn b) shared x ->
  Forall (Forall (fun r : vec => length r = dim)) x ->
  Forall2 (same_shape dim) x (Block.forward false b x shared).
Proof.
  intros Hpb Hpl Hpw Hfb Hfl Hfw Hg1 Hg2 Hfit Hx.
  assert (Hattn : Forall2 (same_shape dim) x
                    (Block.attn_branch false b x shared)).
  { unfold Block.attn_branch.
    set (y := fmap (M := list) (fmap (M := list)
                (LayerNorm.forward (Block.norm1 b))) x).
    assert (Hxy : Forall2 (fun xb yb : mat => length yb = length xb) x y).
    { subst y. apply Forall2_fmap_r, Forall_Forall2_diag, Forall_forall.
      intros xb _. simpl. by rewrite length_fmap. }
    pose proof (Attention.forward_shape_fit (Block.attn b) shared y pb Hpb
                  ltac:(lia) (biases_fit_ext _ _ _ _ Hxy Hfit)) as Hy.
    apply Forall2_same_length_lookup_2.
    - apply Forall2_length in Hxy, Hy. lia.
    - intros i xb ob Hxb Hob.
      destruct (Forall2_lookup_l _ _ _ _ _ Hxy Hxb) as (yb & Hyb & Hl).
      destruct (Forall2_lookup_lr _ _ _ _ _ _ Hy Hyb Hob) as [Hl' Hr].
      split; [lia|]. by rewrite <- Hpw. }
  assert (Hmlp : forall z : tensor3,
            Forall2 (same_shape dim) z (Block.mlp_branch false b z)).
  { intros z. unfold Block.mlp_branch.
    apply Forall2_fmap_r, Forall_Forall2_diag, Forall_forall.
    intros zb _. simpl. split; [by rewrite length_fmap|].
    apply Forall_fmap, Forall_forall. intros r _. simpl.
    unfold Mlp.forward, Dropout.forward.
    rewrite (Linear.forward_length _ fb) by (done || lia). done. }
  assert (Hstep : forall (g1 g2 : option nn_Parameter),
    match g1 with Some p => length (data p) = dim | None => True end ->
    match g2 with Some p => length (data p) = dim | None => True end ->
    Forall2 (same_shape dim) x
      (let x1 := Tensor.add3 x
                   (fmap (M := list)
                      (DropPath.forward false (Block.drop_path b))
                      (Block.gate g1
                         (Block.attn_branch false b x shared))) in
       Tensor.add3 x1
         (fmap (M := list) (DropPath.forward false (Block.drop_path b))
            (Block.gate g2 (Block.mlp_branch false b x1))))).
  { intros g1 g2 Hgl1 Hgl2. cbv zeta. rewrite !drop_path_inference.
    destruct (residual_shape dim x _ Hx (gate_shape dim g1 _ _ Hgl1 Hattn))
      as [H1 Hx1].
    set (x1 := Tensor.add3 x _) in *.
    destruct (residual_shape dim x1 _ Hx1
                (gate_shape dim g2 _ _ Hgl2 (Hmlp x1))) as [H2 _].
    apply Forall2_same_length_lookup_2.
    - apply Forall2_length in H1, H2. lia.
    - intros i xb ob Hxb Hob.
      destruct (Forall2_lookup_l _ _ _ _ _ H1 Hxb) as (yb & Hyb & Hl & _).
      destruct (Forall2_lookup_lr _ _ _ _ _ _ H2 Hyb Hob) as [Hl' Hr].
      split; [lia|done]. }
  unfold Block.forward.
  destruct (Block.gamma_1 b) as [p1|] eqn:E1.
  - exact (Hstep (Some p1) (Block.gamma_2 b) Hg1 Hg2).
  - exact (Hstep None None I I).
Qed.

Lemma same_shape_shape2 (n dim : nat) (x y : tensor3) :
  Forall2 (same_shape dim) x y ->
  Forall (fun xb : mat => length xb = n) x ->
  length y = length x /\ Forall (shape2 n dim) y.
Proof.
  intros Hxy Hx. split; [symmetry; by eapply Forall2_length|].
  apply Forall_lookup. intros i ob Hob.
  destruct (Forall2_lookup_r _ _ _ _ _ Hxy Hob) as (xb & Hxb & Hl & Hr).
  pose proof (Forall_lookup_1 _ _ _ _ Hx Hxb) as Hn. simpl in Hn.
  split; [lia|done].
Qed.

Lemma num_relative_distance_square (n : nat) :
  (0 < Z.to_nat (RelPos.num_relative_distance (n, n)))%nat.
Proof. unfold RelPos.num_relative_distance. simpl. nia. Qed.

(** A block as the constructor leaves it keeps the shape of a batch of
    [g * g + 1] tokens of [embed_dim] features, whatever shared bias of
    matching shape it is handed. *)
Lemma constructed_block_shape (a : args) (k s1 s2 : nat)
    (shared : option tensor3) (x : tensor3) :
  let b := rescale_layer k (apply_Block (block_init a k s1).1 s2).1 in
  let dim := arg_embed_dim a in
  let g := (img_size a / patch_size a)%nat in
  match shared with
  | Some sh => length sh = num_heads a
               /\ Forall (fun bh : mat => length bh = (g * g + 1)%nat) sh
  | None => True
  end ->
  Forall (shape2 (g * g + 1) dim) x ->
  Forall2 (same_shape dim) x (Block.forward false b x shared).
Proof.
  intros b dim g Hsh Hx.
  destruct (constructed_block a k s1 s2)
    as (_ & (Hg1 & Hg2) & (Hnh & Hws & Htab & _) & _
        & (_ & Hpb & _ & Hfb) & (_ & [Hpw _] & _ & [Hfw _])).
  fold b dim in Hg1, Hg2, Hnh, Hws, Htab, Hpb, Hfb, Hpw, Hfw.
  assert (Hgam : match Block.gamma_1 b with
                 | Some p => length (data p) = dim
                 | None => True
                 end).
  { rewrite Hg1. destruct (truthy (init_values a)); [|done]. simpl.
    unfold Tensor.smul, Tensor.ones. by rewrite length_fmap, length_replicate. }
  apply (block_forward_shape b shared x dim (Tensor.zeros dim)
           (Tensor.zeros dim)); try done.
  - apply length_replicate.
  - apply length_replicate.
  - by rewrite Hg2.
  - split.
    + rewrite Htab. destruct (use_rel_pos_bias a); [|done].
      cbn [fmap option_fmap option_map].
      exists g, g. split; [exact Hws|]. split.
      * rewrite Hnh, lookup_replicate_2
          by apply num_relative_distance_square.
        simpl. unfold Tensor.zeros. by rewrite length_replicate.
      * eapply Forall_impl; [exact Hx|]. intros xb [Hl _]. simpl. lia.
    + destruct shared as [sh|]; [|done]. destruct Hsh as [Hl Hrows].
      split; [rewrite Hnh; lia|].
      eapply Forall_impl; [exact Hx|]. intros xb [Hxl _]. simpl.
      eapply Forall_impl; [exact Hrows|]. intros bh Hbh. simpl in *. lia.
  - eapply Forall_impl; [exact Hx|]. by intros xb [_ Hr].
Qed.

Lemma init_rel_pos_bias_field (a : args) (s : nat) :
  rel_pos_bias (__init__ a s).1
  = if use_shared_rel_pos_bias a
    then Some (RelativePositionBias.__init__
                 (PatchEmbed.grid_size
                    (PatchEmbed.__init__ (img_size a) (patch_size a)
                       (in_chans a) (arg_embed_dim a)))
                 (num_heads a))
    else None.
Proof.
  destruct (init_fields a s) as (Hc & _). unfold config_of in Hc.
  by injection Hc.
Qed.

Lemma init_shared_bias_shape (a : args) (s : nat) :
  let g := (img_size a / patch_size a)%nat in
  match RelativePositionBias.forward <$> rel_pos_bias (__init__ a s).1 with
  | Some sh => length sh = num_heads a
               /\ Forall (fun bh : mat => length bh = (g * g + 1)%nat) sh
  | None => True
  end.
Proof.
  intros g. rewrite init_rel_pos_bias_field.
  destruct (use_shared_rel_pos_bias a); [|done]. simpl.
  unfold RelativePositionBias.forward, Attention.permute_2_0_1. simpl.
  fold g. split.
  - rewrite length_fmap, length_seq, lookup_replicate_2
      by apply num_relative_distance_square.
    simpl. unfold Tensor.zeros. by rewrite length_replicate.
  - apply Forall_fmap, Forall_forall. intros hd _. simpl.
    unfold view2. by rewrite !length_fmap, length_seq.
Qed.

Lemma init_blocks_shape (a : args) (s : nat) (x : tensor3) :
  let m := (__init__ a s).1 in
  let dim := arg_embed_dim a in
  let g := (img_size a / patch_size a)%nat in
  let shared := RelativePositionBias.forward <$> rel_pos_bias m in
  Forall (fun b => forall y : tensor3,
            Forall (shape2 (g * g + 1) dim) y ->
            Forall2 (same_shape dim) y (Block.forward false b y shared))
    (blocks m).
Proof.
  intros m dim g shared. apply Forall_lookup. intros k b Hb y Hy.
  destruct (init_blocks_lookup a s k b Hb) as (_ & s1 & s2 & ->).
  apply constructed_block_shape; [apply init_shared_bias_shape|exact Hy].
Qed.

Lemma shape2_tokens (n dim : nat) (x : tensor3) :
  Forall (shape2 n dim) x -> Forall (fun xb : mat => length xb = n) x.
Proof. intros Hx. eapply Forall_impl; [exact Hx|]. by intros xb [Hl _]. Qed.

(** X22: Every block of a constructed model maps a batch of [g * g + 1] tokens
    of [embed_dim] features, [g] being the side of the patch grid, to a
    batch of the same shape in inference mode, with the shared position
    bias of the model. *)
Theorem init_block_keeps_shape (a : args) (s k : nat) (b : Block.t)
    (x : tensor3) :
  let m := (__init__ a s).1 in
  let dim := arg_embed_dim a in
  let g := (img_size a / patch_size a)%nat in
  blocks m !! k = Some b ->
  Forall (shape2 (g * g + 1) dim) x ->
  let y := Block.forward false b x
             (RelativePositionBias.forward <$> rel_pos_bias m) in
  length y = length x /\ Forall (shape2 (g * g + 1) dim) y.
Proof.
  intros m dim g Hb Hx y.
  pose proof (Forall_lookup_1 _ _ _ _ (init_blocks_shape a s x) Hb) as Hk.
  simpl in Hk.
  exact (same_shape_shape2 _ _ _ _ (Hk x Hx) (shape2_tokens _ _ _ Hx)).
Qed.

Lemma foldl_blocks_shape (n dim : nat) (shared : option tensor3)
    (bs : list Block.t) (x : tensor3) :
  Forall (fun b => forall y : tensor3,
            Forall (shape2 n dim) y ->
            Forall2 (same_shape dim) y (Block.forward false b y shared)) bs ->
  Forall (shape2 n dim) x ->
  let y := foldl (fun y blk => Block.forward false blk y shared) x bs in
  length y = length x /\ Forall (shape2 n dim) y.
Proof.
  intros Hbs. revert x. induction Hbs as [|b bs Hb _ IH]; intros x Hx.
  - done.
  - simpl.
    destruct (same_shape_shape2 _ _ _ _ (Hb x Hx) (shape2_tokens _ _ _ Hx))
      as [Hl Hy].
    destruct (IH _ Hy) as [Hl' Hy']. split; [simpl in *; lia|done].
Qed.

Lemma dropout_inference (d : Dropout.t) (x : tensor3) :
  fmap (M := list) (fmap (M := list) (Dropout.forward false d)) x = x.
Proof.
  rewrite <- (list_fmap_id x) at 2. apply list_fmap_ext. intros _ xb _.
  rewrite <- (list_fmap_id xb) at 2. by apply list_fmap_ext.
Qed.

(** X23: The shape contract of [forward_features] for a constructed model in
    inference mode: when the patch embedding turns every image into
    [g * g] tokens of [embed_dim] features, the result has one sample per
    image and [g * g + 1] tokens per sample, and with average pooling,
    where no final norm is applied, every token has [embed_dim]
    features. *)
Theorem init_forward_features_shape (a : args) (s : nat) (x : tensor4) :
  let m := (__init__ a s).1 in
  let dim := arg_embed_dim a in
  let g := (img_size a / patch_size a)%nat in
  Forall (fun img => shape2 (g * g) dim (patch_embed_forward img)) x ->
  let y := forward_features false m x in
  length y = length x
  /\ Forall (fun yb : mat => length yb = (g * g + 1)%nat) y
  /\ (String.eqb (arg_global_pool a) "avg" = true ->
      Forall (shape2 (g * g + 1) dim) y).
Proof.
  intros m dim g Hx y. subst y. unfold forward_features.
  rewrite dropout_inference.
  destruct (init_fields a s) as (_ & Hnorm & _ & [s1 Hct] & Hpe & _).
  fold m dim in Hnorm, Hct, Hpe.
  assert (Hcls : shape2 1 dim (cls_token m)).
  { rewrite Hct. apply trunc_normal_shape. split; [done|].
    repeat constructor. apply length_replicate. }
  set (x0 := (fun xb : mat => cls_token m ++ xb)
               <$> PatchEmbed.forward (patch_embed m) x).
  assert (Hx0 : length x0 = length x /\ Forall (shape2 (g * g + 1) dim) x0).
  { subst x0. unfold PatchEmbed.forward. rewrite !length_fmap.
    split; [done|]. rewrite <- list_fmap_compose.
    apply Forall_fmap. eapply Forall_impl; [exact Hx|].
    intros img [Hl Hr]. unfold compose. destruct Hcls as [Hcl Hcr].
    split; [rewrite length_app; lia|]. by apply Forall_app. }
  set (x1 := match pos_embed m with
             | Some pe => Tensor.add_bcast3 x0 pe
             | None => x0
             end).
  assert (Hx1 : length x1 = length x /\ Forall (shape2 (g * g + 1) dim) x1).
  { subst x1. destruct (use_abs_pos_emb a).
    - destruct Hpe as [s2 ->].
      set (pe := (trunc_normal_ _ _ s2).1).
      assert (Hpes : shape2 (g * g + 1) dim pe).
      { apply trunc_normal_shape. split; [apply length_replicate|].
        apply Forall_replicate, length_replicate. }
      destruct Hx0 as [Hl0 Hs0]. unfold Tensor.add_bcast3.
      split; [by rewrite length_fmap|].
      apply Forall_fmap. eapply Forall_impl; [exact Hs0|].
      intros xb [Hl Hr]. destruct Hpes as [Hpl Hpr]. simpl.
      unfold Tensor.add2. split; [rewrite length_zip_with; lia|].
      apply Forall_lookup. intros j r. rewrite lookup_zip_with.
      destruct (xb !! j) as [xr|] eqn:Hxj; [simpl|done].
      destruct (pe !! j) as [pr|] eqn:Hpj; [simpl|done]. intros [= <-].
      pose proof (Forall_lookup_1 _ _ _ _ Hr Hxj) as E1.
      pose proof (Forall_lookup_1 _ _ _ _ Hpr Hpj) as E2. simpl in *.
      unfold Tensor.add1. rewrite length_zip_with. lia.
    - by rewrite Hpe. }
  destruct Hx1 as [Hl1 Hs1].
  destruct (foldl_blocks_shape (g * g + 1) dim _ _ x1
              (init_blocks_shape a s x1) Hs1) as [Hl2 Hs2].
  fold m in Hl2, Hs2.
  set (x2 := foldl _ x1 (blocks m)) in *.
  rewrite Hnorm.
  destruct (String.eqb (arg_global_pool a) "avg").
  - split; [lia|]. split; [by apply shape2_tokens with dim|done].
  - rewrite length_fmap. split; [lia|]. split; [|done].
    apply Forall_fmap. eapply Forall_impl; [exact Hs2|].
    intros yb [Hl _]. simpl. by rewrite length_fmap.
Qed.

(** X24: The logits of a constructed model with a positive number of classes
    have one row per image and one entry per class in every row, in
    training and in inference mode: their shape is fixed by the head. *)
Theorem init_forward_logits_shape (a : args) (s : nat) (training : bool)
    (x : tensor4) :
  (0 < arg_num_classes a)%Z ->
  let y := forward training (__init__ a s).1 x in
  length y = length x
  /\ Forall (fun row : vec => length row = Z.to_nat (arg_num_classes a)) y.
Proof.
  intros Hpos y. subst y.
  destruct (init_head_linear a s Hpos)
    as (l & b & w & s' & Hhead & [Hwl _] & _ & Hb & Hbl & _).
  unfold forward, forward_head. rewrite Hhead, forward_features_fmap.
  split.
  - unfold pool. destruct (fc_norm _); by rewrite !length_fmap.
  - apply Forall_fmap, Forall_forall. intros r _. simpl.
    rewrite (Linear.forward_length l b) by (done || lia). done.
Qed.

Lemma scores_zero_bias (m : Attention.t) (heads n : nat) (x : tensor3) :
  Attention.num_heads m = heads ->
  Forall (fun xb : mat => length xb = n) x ->
  Tensor.add_bcast4 (Attention.scores m x)
    (replicate heads (replicate n (Tensor.zeros n)))
  = Attention.scores m x.
Proof.
  intros Hnh Hx. unfold Tensor.add_bcast4.
  rewrite <- (list_fmap_id (Attention.scores m x)) at 2.
  apply Forall_fmap_ext.
  pose proof (Attention.scores_shape m x) as Hs.
  apply Forall2_Forall_r with (Q := fun sb : tensor3 =>
    length sb = heads
    /\ Forall (fun a : mat => length a = n
                /\ Forall (fun r => length r = n) a) sb)
    in Hs.
  - eapply Forall_impl; [exact Hs|]. intros sb [Hl Hsb].
    unfold id. apply Attention.add3_zeros; [lia|].
    eapply Forall_impl; [exact Hsb|]. intros a0 [Ha Hr]. split; [lia|].
    eapply Forall_impl; [exact Hr|]. intros r ->. done.
  - eapply Forall_impl; [exact Hx|]. intros xb Hxb sb [Hl Hsb].
    rewrite Hxb in Hsb. by rewrite <- Hnh.
Qed.

(** X25: A model just constructed attends without any position signal: in
    every block, the bias gathered from the block's own table and the
    shared bias of the model are zero tensors, so on sequences of
    [g * g + 1] tokens the attention is computed from the scaled dot
    products alone.  No initialisation pass changes that. *)
Theorem init_position_biases_neutral (a : args) (s k : nat) (b : Block.t)
    (training : bool) (x : tensor3) :
  let m := (__init__ a s).1 in
  let g := (img_size a / patch_size a)%nat in
  (0 < g)%nat ->
  blocks m !! k = Some b ->
  Forall (fun xb : mat => length xb = (g * g + 1)%nat) x ->
  Attention.forward training (Block.attn b) x
    (RelativePositionBias.forward <$> rel_pos_bias m)
  = Attention.attend training (Block.attn b) x
      (Attention.scores (Block.attn b) x).
Proof.
  intros m g Hg Hb Hx.
  destruct (init_blocks_lookup a s k b Hb) as (_ & s1 & s2 & Heq).
  destruct (constructed_block a k s1 s2)
    as (_ & _ & (Hnh & Hws & Htab & Hidx) & _).
  rewrite <- Heq in Hnh, Hws, Htab, Hidx. clear Heq.
  unfold Attention.forward. f_equal. unfold Attention.add_biases.
  assert (Hown : match Attention.relative_position_bias_table (Block.attn b)
                 with
                 | Some _ =>
                     Tensor.add4_lead1 (Attention.scores (Block.attn b) x)
                       (Attention._get_rel_pos_bias (Block.attn b))
                 | None => Attention.scores (Block.attn b) x
                 end = Attention.scores (Block.attn b) x).
  { rewrite Htab. destruct (use_rel_pos_bias a); [|done].
    cbn [fmap option_fmap option_map].
    rewrite (Attention.zero_table_bias (Block.attn b) (num_heads a) g g)
      by done.
    unfold Tensor.add4_lead1. by apply scores_zero_bias. }
  rewrite Hown. subst m. rewrite init_rel_pos_bias_field.
  destruct (use_shared_rel_pos_bias a); [|done].
  cbn [fmap option_fmap option_map].
  rewrite (RelativePositionBias.forward_zero_table _ g g (num_heads a))
    by done.
  by apply scores_zero_bias.
Qed.

End Beit.
End Beit.

(** ** [beit_base_patch16_224] (beit.py, lines 398-419) *)

Section Factory.
Context `{Externals}.

(** The keyword arguments the factory fixes, on top of the defaults of
    [Beit.__init__]. *)
Definition model_kwargs : Beit.args :=
  Beit.mkargs 224 16 3 1000 "avg" 768 12 12 4 true 0 0 0 (1 # 1000000)
    (Some (1 # 10)%Q) false true false (1 # 1000).

(** The factory called with [pretrained=False] and no overrides.  Loading
    a checkpoint replaces parameter values and keeps the module tree. *)
Definition beit_base_patch16_224 : Rand Beit.t := Beit.__init__ model_kwargs.

Lemma build_pos_embed (a : Beit.args) (s : nat) :
  Beit.pos_embed (Beit.build a s).1
  = if Beit.use_abs_pos_emb a
    then Some (replicate
                 (PatchEmbed.num_patches
                    (PatchEmbed.__init__ (Beit.img_size a) (Beit.patch_size a)
                       (Beit.in_chans a) (Beit.arg_embed_dim a)) + 1)
                 (Tensor.zeros (Beit.arg_embed_dim a)))
    else None.
Proof.
  unfold Beit.build, mbind, Rand_bind, mret, Rand_ret.
  match goal with
  | |- context [mapM ?f (seq 0 (Beit.depth a))] =>
      destruct (mapM (M := Rand) f (seq 0 (Beit.depth a)) s) as [bs s1]
  end.
  by destruct (Beit.make_head _ _ s1).
Qed.

Lemma init_pos_embed_absent (a : Beit.args) (s : nat) :
  Beit.use_abs_pos_emb a = false ->
  Beit.pos_embed (Beit.__init__ a s).1 = None.
Proof.
  intros Ha. unfold Beit.__init__, Beit.generic_init, mbind, Rand_bind.
  pose proof (build_pos_embed a s) as Hb. rewrite Ha in Hb.
  destruct (Beit.build a s) as [m0 s0]. simpl in Hb.
  unfold Beit.apply__init_weights, mbind, Rand_bind, mret, Rand_ret.
  destruct (mapM (M := Rand) Beit.apply_Block (Beit.blocks m0) s0)
    as [bs s1].
  destruct (Beit.apply_head (Beit.head m0) s1) as [hd s2].
  unfold Beit.init_tokens, mbind, Rand_bind, mret, Rand_ret. simpl.
  rewrite Hb.
  destruct (trunc_normal_ (Beit.cls_token m0) (2 # 100) s2) as [ct s3].
  unfold Beit.init_head, Beit.fix_init_weight. simpl.
  destruct hd as [|l]; [done|].
  unfold mbind, Rand_bind, mret, Rand_ret.
  by destruct (trunc_normal_ (Linear.weight l) (2 # 100) s3).
Qed.

(** C5 (amended): for the model built by [beit_base_patch16_224], which
    has no [pos_embed] parameter, [no_weight_decay()] contains every
    parameter name in which "relative_position_bias_table" occurs, and it
    contains "pos_embed" and "cls_token" as well: the two names are put in
    the set unconditionally.  The set holds nothing else. *)
Theorem no_weight_decay_beit_base (s : nat) :
  let m := (beit_base_patch16_224 s).1 in
  Beit.pos_embed m = None
  /\ (forall n, n ∈ Beit.named_parameters m ->
               contains "relative_position_bias_table" n = true ->
               n ∈ Beit.no_weight_decay m)
  /\ "pos_embed" ∈ Beit.no_weight_decay m
  /\ "cls_token" ∈ Beit.no_weight_decay m
  /\ (forall n, n ∈ Beit.no_weight_decay m ->
               n = "pos_embed" \/ n = "cls_token"
               \/ (n ∈ Beit.named_parameters m
                   /\ contains "relative_position_bias_table" n = true)).
Proof.
  intros m. split; [by apply init_pos_embed_absent|].
  split; [|split; [|split]].
  - intros n Hn Hc. apply Beit.no_weight_decay_elem. auto.
  - apply Beit.no_weight_decay_elem. auto.
  - apply Beit.no_weight_decay_elem. auto.
  - intros n Hn. by apply Beit.no_weight_decay_elem.
Qed.

(** The other factories (beit.py, lines 422-572), each called with
    [pretrained=False] and no overrides. *)
Definition beit_base_patch16_384_kwargs : Beit.args :=
  Beit.mkargs 384 16 3 1000 "avg" 768 12 12 4 true 0 0 0 (1 # 1000000)
    (Some (1 # 10)%Q) false true false (1 # 1000).
Definition beit_base_patch16_224_in22k_kwargs : Beit.args :=
  Beit.mkargs 224 16 3 21841 "avg" 768 12 12 4 true 0 0 0 (1 # 1000000)
    (Some (1 # 10)%Q) false true false (1 # 1000).
Definition beit_large_patch16_224_kwargs : Beit.args :=
  Beit.mkargs 224 16 3 1000 "avg" 1024 24 16 4 true 0 0 0 (1 # 1000000)
    (Some (1 # 100000)%Q) false true false (1 # 1000).
Definition beit_large_patch16_384_kwargs : Beit.args :=
  Beit.mkargs 384 16 3 1000 "avg" 1024 24 16 4 true 0 0 0 (1 # 1000000)
    (Some (1 # 100000)%Q) false true false (1 # 1000).
Definition beit_large_patch16_512_kwargs : Beit.args :=
  Beit.mkargs 512 16 3 1000 "avg" 1024 24 16 4 true 0 0 0 (1 # 1000000)
    (Some (1 # 100000)%Q) false true false (1 # 1000).
Definition beit_large_patch16_224_in22k_kwargs : Beit.args :=
  Beit.mkargs 224 16 3 21841 "avg" 1024 24 16 4 true 0 0 0 (1 # 1000000)
    (Some (1 # 100000)%Q) false true false (1 # 1000).

Definition beit_base_patch16_384 : Rand Beit.t :=
  Beit.__init__ beit_base_patch16_384_kwargs.
Definition beit_base_patch16_224_in22k : Rand Beit.t :=
  Beit.__init__ beit_base_patch16_224_in22k_kwargs.
Definition beit_large_patch16_224 : Rand Beit.t :=
  Beit.__init__ beit_large_patch16_224_kwargs.
Definition beit_large_patch16_384 : Rand Beit.t :=
  Beit.__init__ beit_large_patch16_384_kwargs.
Definition beit_large_patch16_512 : Rand Beit.t :=
  Beit.__init__ beit_large_patch16_512_kwargs.
Definition beit_large_patch16_224_in22k : Rand Beit.t :=
  Beit.__init__ beit_large_patch16_224_in22k_kwargs.

(** What a factory's model looks like, given the patch grid side [g], the
    width, the depth, the number of heads and the number of classes. *)
Definition beit_variant (g dim depth heads : nat) (classes : Z)
    (m : Beit.t) : Prop :=
  Beit.pos_embed m = None
  /\ Beit.rel_pos_bias m = None
  /\ Beit.norm m = Beit.NormIdentity
  /\ is_Some (Beit.fc_norm m)
  /\ length (Beit.blocks m) = depth
  /\ Forall (fun b =>
               Attention.window_size (Block.attn b) = Some (g, g)
               /\ (exists tb,
                     Attention.relative_position_bias_table (Block.attn b)
                     = Some tb
                     /\ Z.of_nat (length tb)
                        = ((2 * Z.of_nat g - 1) * (2 * Z.of_nat g - 1) + 3)%Z
                     /\ Forall (fun row => length row = heads) tb)
               /\ is_Some (Block.gamma_1 b) /\ is_Some (Block.gamma_2 b)
               /\ is_Some (Attention.q_bias (Block.attn b))
               /\ Block.drop_path b = DropPath.Identity)
       (Beit.blocks m)
  /\ exists l, Beit.head m = Beit.HeadLinear l
               /\ Beit.shape2 (Z.to_nat classes) dim (Linear.weight l).

Lemma init_variant (a : Beit.args) (s : nat) :
  Beit.use_abs_pos_emb a = false -> Beit.use_rel_pos_bias a = true ->
  Beit.use_shared_rel_pos_bias a = false ->
  Beit.arg_global_pool a = "avg" -> Beit.qkv_bias a = true ->
  truthy (Beit.init_values a) = true ->
  (Beit.drop_path_rate a <= 0)%Q -> (0 < Beit.arg_num_classes a)%Z ->
  (0 < Beit.img_size a / Beit.patch_size a)%nat ->
  beit_variant (Beit.img_size a / Beit.patch_size a) (Beit.arg_embed_dim a)
    (Beit.depth a) (Beit.num_heads a) (Beit.arg_num_classes a)
    (Beit.__init__ a s).1.
Proof.
  intros Habs Hrel Hshared Havg Hqb Hiv Hdp Hcls Hg.
  set (g := (Beit.img_size a / Beit.patch_size a)%nat) in *.
  destruct (Beit.init_fields a s) as (Hc & Hn & Hf & _ & Hpe & _).
  rewrite Habs in Hpe. rewrite Havg in Hn, Hf. simpl in Hn, Hf.
  pose proof (Beit.init_blocks_length a s) as Hlen.
  pose proof (Beit.nonpositive_rate_identity a s Hdp) as Hident.
  split; [done|]. split.
  { injection Hc as _ _ _ _ _ _ _ ->. by rewrite Hshared. }
  split; [done|]. split; [by rewrite Hf|]. split; [done|]. split.
  - apply Forall_lookup. intros k b Hb.
    pose proof (Forall_lookup_1 _ _ _ _ Hident Hb) as Hid. simpl in Hid.
    destruct (Beit.init_blocks_lookup a s k b Hb) as (_ & s1 & s2 & ->).
    destruct (Beit.constructed_block a k s1 s2)
      as (_ & (Hg1 & Hg2) & (_ & Hws & Ht & _) & (Hq & _) & _).
    rewrite Hrel in Hws, Ht. rewrite Hiv in Hg1. rewrite Hqb in Hq.
    split; [exact Hws|]. split.
    + eexists. split; [exact Ht|]. split.
      * rewrite length_replicate. unfold RelPos.num_relative_distance.
        cbn [fst snd PatchEmbed.grid_size PatchEmbed.__init__]. fold g. nia.
      * apply Forall_replicate, length_replicate.
    + rewrite Hg2, Hg1, Hq. eauto.
  - destruct (Beit.init_head_linear a s Hcls)
      as (l & b & w & s' & Hl & Hshape & _). eauto.
Qed.

(** X26: The seven factories: each builds a model without absolute position
    embedding and without a shared bias, with average pooling, no drop
    path and one relative position table of [(2g-1)^2 + 3] rows per block,
    where the grid side [g] is 14, 24 or 32; the base models are 12 blocks
    of width 768 with 12 heads, the large ones 24 blocks of width 1024 with
    16 heads; the head has 1000 outputs, or 21841 for the in22k models. *)
Theorem factories_structure (s : nat) :
  beit_variant 14 768 12 12 1000 (beit_base_patch16_224 s).1
  /\ beit_variant 24 768 12 12 1000 (beit_base_patch16_384 s).1
  /\ beit_variant 14 768 12 12 21841 (beit_base_patch16_224_in22k s).1
  /\ beit_variant 14 1024 24 16 1000 (beit_large_patch16_224 s).1
  /\ beit_variant 24 1024 24 16 1000 (beit_large_patch16_384 s).1
  /\ beit_variant 32 1024 24 16 1000 (beit_large_patch16_512 s).1
  /\ beit_variant 14 1024 24 16 21841 (beit_large_patch16_224_in22k s).1.
Proof.
  split; [|split; [|split; [|split; [|split; [|split]]]]].
  - apply (init_variant model_kwargs s); try reflexivity;
      (simpl; lia) || (unfold Qle; simpl; lia).
  - apply (init_variant beit_base_patch16_384_kwargs s); try reflexivity;
      (simpl; lia) || (unfold Qle; simpl; lia).
  - apply (init_variant beit_base_patch16_224_in22k_kwargs s);
      try reflexivity; (simpl; lia) || (unfold Qle; simpl; lia).
  - apply (init_variant beit_large_patch16_224_kwargs s); try reflexivity;
      (simpl; lia) || (unfold Qle; simpl; lia).
  - apply (init_variant beit_large_patch16_384_kwargs s); try reflexivity;
      (simpl; lia) || (unfold Qle; simpl; lia).
  - apply (init_variant beit_large_patch16_512_kwargs s); try reflexivity;
      (simpl; lia) || (unfold Qle; simpl; lia).
  - apply (init_variant beit_large_patch16_224_in22k_kwargs s);
      try reflexivity; (simpl; lia) || (unfold Qle; simpl; lia).
Qed.

End Factory.

(** A concrete runtime to evaluate the model on small inputs: the black
    boxes are replaced by simple rational functions. *)
Definition sample_externals : Externals := {|
  softmax v := Tensor.divs v (Tensor.sum v + 1)%Q;
  layer_norm eps w b x := Tensor.add1 (Tensor.mul_last w x) b;
  gelu x := x;
  dropout_mask p x := Tensor.muls x (1 - p)%Q;
  drop_path_mask p x := (fun r => Tensor.muls r (1 - p)%Q) <$> x;
  pow_neg_half n := (1 # Pos.of_nat n)%Q;
  math_sqrt x := x;
  trunc_normal_sample std k := (std * inject_Z (Z.of_nat k))%Q;
  default_init_sample k := (inject_Z (Z.of_nat k) / 10)%Q;
  patch_embed_forward img := concat img;
  patch_embed_parameters := ["proj.weight"; "proj.bias"];
|}.

(** ** Concrete instances *)


(** A model small enough to evaluate: a 2x2 grid of patches, two blocks of
    width 2 with one head, three classes, average pooling, per-block
    relative position bias and a drop-path rate of 0.1. *)
Definition small_args : Beit.args :=
  Beit.mkargs 2 1 1 3 "avg" 2 2 1 2 true 0 0 (1 # 10) (1 # 1000000)
    (Some (1 # 10)%Q) false true false (1 # 1000).

Definition small_model : Beit.t :=
  (Beit.__init__ (H := sample_externals) small_args 0).1.

(** The same configuration with a single block. *)
Definition single_block_args : Beit.args :=
  Beit.mkargs 2 1 1 3 "avg" 2 1 1 2 true 0 0 (1 # 10) (1 # 1000000)
    (Some (1 # 10)%Q) false true false (1 # 1000).

(** An attention module with one head of width 2 over a 1x1 window (two
    tokens with the class token) and a non-zero bias table. *)
Definition small_attention : Attention.t :=
  Attention.mk 1 1
    (Linear.mk [[1; 0]; [0; 1]; [1; 1]; [2; 0]; [0; 2]; [1; 0]]%Q None)
    None None None (Some (1, 1)%nat) (Some [[5]; [6]; [7]; [8]]%Q)
    (Some (RelPos.gen_relative_position_index (1, 1)%nat))
    (Dropout.mk 0) (Linear.mk [[1; 0]; [0; 1]]%Q (Some [0; 0]%Q))
    (Dropout.mk 0).

Example small_model_parameters :
  Beit.named_parameters (H := sample_externals) small_model
  = ["cls_token"; "patch_embed.proj.weight"; "patch_embed.proj.bias";
     "blocks.0.gamma_1"; "blocks.0.gamma_2"; "blocks.0.norm1.weight";
     "blocks.0.norm1.bias"; "blocks.0.attn.q_bias"; "blocks.0.attn.v_bias";
     "blocks.0.attn.relative_position_bias_table";
     "blocks.0.attn.qkv.weight"; "blocks.0.attn.proj.weight";
     "blocks.0.attn.proj.bias"; "blocks.0.norm2.weight";
     "blocks.0.norm2.bias"; "blocks.0.mlp.fc1.weight";
     "blocks.0.mlp.fc1.bias"; "blocks.0.mlp.fc2.weight";
     "blocks.0.mlp.fc2.bias"; "blocks.1.gamma_1"; "blocks.1.gamma_2";
     "blocks.1.norm1.weight"; "blocks.1.norm1.bias"; "blocks.1.attn.q_bias";
     "blocks.1.attn.v_bias"; "blocks.1.attn.relative_position_bias_table";
     "blocks.1.attn.qkv.weight"; "blocks.1.attn.proj.weight";
     "blocks.1.attn.proj.bias"; "blocks.1.norm2.weight";
     "blocks.1.norm2.bias"; "blocks.1.mlp.fc1.weight";
     "blocks.1.mlp.fc1.bias"; "blocks.1.mlp.fc2.weight";
     "blocks.1.mlp.fc2.bias"; "fc_norm.weight"; "fc_norm.bias";
     "head.weight"; "head.bias"].
Proof. vm_compute. reflexivity. Qed.

Example small_model_no_weight_decay :
  Beit.no_weight_decay (H := sample_externals) small_model
  = {[ "pos_embed"; "cls_token";
       "blocks.0.attn.relative_position_bias_table";
       "blocks.1.attn.relative_position_bias_table" ]}.
Proof. apply (bool_decide_unpack _). by vm_compute. Qed.

(** Block 1 of the small model: the two rescaled weights are the values of
    the generic pass divided by [math_sqrt (2 * 2)]. *)
Lemma fix_init_weight_rescales_witness :
  exists b0 b,
    Beit.blocks (Beit.generic_init (H := sample_externals) small_args 0).1
      !! 1%nat = Some b0
    /\ Beit.blocks small_model !! 1%nat = Some b
    /\ Linear.weight (Attention.proj (Block.attn b0))
       = [[266 # 100; 268 # 100]; [270 # 100; 272 # 100]]%Q
    /\ Linear.weight (Attention.proj (Block.attn b))
       = [[266 # 400; 268 # 400]; [270 # 400; 272 # 400]]%Q.
Proof.
  assert (Hk : is_Some
    (Beit.blocks (Beit.generic_init (H := sample_externals) small_args 0).1
       !! 1%nat)) by (vm_compute; eauto).
  destruct Hk as [b0 Hk].
  destruct (Beit.fix_init_weight_rescales (H := sample_externals)
              small_args 0 1 b0 Hk) as (_ & _ & b & Hb & Hp & _).
  exists b0, b. split; [exact Hk|]. split; [exact Hb|].
  assert (Hw : Linear.weight (Attention.proj (Block.attn b0))
               = [[266 # 100; 268 # 100]; [270 # 100; 272 # 100]]%Q).
  { vm_compute in Hk. injection Hk as <-. reflexivity. }
  split; [exact Hw|]. rewrite Hp, Hw. reflexivity.
Defined.

Lemma forward_qkv_bias_zero_witness :
  let m := (Attention.__init__ (H := sample_externals) 2 1 false 0 0
              (Some (1, 1)%nat) None 0).1 in
  let m' := (Attention.__init__ (H := sample_externals) 2 1 true 0 0
               (Some (1, 1)%nat) None 0).1 in
  Attention.q_bias m = None
  /\ length (Linear.weight (Attention.qkv m)) = (3 * 2)%nat
  /\ Attention.forward (H := sample_externals) false m
       [[[1; 2]; [3; 4]]]%Q None
     = Attention.forward (H := sample_externals) false m'
         [[[1; 2]; [3; 4]]]%Q None.
Proof.
  intros m m'. split; [reflexivity|]. split; [reflexivity|].
  exact (Attention.forward_qkv_bias_zero (H := sample_externals) m 2
           [[[1; 2]; [3; 4]]]%Q None eq_refl eq_refl).
Defined.

Lemma add_biases_cumulative_witness :
  is_Some (Attention.relative_position_bias_table small_attention)
  /\ Tensor.entry4
       (Attention.add_biases small_attention
          (Some [[[10; 20]; [30; 40]]]%Q)
          (Attention.scores small_attention [[[1; 2]; [3; 4]]]%Q))
       0 0 1 0
     = Some (17 + 7 + 30)%Q.
Proof.
  assert (Hs : is_Some
    (Attention.relative_position_bias_table small_attention))
    by (vm_compute; eauto).
  split; [exact Hs|].
  destruct (Attention.add_biases_cumulative (H := sample_externals)
              small_attention [[[10; 20]; [30; 40]]]%Q
              [[[1; 2]; [3; 4]]]%Q false Hs) as (_ & Hentry & _).
  apply Hentry; reflexivity.
Defined.

Lemma drop_path_schedule_witness :
  (2 <= Beit.depth small_args)%nat
  /\ exists r blk,
       linspace 0 (1 # 10) 2 !! 1%nat = Some r
       /\ (r == 1 # 10)%Q
       /\ Beit.blocks small_model !! 1%nat = Some blk
       /\ Block.drop_path blk = DropPath.DropPath r.
Proof.
  assert (Hd : (2 <= Beit.depth small_args)%nat) by (simpl; lia).
  split; [exact Hd|].
  destruct (Beit.drop_path_schedule (H := sample_externals) small_args 0 Hd)
    as (_ & _ & Hall & _ & _).
  destruct (Hall 1%nat ltac:(simpl; lia))
    as (r & blk & Hr & Heq & Hb & _ & _ & Hpos).
  exists r, blk. split; [exact Hr|]. split; [|split; [exact Hb|]].
  - rewrite Heq. reflexivity.
  - apply Hpos; [reflexivity | lia].
Defined.

Lemma single_block_drop_path_witness :
  Beit.depth single_block_args = 1%nat
  /\ exists blk,
       Beit.blocks (Beit.__init__ (H := sample_externals) single_block_args
                      0).1 = [blk]
       /\ Block.drop_path blk = DropPath.Identity.
Proof.
  split; [reflexivity|].
  destruct (Beit.single_block_drop_path (H := sample_externals)
              single_block_args 0 eq_refl) as (_ & blk & Hb & Hdp & _).
  exists blk. split; assumption.
Defined.


(** C5, as stated, fails: the set returned for the model of
    [beit_base_patch16_224] contains "pos_embed", although the model has no
    such parameter. *)
Lemma no_weight_decay_contains_pos_embed :
  Beit.pos_embed (beit_base_patch16_224 (H := sample_externals) 0).1 = None
  /\ "pos_embed"
     ∈ Beit.no_weight_decay (H := sample_externals)
         (beit_base_patch16_224 (H := sample_externals) 0).1.
Proof.
  split.
  - by apply init_pos_embed_absent.
  - apply Beit.no_weight_decay_elem. by left.
Qed.

(** C9 on a concrete input: the small model is built with
    [global_pool="avg"]; after [reset_classifier(3, global_pool="token")]
    the attribute reads "token", yet the pooled features of a sequence with
    class token [1; 2] and patch tokens [3; 4], [5; 6] are the normalised
    mean [4; 5] of the patch tokens, not the class token. *)
Lemma reset_classifier_global_pool_ignored :
  let m' := (Beit.reset_classifier (H := sample_externals) small_model 3
               (Some "token") 0).1 in
  Beit.global_pool small_model = "avg"
  /\ Beit.global_pool m' = "token"
  /\ Beit.forward_head (H := sample_externals) m'
       [[[1; 2]; [3; 4]; [5; 6]]]%Q true = [[8 # 2; 10 # 2]]%Q
  /\ Beit.forward_head (H := sample_externals) m'
       [[[1; 2]; [3; 4]; [5; 6]]]%Q true <> [[1; 2]]%Q.
Proof. vm_compute. repeat split; discriminate. Qed.

(** *** Instances of the further properties *)

(** The small configuration without stochastic depth. *)
Definition plain_args : Beit.args :=
  Beit.mkargs 2 1 1 3 "avg" 2 2 1 2 true 0 0 0 (1 # 1000000)
    (Some (1 # 10)%Q) false true false (1 # 1000).

(** [small_attention] with learned query and value biases. *)
Definition biased_attention : Attention.t :=
  Attention.with_qkv_bias small_attention (Some [1; 2]%Q)
    (Some (Tensor.zeros 2)) (Some [3; 4]%Q).

Lemma init_gather_in_range_witness :
  (0 < 1)%nat
  /\ exists row, replicate 4 (Tensor.zeros 1) !! Z.to_nat 2 = Some row
                 /\ length row = 1%nat.
Proof.
  split; [lia|].
  destruct (Attention.init_gather_in_range (H := sample_externals) 2 1 true
              0 0 1 1 None 0 1 0 2 ltac:(lia) ltac:(lia)
              (replicate 4 (Tensor.zeros 1))
              (RelPos.gen_relative_position_index (1, 1)%nat)
              eq_refl eq_refl eq_refl) as [_ Hrow].
  exact Hrow.
Defined.

Lemma _get_rel_pos_bias_entry_witness :
  (0 < 1)%nat
  /\ Tensor.entry4 (Attention._get_rel_pos_bias small_attention) 0 0 1 0
     = Some 7%Q.
Proof.
  split; [lia|].
  apply (Attention._get_rel_pos_bias_entry small_attention
           [[5]; [6]; [7]; [8]]%Q
           (RelPos.gen_relative_position_index (1, 1)%nat) 1 1 0 1 0 2).
  - reflexivity.
  - reflexivity.
  - reflexivity.
  - repeat constructor.
  - simpl. lia.
  - lia.
  - reflexivity.
Defined.

Lemma init_rel_pos_bias_neutral_witness :
  let m := (Attention.__init__ (H := sample_externals) 2 1 true 0 0
              (Some (1, 1)%nat) None 0).1 in
  (0 < 1)%nat
  /\ Attention.add_biases m None (Attention.scores m [[[1; 2]; [3; 4]]]%Q)
     = Attention.scores m [[[1; 2]; [3; 4]]]%Q.
Proof.
  intros m. split; [lia|].
  destruct (Attention.init_rel_pos_bias_neutral (H := sample_externals) 2 1
              true 0 0 1 1 None 0 false [[[1; 2]; [3; 4]]]%Q
              ltac:(lia) ltac:(lia) ltac:(repeat constructor))
    as (_ & Heq & _).
  exact Heq.
Defined.

Lemma keys_ignore_qkv_bias_witness :
  Attention.q_bias biased_attention = Some [1; 2]%Q
  /\ Attention.unbind_qkv biased_attention 1
       (Attention.project biased_attention [[[1; 2]; [3; 4]]]%Q)
     = Attention.unbind_qkv small_attention 1
         (Attention.project small_attention [[[1; 2]; [3; 4]]]%Q).
Proof.
  split; [reflexivity|].
  exact (Attention.keys_ignore_qkv_bias biased_attention [1; 2]%Q [3; 4]%Q
           2 2 [[[1; 2]; [3; 4]]]%Q eq_refl eq_refl eq_refl eq_refl eq_refl
           eq_refl).
Defined.

Lemma forward_shape_witness :
  let m := (Attention.__init__ (H := sample_externals) 2 1 true 0 0
              (Some (1, 1)%nat) None 0).1 in
  (0 < 1)%nat
  /\ Forall2 (fun xb ob : list (list Q) =>
                length ob = length xb
                /\ Forall (fun r => length r = 2%nat) ob)
       [[[1; 2]; [3; 4]]]%Q
       (Attention.forward (H := sample_externals) false m
          [[[1; 2]; [3; 4]]]%Q None).
Proof.
  intros m. split; [lia|].
  apply (Attention.forward_shape (H := sample_externals) 2 1 true 0 0
           (Some (1, 1)%nat) None 0 [[[1; 2]; [3; 4]]]%Q).
  split; [lia|]. split; [lia|]. repeat constructor.
Defined.

Lemma forward_fresh_zero_witness :
  (0 < 1)%nat
  /\ RelativePositionBias.forward (RelativePositionBias.__init__ (1, 1)%nat 2)
     = [[[0; 0]; [0; 0]]; [[0; 0]; [0; 0]]]%Q.
Proof.
  split; [lia|].
  exact (RelativePositionBias.forward_fresh_zero 1 1 2 ltac:(lia)
           ltac:(lia)).
Defined.



Lemma drop_path_monotone_witness :
  (0 <= Beit.drop_path_rate small_args)%Q
  /\ exists b0 b1 r1,
       Beit.blocks small_model !! 0%nat = Some b0
       /\ Beit.blocks small_model !! 1%nat = Some b1
       /\ Block.drop_path b0 = DropPath.Identity
       /\ Block.drop_path b1 = DropPath.DropPath r1
       /\ (r1 <= 1 # 10)%Q.
Proof.
  assert (Hr : (0 <= Beit.drop_path_rate small_args)%Q)
    by (unfold Qle; simpl; lia).
  split; [exact Hr|].
  assert (H0 : is_Some (Beit.blocks small_model !! 0%nat))
    by (vm_compute; eauto).
  assert (H1 : is_Some (Beit.blocks small_model !! 1%nat))
    by (vm_compute; eauto).
  destruct H0 as [b0 H0], H1 as [b1 H1].
  destruct (Beit.drop_path_monotone (H := sample_externals) small_args 0 0 1
              b0 b1 Hr ltac:(lia) H0 H1)
    as (r0 & r1 & Hr0 & Hr1 & (_ & _ & Hle) & [_ Hid] & [Hdp _] & _).
  exists b0, b1, r1. split; [exact H0|]. split; [exact H1|].
  vm_compute in Hr0. injection Hr0 as <-.
  vm_compute in Hr1. injection Hr1 as <-.
  split; [apply Hid; unfold Qle; simpl; lia|].
  split; [apply Hdp; reflexivity|]. exact Hle.
Defined.

Lemma drop_path_disabled_witness :
  (Beit.drop_path_rate plain_args <= 0)%Q
  /\ Forall (fun b => Block.drop_path b = DropPath.Identity)
       (Beit.blocks (Beit.__init__ (H := sample_externals) plain_args 0).1).
Proof.
  assert (Hr : (Beit.drop_path_rate plain_args <= 0)%Q)
    by (unfold Qle; simpl; lia).
  split; [exact Hr|].
  destruct (Beit.drop_path_disabled (H := sample_externals) plain_args 0 Hr)
    as [_ Hall].
  eapply Forall_impl; [exact Hall|]. intros b [Hb _]. exact Hb.
Defined.

Lemma no_weight_decay_block_tables_witness :
  Beit.use_rel_pos_bias small_args = true
  /\ "blocks.1.attn.relative_position_bias_table"
     ∈ Beit.no_weight_decay (H := sample_externals) small_model.
Proof.
  split; [reflexivity|].
  destruct (Beit.no_weight_decay_block_tables (H := sample_externals)
              small_args 0 1 eq_refl ltac:(simpl; lia)) as [_ Hin].
  exact Hin.
Defined.

Lemma forward_head_tokens_witness :
  is_Some (Beit.fc_norm small_model)
  /\ Beit.forward_head (H := sample_externals) small_model
       [[[1; 2]; [3; 4]; [5; 6]]]%Q true
     = Beit.forward_head (H := sample_externals) small_model
         [[[9; 9]; [3; 4]; [5; 6]]]%Q true.
Proof.
  split; [vm_compute; eauto|].
  apply (Beit.forward_head_tokens (H := sample_externals) small_model).
  repeat constructor.
Defined.

(** A batch of one sample with five tokens of two features, and a batch of
    one image that the sample patch embedding turns into four tokens. *)
Definition small_tokens : tensor3 :=
  [[[1; 0]; [0; 1]; [1; 1]; [2; 0]; [0; 0]]]%Q.

Definition small_images : tensor4 :=
  [[[[1; 0]; [0; 1]]; [[1; 1]; [2; 0]]]]%Q.

Lemma init_block_keeps_shape_witness :
  exists b, Beit.blocks small_model !! 0%nat = Some b
            /\ Forall (Beit.shape2 5 2) small_tokens
            /\ Forall (Beit.shape2 5 2)
                 (Block.forward (H := sample_externals) false b small_tokens
                    (RelativePositionBias.forward
                       <$> Beit.rel_pos_bias small_model)).
Proof.
  assert (Hk : is_Some (Beit.blocks small_model !! 0%nat))
    by (vm_compute; eauto).
  destruct Hk as [b Hk]. exists b. split; [exact Hk|].
  assert (Hx : Forall (Beit.shape2 5 2) small_tokens)
    by (repeat constructor).
  split; [exact Hx|].
  destruct (Beit.init_block_keeps_shape (H := sample_externals) small_args 0
              0 b small_tokens Hk Hx) as [_ Hy].
  exact Hy.
Defined.

Lemma init_forward_features_shape_witness :
  Forall (fun img => Beit.shape2 4 2
                       (patch_embed_forward (Externals := sample_externals)
                          img)) small_images
  /\ Forall (Beit.shape2 5 2)
       (Beit.forward_features (H := sample_externals) false small_model
          small_images).
Proof.
  assert (Hx : Forall (fun img => Beit.shape2 4 2
                         (patch_embed_forward (Externals := sample_externals)
                            img)) small_images)
    by (repeat constructor).
  split; [exact Hx|].
  destruct (Beit.init_forward_features_shape (H := sample_externals)
              small_args 0 small_images Hx) as (_ & _ & Havg).
  exact (Havg eq_refl).
Defined.

Lemma init_forward_logits_shape_witness :
  (0 < Beit.arg_num_classes small_args)%Z
  /\ length (Beit.forward (H := sample_externals) true small_model
               small_images) = 1%nat.
Proof.
  assert (Hpos : (0 < Beit.arg_num_classes small_args)%Z) by (simpl; lia).
  split; [exact Hpos|].
  destruct (Beit.init_forward_logits_shape (H := sample_externals)
              small_args 0 true small_images Hpos) as [Hl _].
  exact Hl.
Defined.

Lemma init_position_biases_neutral_witness :
  exists b, Beit.blocks small_model !! 1%nat = Some b
            /\ Attention.forward (H := sample_externals) false
                 (Block.attn b) small_tokens
                 (RelativePositionBias.forward
                    <$> Beit.rel_pos_bias small_model)
               = Attention.attend (H := sample_externals) false
                   (Block.attn b) small_tokens
                   (Attention.scores (Block.attn b) small_tokens).
Proof.
  assert (Hk : is_Some (Beit.blocks small_model !! 1%nat))
    by (vm_compute; eauto).
  destruct Hk as [b Hk]. exists b. split; [exact Hk|].
  apply (Beit.init_position_biases_neutral (H := sample_externals)
           small_args 0 1 b false small_tokens).
  - simpl. lia.
  - exact Hk.
  - repeat constructor.
Defined.
